(** * Largest-remainder distribution of ads over projects and unit types

    A shallow embedding of [distribute_ads_automatically]
    (distribution_logic.py) and the properties of its two apportionment
    passes.

    Conventions of the embedding.
    - A DataFrame is a list of column names together with a list of rows;
      a row is a record with one field per required column.  Index labels
      are the positions of the rows (a RangeIndex).
    - A cell of a numeric column is a finite number, a text or a missing
      value; infinite cells are not represented.
    - The arithmetic of the source is given twice.  The definitions of
      section Distribution read float64 as the rationals ([Q]) and int64 as
      the integers ([Z]): they say what the formulas compute when nothing
      is rounded, and the properties of the scores, of the loop over the
      projects and of the page are stated over them.  Module [Float64]
      follows the machine: every operation rounds to the nearest float64
      and every integer is checked against the range of int64.  The
      properties of the project pass that depend on rounding (the sum of
      the awards, who receives an extra unit, one more ad) are stated over
      [Float64].
    - Strings are byte strings; [strip] and [lower] follow Python on the
      ASCII range.
    - What pandas contributes beyond the code of the repository (reading a
      text as a number, and the order returned by [sort_values]) is an
      interface, class [Pandas]; the function is stated for every
      implementation of it.
    - The caller's DataFrame is a mutable object: the function returns the
      frame as it is left after the call, together with its results.
    - [datetime.now()] is read from a [Clock]; [st.error] and [st.warning]
      are collected as a list of notices. *)

From Stdlib Require Import ZArith QArith Qround Qminmax Qpower Lia Lqa.
From Stdlib Require Import Ascii String List Permutation Sorted.
From Stdlib Require Floats.
From stdpp Require Import gmap strings list fin_maps.
Import ListNotations.

Local Open Scope string_scope.
Local Open Scope Z_scope.

(** ** Python string operations *)

Module PyStr.

(** [str.isspace] on one ASCII character. *)
Definition isspace (c : ascii) : bool :=
  let n := nat_of_ascii c in
  ((9 <=? n)%nat && (n <=? 13)%nat) || ((28 <=? n)%nat && (n <=? 32)%nat).

Fixpoint lstrip (s : string) : string :=
  match s with
  | EmptyString => EmptyString
  | String c s' => if isspace c then lstrip s' else s
  end.

Fixpoint rstrip (s : string) : string :=
  match s with
  | EmptyString => EmptyString
  | String c s' =>
      match rstrip s' with
      | EmptyString => if isspace c then EmptyString else String c EmptyString
      | r => String c r
      end
  end.

(** [s.strip()] *)
Definition strip (s : string) : string := rstrip (lstrip s).

Definition lower_ascii (c : ascii) : ascii :=
  let n := nat_of_ascii c in
  if ((65 <=? n)%nat && (n <=? 90)%nat)%bool then ascii_of_nat (n + 32) else c.

(** [s.lower()] *)
Fixpoint lower (s : string) : string :=
  match s with
  | EmptyString => EmptyString
  | String c s' => String (lower_ascii c) (lower s')
  end.

(** [s.split(sep)] for a one-character separator: never an empty list. *)
Fixpoint split (sep : ascii) (s : string) : list string :=
  match s with
  | EmptyString => [EmptyString]
  | String c s' =>
      if Ascii.eqb c sep then EmptyString :: split sep s'
      else match split sep s' with
           | [] => [String c EmptyString]
           | h :: t => String c h :: t
           end
  end.

(** [s.replace(a, b)] for one-character [a] and [b]. *)
Fixpoint replace (a b : ascii) (s : string) : string :=
  match s with
  | EmptyString => EmptyString
  | String c s' => String (if Ascii.eqb c a then b else c) (replace a b s')
  end.

(** Truth value of a string: [bool(s)]. *)
Definition truthy (s : string) : bool :=
  match s with EmptyString => false | _ => true end.

End PyStr.

(** ** Data model *)

(** A cell of a column that the code converts with [pd.to_numeric]. *)
Inductive cell : Type :=
| CNum (q : Q)
| CText (s : string)
| CNaN.

Record Project : Type := mkProject {
  ProjectID : string;
  RegionName : option string;          (* None: missing *)
  Req : option string;                 (* None: missing *)
  ProjectOrder : cell;
  ProjectExcellenceScore : cell;
  MarketingSize : cell;
  AdsDistributed : cell;
  UnitTypesInProject : option string   (* None: missing *)
}.

Record DataFrame : Type := mkDataFrame {
  columns : list string;
  rows : list Project
}.

Record LogEntry : Type := mkLogEntry {
  DistributionID : string;
  EmployeeID : string;
  LogProjectID : string;
  LogRegionName : string;
  UnitTypeName : string;
  AdsAllocated : Z;
  DistributionDate : string
}.

(** What [st.error] and [st.warning] are called with. *)
Inductive Notice : Type :=
| MissingColumns (cols : list string)
| NoActiveProjects (region : string)
| NoPositiveScore (region : string)
| NoUnitTypesListed (project_id : string)
| NoValidUnitTypes (project_id : string).

(** [datetime.now()]: the formatted date taken once per call, and the
    timestamp read when the n-th log entry is built. *)
Record Clock : Type := mkClock {
  current_date : string;
  timestamp : nat -> string
}.

(** The returned triple, with the notices raised on the way. *)
Record Outcome : Type := mkOutcome {
  distribution_log : list LogEntry;
  project_ads_update : gmap string Z;
  total_ads_allocated : Z;
  notices : list Notice
}.

(** ** The pandas interface

    The code calls [sort_values(by=..., ascending=False)] and leaves the
    sorting algorithm at the default of pandas, for which the rows come out
    in descending order of their keys and nothing is promised about rows
    with equal keys.  The interface fixes the first and leaves the second
    to the implementation. *)

(** Row [a] comes before row [b] in [order]. *)
Definition ranked_before (order : list nat) (a b : nat) : Prop :=
  exists i j : nat, (i < j)%nat /\ order !! i = Some a /\ order !! j = Some b.

Class Pandas : Type := mkPandas {
  (** [pd.to_numeric(_, errors='coerce')] on a text: the number read, or
      [None] for NaN. *)
  to_numeric_text : string -> option Q;
  (** [sort_values(by=keys, ascending=False).index]: the positions of the
      rows in descending order of their keys. *)
  argsort_desc : list Q -> list nat;
  argsort_desc_perm : forall keys : list Q,
      Permutation (argsort_desc keys) (seq 0 (length keys));
  argsort_desc_sorted : forall (keys : list Q) (a b : nat) (ka kb : Q),
      ranked_before (argsort_desc keys) a b ->
      keys !! a = Some ka -> keys !! b = Some kb -> (kb <= ka)%Q
}.

(** ** Series helpers *)

Definition Qsum (l : list Q) : Q := fold_right Qplus 0%Q l.

Definition Zsum (l : list Z) : Z := fold_right Z.add 0 l.

(** [Series.max()]: [None] stands for NaN (empty series). *)
Definition series_max (l : list Q) : option Q :=
  match l with
  | [] => None
  | x :: xs => Some (fold_left (fun m y => if Qle_bool m y then y else m) xs x)
  end.

(** [Series.clip(lower=lo)] on one value. *)
Definition clip_lower (lo x : Q) : Q := if Qle_bool lo x then x else lo.

(** [enumerate(l)] *)
Definition enumerate {A : Type} (l : list A) : list (nat * A) :=
  combine (seq 0 (length l)) l.

(** ** The function *)

Section Distribution.

Context {pandas : Pandas}.

Definition required_cols : list string :=
  ["ProjectID"; "RegionName"; "Req"; "ProjectOrder"; "ProjectExcellenceScore";
   "MarketingSize"; "AdsDistributed"; "UnitTypesInProject"].

Definition has_required_cols (projects_df : DataFrame) : bool :=
  forallb (fun col => bool_decide (col ∈ columns projects_df)) required_cols.

(** The columns named in the error message (a set in the source: their
    order is not fixed there). *)
Definition missing_cols (projects_df : DataFrame) : list string :=
  List.filter (fun col => negb (bool_decide (col ∈ columns projects_df)))
              required_cols.

(** [pd.to_numeric(_, errors='coerce')] on one cell.  A text is read as a
    finite number or as NaN: a text that pandas reads as an infinity has no
    counterpart here. *)
Definition to_numeric (c : cell) : cell :=
  match c with
  | CNum q => CNum q
  | CText s => match to_numeric_text s with
               | Some q => CNum q
               | None => CNaN
               end
  | CNaN => CNaN
  end.

(** The loop over [numeric_cols], on one row. *)
Definition coerce_numeric_cols (p : Project) : Project :=
  {| ProjectID := ProjectID p;
     RegionName := RegionName p;
     Req := Req p;
     ProjectOrder := to_numeric (ProjectOrder p);
     ProjectExcellenceScore := to_numeric (ProjectExcellenceScore p);
     MarketingSize := to_numeric (MarketingSize p);
     AdsDistributed := to_numeric (AdsDistributed p);
     UnitTypesInProject := UnitTypesInProject p |}.

(** [projects_df[col] = pd.to_numeric(projects_df[col], ...)] for the four
    numeric columns: an assignment into the caller's frame. *)
Definition coerce_frame (projects_df : DataFrame) : DataFrame :=
  {| columns := columns projects_df;
     rows := map coerce_numeric_cols (rows projects_df) |}.

(** [.astype(str)] on a text column: a missing value prints as nan. *)
Definition astype_str (o : option string) : string :=
  match o with Some s => s | None => "nan" end.

Definition in_region (selected_region : string) (p : Project) : bool :=
  match RegionName p with
  | Some r => String.eqb (PyStr.lower (PyStr.strip r))
                         (PyStr.lower (PyStr.strip selected_region))
  | None => false
  end.

Definition requires_marketing (p : Project) : bool :=
  String.eqb (PyStr.lower (PyStr.strip (astype_str (Req p)))) "yes".

(** The filtered copy. *)
Definition region_projects (projects_df : DataFrame) (selected_region : string)
  : list Project :=
  List.filter (fun p => in_region selected_region p && requires_marketing p)
              (rows projects_df).

(** [fillna(0)] on a converted cell. *)
Definition fillna0 (c : cell) : Q :=
  match c with CNum q => q | _ => 0%Q end.

Definition max_order (rp : list Project) : Q :=
  match series_max (map (fun p => fillna0 (ProjectOrder p)) rp) with
  | Some m => m
  | None => 0%Q
  end.

Definition PriorityScore (mo : Q) (p : Project) : Q :=
  (mo - fillna0 (ProjectOrder p) + 1)%Q.

Definition DemandScore (p : Project) : Q := 5%Q.

Definition ExcellenceScoreCalc (p : Project) : Q :=
  (fillna0 (ProjectExcellenceScore p) / 10)%Q.

Definition RemainingSizeScore (p : Project) : Q :=
  clip_lower 0 (fillna0 (MarketingSize p) - fillna0 (AdsDistributed p))%Q.

Definition TotalScore (mo : Q) (p : Project) : Q :=
  clip_lower 0 (PriorityScore mo p + DemandScore p + ExcellenceScoreCalc p
                + RemainingSizeScore p)%Q.

(** *** Project pass *)

Definition Proportion (total_importance_score w : Q) : Q :=
  (w / total_importance_score)%Q.

Definition CalculatedAds (total_importance_score : Q) (num_ads : Z) (w : Q) : Q :=
  (Proportion total_importance_score w * inject_Z num_ads)%Q.

Definition RemainderPriority (calculated : Q) (allocated : Z) : Q :=
  (calculated - inject_Z allocated)%Q.

(** [region_projects.loc[idx, "AllocatedAdsProject"] += 1] *)
Definition add_one (allocated : list Z) (idx : nat) : list Z :=
  alter Z.succ idx allocated.

(** The awards of the project pass, from the column of total scores, in
    exact arithmetic; [Float64.project_pass] is the same pass in machine
    arithmetic. *)
Definition AllocatedAdsProject (scores : list Q) (num_ads_to_distribute : Z)
  : list Z :=
  let total_importance_score := Qsum scores in
  let calculated :=
    map (CalculatedAds total_importance_score num_ads_to_distribute) scores in
  let allocated := map Qfloor calculated in
  let allocated_so_far := Zsum allocated in
  let remainder_ads := num_ads_to_distribute - allocated_so_far in
  let priority := zip_with RemainderPriority calculated allocated in
  let sorted_indices := argsort_desc priority in
  let rounds := Z.to_nat (Z.min remainder_ads (Z.of_nat (length scores))) in
  fold_left add_one (take rounds sorted_indices) allocated.

(** *** Unit-type pass *)

(** [[ut.strip() for ut in s.split(',') if ut.strip()]] *)
Definition parse_unit_types (unit_types_str : string) : list string :=
  map PyStr.strip
      (List.filter (fun ut => PyStr.truthy (PyStr.strip ut))
                   (PyStr.split "," unit_types_str)).

Definition ads_for_this_unit (ads_for_project : Z) (num_unit_types i : nat) : Z :=
  let ads_per_unit_type := ads_for_project / Z.of_nat num_unit_types in
  let remainder_unit_ads := ads_for_project mod Z.of_nat num_unit_types in
  if Z.of_nat i <? remainder_unit_ads then ads_per_unit_type + 1
  else ads_per_unit_type.

Definition log_entry (clock : Clock) (selected_region employee_id project_id
                      unit_type_name : string) (ads : Z) (n : nat) : LogEntry :=
  {| DistributionID :=
       ("dist_" ++ employee_id ++ "_" ++ project_id ++ "_"
                ++ PyStr.replace " " "_" unit_type_name ++ "_" ++ timestamp clock n)%string;
     EmployeeID := employee_id;
     LogProjectID := project_id;
     LogRegionName := selected_region;
     UnitTypeName := unit_type_name;
     AdsAllocated := ads;
     DistributionDate := current_date clock |}.

(** The inner loop over [enumerate(unit_types)]. *)
Definition unit_type_entries (clock : Clock)
           (selected_region employee_id project_id : string)
           (ads_for_project : Z) (unit_types : list string)
           (entries : list LogEntry) : list LogEntry :=
  fold_left
    (fun entries '(i, unit_type_name) =>
       let ads := ads_for_this_unit ads_for_project (length unit_types) i in
       if 0 <? ads
       then (entries ++ [log_entry clock selected_region employee_id project_id
                                   unit_type_name ads (length entries)])%list
       else entries)
    (enumerate unit_types) entries.

(** What the loop over the projects carries along. *)
Record Ledger : Type := mkLedger {
  entries : list LogEntry;
  updates : gmap string Z;
  warnings : list Notice
}.

(** One iteration of the loop over [region_projects.iterrows()]. *)
Definition process_project (clock : Clock) (selected_region employee_id : string)
           (st : Ledger) (row : Project * Z) : Ledger :=
  let '(project, ads_for_project) := row in
  let project_id := ProjectID project in
  if ads_for_project <=? 0 then st
  else
    let updates' := <[project_id := ads_for_project]> (updates st) in
    let skipped (w : Notice) :=
      {| entries := entries st; updates := updates';
         warnings := (warnings st ++ [w])%list |} in
    match UnitTypesInProject project with
    | None => skipped (NoUnitTypesListed project_id)
    | Some unit_types_str =>
        if negb (PyStr.truthy (PyStr.strip unit_types_str))
        then skipped (NoUnitTypesListed project_id)
        else
          match parse_unit_types unit_types_str with
          | [] => skipped (NoValidUnitTypes project_id)
          | unit_types =>
              {| entries := unit_type_entries clock selected_region employee_id
                              project_id ads_for_project unit_types (entries st);
                 updates := updates';
                 warnings := warnings st |}
          end
    end.

Definition nothing (projects_df : DataFrame) (w : Notice) : DataFrame * Outcome :=
  (projects_df,
   {| distribution_log := []; project_ads_update := ∅;
      total_ads_allocated := 0; notices := [w] |}).

Definition distribute_ads_automatically (clock : Clock)
           (projects_df : DataFrame) (selected_region : string)
           (num_ads_to_distribute : Z) (employee_id : string)
  : DataFrame * Outcome :=
  if negb (has_required_cols projects_df)
  then nothing projects_df (MissingColumns (missing_cols projects_df))
  else
    let projects_df := coerce_frame projects_df in
    let rp := region_projects projects_df selected_region in
    match rp with
    | [] => nothing projects_df (NoActiveProjects selected_region)
    | _ =>
        let scores := map (TotalScore (max_order rp)) rp in
        let total_importance_score := Qsum scores in
        if Qle_bool total_importance_score 0
        then nothing projects_df (NoPositiveScore selected_region)
        else
          let allocated := AllocatedAdsProject scores num_ads_to_distribute in
          let st :=
            fold_left (process_project clock selected_region employee_id)
                      (zip rp allocated)
                      {| entries := []; updates := ∅; warnings := [] |} in
          (projects_df,
           {| distribution_log := entries st;
              project_ads_update := updates st;
              total_ads_allocated := Zsum allocated;
              notices := warnings st |})
    end.

End Distribution.

(** ** The columns and quantities the properties speak about *)

Section Derived.

Context {pandas : Pandas}.

(** The eligible projects: the filtered copy of the converted frame. *)
Definition eligible (projects_df : DataFrame) (selected_region : string) : list Project :=
  region_projects (coerce_frame projects_df) selected_region.

(** Column [TotalScore] of the eligible projects. *)
Definition total_scores (projects_df : DataFrame) (selected_region : string) : list Q :=
  let rp := eligible projects_df selected_region in
  map (TotalScore (max_order rp)) rp.

(** Column [AllocatedAdsProject] after the remainder loop. *)
Definition awards (projects_df : DataFrame) (selected_region : string)
           (num_ads_to_distribute : Z) : list Z :=
  AllocatedAdsProject (total_scores projects_df selected_region) num_ads_to_distribute.

(** The path on which ads are allocated. *)
Definition allocates (projects_df : DataFrame) (selected_region : string) : Prop :=
  has_required_cols projects_df = true /\
  eligible projects_df selected_region <> [] /\
  (0 < Qsum (total_scores projects_df selected_region))%Q.

Definition allocatesb (projects_df : DataFrame) (selected_region : string) : bool :=
  has_required_cols projects_df
  && match eligible projects_df selected_region with [] => false | _ => true end
  && negb (Qle_bool (Qsum (total_scores projects_df selected_region)) 0).

(** The eligible projects with their awards; no rows on the paths that
    return early. *)
Definition awarded_rows (projects_df : DataFrame) (selected_region : string) (n : Z)
  : list (Project * Z) :=
  if allocatesb projects_df selected_region
  then zip (eligible projects_df selected_region) (awards projects_df selected_region n)
  else [].

(** The frame the call leaves behind. *)
Definition frame_after (projects_df : DataFrame) : DataFrame :=
  if has_required_cols projects_df then coerce_frame projects_df else projects_df.

(** The series of floors and what is left to hand out. *)
Definition floors (scores : list Q) (n : Z) : list Z :=
  map Qfloor (map (CalculatedAds (Qsum scores) n) scores).

Definition remainder_ads (scores : list Q) (n : Z) : Z := n - Zsum (floors scores n).

(** Column [CalculatedAds]. *)
Definition calculated (scores : list Q) (n : Z) : list Q :=
  map (CalculatedAds (Qsum scores) n) scores.

(** Column [RemainderPriority]: the fractional parts. *)
Definition priority (scores : list Q) (n : Z) : list Q :=
  zip_with RemainderPriority (calculated scores n) (floors scores n).

(** The number of iterations of the remainder loop. *)
Definition rounds (scores : list Q) (n : Z) : nat :=
  Z.to_nat (Z.min (remainder_ads scores n) (Z.of_nat (length scores))).


End Derived.

(** A [sort_values] is stable when rows with equal keys come out in their
    input order. *)
Definition keeps_input_order (pandas : Pandas) : Prop :=
  forall (keys : list Q) (a b : nat) (ka kb : Q),
    (a < b)%nat -> keys !! a = Some ka -> keys !! b = Some kb -> (ka == kb)%Q ->
    ranked_before (argsort_desc keys) a b.

(** The sub-awards of a project with award [a] over [k] unit types, in the
    order the unit types are listed. *)
Definition sub_awards (a : Z) (k : nat) : list Z :=
  map (ads_for_this_unit a k) (seq 0 k).

(** The unit types the loop body finds for a project: none when the cell is
    missing, blank, or holds only separators and blanks. *)
Definition unit_types_of (p : Project) : list string :=
  match UnitTypesInProject p with
  | None => []
  | Some s => if negb (PyStr.truthy (PyStr.strip s)) then [] else parse_unit_types s
  end.

(** The amounts a row of the project pass adds to the log. *)
Definition logged_amounts (row : Project * Z) : list Z :=
  if snd row <=? 0 then []
  else List.filter (Z.ltb 0) (sub_awards (snd row) (length (unit_types_of (fst row)))).

(** A row of the project pass whose award never reaches the log. *)
Definition unlogged (row : Project * Z) : bool :=
  (0 <? snd row) && match unit_types_of (fst row) with [] => true | _ => false end.

(** What a row of the project pass does to the update map. *)
Definition record_update (m : gmap string Z) (row : Project * Z) : gmap string Z :=
  if snd row <=? 0 then m else <[ProjectID (fst row) := snd row]> m.

Definition map_sum (m : gmap string Z) : Z := map_fold (fun _ v acc => v + acc) 0 m.

(** ** Functions for an implementation of the pandas interface

    A reader of plain decimal literals, and sorting by insertion, which
    keeps equal keys in their input order.  The reader serves the sample
    sheets: it knows an optional sign, digits and a decimal point, and
    reads no exponent and no text for an infinity. *)

Module Impl.

Definition digit_of (c : ascii) : option Z :=
  let n := nat_of_ascii c in
  if ((48 <=? n)%nat && (n <=? 57)%nat)%bool then Some (Z.of_nat (n - 48)) else None.

(** Reads a run of digits: the value so far and the power of ten of the
    number of digits read. *)
Fixpoint digits (s : string) (acc : Z * positive) : (Z * positive) * string :=
  match s with
  | EmptyString => (acc, s)
  | String c s' =>
      match digit_of c with
      | Some d => digits s' (10 * fst acc + d, (10 * snd acc)%positive)
      | None => (acc, s)
      end
  end.

Definition unsigned_decimal (s : string) : option Q :=
  let '((n, pn), rest) := digits s (0, 1%positive) in
  match rest with
  | EmptyString => if Pos.eqb pn 1 then None else Some (inject_Z n)
  | String c rest' =>
      if Ascii.eqb c "." then
        let '((f, pf), rest'') := digits rest' (0, 1%positive) in
        match rest'' with
        | EmptyString =>
            if (Pos.eqb pn 1 && Pos.eqb pf 1)%bool then None
            else Some (Qred (inject_Z n + (f # pf))%Q)
        | _ => None
        end
      else None
  end.

Definition decimal (s : string) : option Q :=
  match PyStr.strip s with
  | String c s' =>
      if Ascii.eqb c "-" then Qopp <$> unsigned_decimal s'
      else if Ascii.eqb c "+" then unsigned_decimal s'
      else unsigned_decimal (String c s')
  | EmptyString => None
  end.

Definition key (keys : list Q) (i : nat) : Q := default 0%Q (keys !! i).

(** Insertion of position [i] in front of the first position [j] with
    [before (key i) (key j)]. *)
Fixpoint insert_by (before : Q -> Q -> bool) (keys : list Q) (i : nat)
         (sorted : list nat) : list nat :=
  match sorted with
  | [] => [i]
  | j :: rest =>
      if before (key keys i) (key keys j) then i :: sorted
      else j :: insert_by before keys i rest
  end.

Definition argsort_by (before : Q -> Q -> bool) (keys : list Q) : list nat :=
  fold_right (insert_by before keys) [] (seq 0 (length keys)).

(** Equal keys keep their input order. *)
Definition first_seen_first (ki kj : Q) : bool := Qle_bool kj ki.

Definition desc (keys : list Q) (a b : nat) : Prop := (key keys b <= key keys a)%Q.

End Impl.

(** ** A sample snapshot: the four projects of the module's own example *)

Module Sample.

Definition clock : Clock :=
  {| current_date := "2024-01-01 00:00:00"; timestamp := fun _ => "1704067200.0" |}.

Definition num (z : Z) : cell := CNum (inject_Z z).

Definition cols : list string :=
  ["ProjectID"; "ProjectName"; "DeveloperID"; "RegionName"; "UnitTypesInProject";
   "ProjectOrder"; "Req"; "ProjectExcellenceScore"; "MarketingSize"; "AdsDistributed"].

Definition P1 : Project :=
  mkProject "P1" (Some "North") (Some "Yes") (num 1) (num 80) (num 100) (num 20)
            (Some "Apt, Studio").
Definition P2 : Project :=
  mkProject "P2" (Some "North") (Some "Yes") (num 2) (num 95) (num 150) (num 30)
            (Some "Villa, Apt").
Definition P3 : Project :=
  mkProject "P3" (Some "South") (Some "Yes") (num 1) (num 70) (num 80) (num 10)
            (Some "Townhouse").
Definition P4 : Project :=
  mkProject "P4" (Some "North") (Some "No") (num 3) (num 90) (num 50) (num 5)
            (Some "Studio").

Definition projects_df : DataFrame := {| columns := cols; rows := [P1; P2; P3; P4] |}.

(** The same sheet without its [Req] column. *)
Definition without_req : DataFrame :=
  {| columns := List.filter (fun c => negb (String.eqb c "Req")) cols;
     rows := [P1; P2; P3; P4] |}.

(** [P2] with a cell of unit types that holds separators and blanks only. *)
Definition P2_blank : Project :=
  mkProject "P2" (Some "North") (Some "Yes") (num 2) (num 95) (num 150) (num 30)
            (Some " , ,").

Definition with_blank_units : DataFrame :=
  {| columns := cols; rows := [P1; P2_blank; P3; P4] |}.

(** Three projects with total scores 18, 18 and 6. *)
Definition A1 : Project :=
  mkProject "A1" (Some "North") (Some "Yes") (num 1) (num 0) (num 12) (num 0)
            (Some "Apt").
Definition A2 : Project :=
  mkProject "A2" (Some "North") (Some "Yes") (num 1) (num 0) (num 12) (num 0)
            (Some "Apt").
Definition A3 : Project :=
  mkProject "A3" (Some "North") (Some "Yes") (num 1) (num 0) (num 0) (num 0)
            (Some "Apt").

Definition three_projects : DataFrame := {| columns := cols; rows := [A1; A2; A3] |}.

(** Two projects with the same total score. *)
Definition two_alike : DataFrame := {| columns := cols; rows := [A1; A2] |}.

(** One project with three unit types. *)
Definition S1 : Project :=
  mkProject "S1" (Some " north ") (Some " YES") (num 1) (num 80) (num 100) (num 20)
            (Some "Apt, Studio ,Villa").

Definition single_project : DataFrame := {| columns := cols; rows := [S1; P3] |}.



(** [P1] with its rating left blank in the sheet: the cell holds the empty
    text. *)
Definition P1_unrated : Project :=
  mkProject "P1" (Some "North") (Some "Yes") (num 1) (CText "") (num 100) (num 20)
            (Some "Apt, Studio").

Definition with_blank_rating : DataFrame :=
  {| columns := cols; rows := [P1_unrated; P2; P3; P4] |}.

(** Two projects with total scores 19.2 and 6.4: of 34 ads their exact
    shares are 25.5 and 8.5. *)
Definition T1 : Project :=
  mkProject "T1" (Some "North") (Some "Yes") (num 1) (num 2) (num 13) (num 0)
            (Some "Apt").
Definition T2 : Project :=
  mkProject "T2" (Some "North") (Some "Yes") (num 1) (num 4) (num 0) (num 0)
            (Some "Apt").

Definition equal_fractions : DataFrame := {| columns := cols; rows := [T1; T2] |}.

(** Two projects with total scores 51.7 and 22.4. *)
Definition H1 : Project :=
  mkProject "H1" (Some "North") (Some "Yes") (num 1) (num 77) (num 38) (num 0)
            (Some "Apt").
Definition H2 : Project :=
  mkProject "H2" (Some "North") (Some "Yes") (num 1) (num 14) (num 15) (num 0)
            (Some "Apt").

Definition two_projects : DataFrame := {| columns := cols; rows := [H1; H2] |}.



End Sample.

(** ** More of the distribution function *)

(** [", ".join(names)]: how the sheet lists the unit types of a project. *)
Fixpoint join_names (names : list string) : string :=
  match names with
  | [] => ""
  | [name] => name
  | name :: rest => (name ++ ", " ++ join_names rest)%string
  end.

(** [c in s] for a character. *)
Fixpoint contains (c : ascii) (s : string) : bool :=
  match s with
  | EmptyString => false
  | String c' s' => Ascii.eqb c' c || contains c s'
  end.

(** A unit-type name as the parser returns it: not empty, no blank at
    either end, no comma. *)
Definition clean_name (s : string) : Prop :=
  PyStr.truthy s = true /\ PyStr.strip s = s /\ contains "," s = false.

(** The warning the loop body raises for a project it leaves without log
    rows. *)
Definition notice_for (p : Project) : Notice :=
  match UnitTypesInProject p with
  | None => NoUnitTypesListed (ProjectID p)
  | Some s =>
      if negb (PyStr.truthy (PyStr.strip s)) then NoUnitTypesListed (ProjectID p)
      else NoValidUnitTypes (ProjectID p)
  end.

(** A string that does not start with a blank. *)
Definition no_leading_blank (s : string) : Prop :=
  match s with
  | EmptyString => True
  | String c _ => PyStr.isspace c = false
  end.

(** What every row written by one call has in common. *)
Definition row_of_call (clock : Clock) (selected_region employee_id : string)
           (e : LogEntry) : Prop :=
  EmployeeID e = employee_id
  /\ LogRegionName e = selected_region
  /\ DistributionDate e = current_date clock.

(** ** The caller: the distribution handler of app.py

    The page reads the balances, checks the request, calls the distribution
    on a copy of the projects and asks the sheet module for four updates.
    The sheet module is not part of the sources: whether an update succeeds
    is a parameter.  A number read with [pd.to_numeric] is a rational or
    NaN ([None]); comparisons with NaN are false, as in Python. *)

Definition number : Type := option Q.

(** [x < n] for a number and an integer; also [n > x]. *)
Definition less_than_int (x : number) (n : Z) : bool :=
  match x with
  | Some q => negb (Qle_bool (inject_Z n) q)
  | None => false
  end.

(** [a < b] *)
Definition less_than (a b : number) : bool :=
  match a, b with
  | Some x, Some y => negb (Qle_bool y x)
  | _, _ => false
  end.

(** [min(a, b)]: the second argument when it is smaller, else the first. *)
Definition py_min (a b : number) : number := if less_than b a then b else a.

(** [x > 0] *)
Definition positive (x : number) : bool := less_than (Some 0%Q) x.

(** An update the page asks the sheet module for. *)
Inductive SheetCall : Type :=
| AppendLog (log : list LogEntry)
| UpdateEmployeeBalances (updates : gmap string Z)
| UpdateProjectAds (updates : gmap string Z)
| UpdateGlobalBudget (amount : Z).

(** What the page shows. *)
Inductive Message : Type :=
| PleaseSelect
| MustBePositive
| InsufficientBalance (balance : number) (requested : Z)
| GlobalAlsoInsufficient (balance : number) (requested : Z)
| Suggestion (amount : number)
| FromDistribution (n : Notice)
| Calculated (total : Z)
| Attempting
| UpdateFailed (call : SheetCall)
| SheetsUpdated
| SomeUpdateFailed
| ZeroAllocated
| NothingDistributed.

Record Summary : Type := mkSummary {
  summary_employee : string;
  summary_region : string;
  requested_ads : Z;
  allocated_ads : Z;
  project_updates : gmap string Z;
  summary_log : list LogEntry
}.

(** The part of [st.session_state] the handler reads and writes. *)
Record Session : Type := mkSession {
  data_loaded : bool;
  projects : DataFrame;
  last_distribution_log : list LogEntry;
  distribution_summary : option Summary
}.

Record Handled : Type := mkHandled {
  shown : list Message;
  calls : list SheetCall;
  session : Session;
  rerun : bool
}.

Section App.

Context {pandas : Pandas}.

(** [pd.to_numeric(x, errors='coerce')] on one value. *)
Definition scalar_to_numeric (c : cell) : number :=
  match to_numeric c with
  | CNum q => Some q
  | _ => None
  end.

(** [current_global_balance]: the first cell of column [GlobalAdsBalance],
    or 0 when the frame is empty or lacks the column. *)
Definition read_global_balance (first_cell : option cell) : number :=
  match first_cell with
  | Some c => scalar_to_numeric c
  | None => Some 0%Q
  end.


(** The sheet updates asked for after a distribution that allocated. *)
Definition sheet_calls (selected_employee_id : string) (out : Outcome) : list SheetCall :=
  ((if bool_decide (distribution_log out = []) then []
    else [AppendLog (distribution_log out)])
   ++ [UpdateEmployeeBalances {[ selected_employee_id := total_ads_allocated out ]}]
   ++ (if bool_decide (project_ads_update out = ∅) then []
       else [UpdateProjectAds (project_ads_update out)])
   ++ [UpdateGlobalBudget (total_ads_allocated out)])%list.

(** The request passes the three checks of the handler. *)
Definition accepted (selected_employee_id selected_region : string)
           (num_ads_to_distribute : Z) (current_balance : number) : bool :=
  PyStr.truthy selected_employee_id && PyStr.truthy selected_region
  && (0 <? num_ads_to_distribute)
  && negb (less_than_int current_balance num_ads_to_distribute).

(** The body of [if st.button("Distribute Ads Automatically")]. *)
Definition on_distribute (gs : SheetCall -> bool) (clock : Clock) (st : Session)
           (employee_name selected_employee_id selected_region : string)
           (num_ads_to_distribute : Z)
           (current_balance current_global_balance : number) : Handled :=
  let rejected (messages : list Message) :=
    {| shown := messages; calls := []; session := st; rerun := false |} in
  if negb (PyStr.truthy selected_employee_id) || negb (PyStr.truthy selected_region)
  then rejected [PleaseSelect]
  else if num_ads_to_distribute <=? 0
  then rejected [MustBePositive]
  else if less_than_int current_balance num_ads_to_distribute
  then
    let suggested_ads := py_min current_balance current_global_balance in
    rejected
      ([InsufficientBalance current_balance num_ads_to_distribute]
       ++ (if less_than_int current_global_balance num_ads_to_distribute
           then [GlobalAlsoInsufficient current_global_balance num_ads_to_distribute]
           else [])
       ++ (if positive suggested_ads then [Suggestion suggested_ads] else []))%list
  else
    let out :=
      snd (distribute_ads_automatically clock (projects st) selected_region
                                        num_ads_to_distribute selected_employee_id) in
    let total_allocated := total_ads_allocated out in
    let st' (loaded : bool) :=
      {| data_loaded := loaded;
         projects := projects st;
         last_distribution_log := distribution_log out;
         distribution_summary :=
           Some {| summary_employee := employee_name;
                   summary_region := selected_region;
                   requested_ads := num_ads_to_distribute;
                   allocated_ads := total_allocated;
                   project_updates := project_ads_update out;
                   summary_log := distribution_log out |} |} in
    let warned := map FromDistribution (notices out) in
    if 0 <? total_allocated then
      let asked := sheet_calls selected_employee_id out in
      let failed := List.filter (fun call => negb (gs call)) asked in
      let update_success := forallb gs asked in
      {| shown := (warned ++ [Calculated total_allocated; Attempting]
                   ++ map UpdateFailed failed
                   ++ [if update_success then SheetsUpdated else SomeUpdateFailed])%list;
         calls := asked;
         session := st' (if update_success then false else data_loaded st);
         rerun := update_success |}
    else if negb (bool_decide (distribution_log out = []))
    then {| shown := (warned ++ [ZeroAllocated])%list; calls := [];
            session := st' (data_loaded st); rerun := false |}
    else {| shown := (warned ++ [NothingDistributed])%list; calls := [];
            session := st' (data_loaded st); rerun := false |}.

End App.

(** The two filters of the report section. *)
Definition report_filter (ads_log_df : list LogEntry)
           (report_employee_id report_region : string) : list LogEntry :=
  let filtered_log :=
    if negb (String.eqb report_employee_id "All")
    then List.filter (fun e => String.eqb (EmployeeID e) report_employee_id) ads_log_df
    else ads_log_df in
  if negb (String.eqb report_region "All")
  then List.filter (fun e => String.eqb (LogRegionName e) report_region) filtered_log
  else filtered_log.

(** ** A page to run the handler on *)

Module Page.

(** A region whose only active project lists no unit type. *)
Definition blank_only : DataFrame :=
  {| columns := Sample.cols; rows := [Sample.P2_blank; Sample.P3] |}.

Definition session (projects_df : DataFrame) : Session :=
  {| data_loaded := true; projects := projects_df;
     last_distribution_log := []; distribution_summary := None |}.

(** Every sheet update succeeds. *)
Definition sheets_ok (call : SheetCall) : bool := true.

End Page.

(** ** The project pass in 64-bit arithmetic

    The source computes the scores and the shares in float64 and the awards
    in int64.  The definitions above read these as exact rationals and
    unbounded integers; the module below follows the machine arithmetic.

    A float64 is a finite number (held as the rational it denotes), an
    infinity or NaN; zero carries no sign.  Every operation returns the
    exact result rounded to the nearest float64, ties to even, as IEEE 754
    prescribes (53 bits of precision, exponents from -1074 to 971, overflow
    to infinity).  A numeric cell is read as the float64 nearest to it; a
    column that pandas holds as int64 gives the same scores as long as its
    values stay below 2^53.  A run of the pass ends with its columns, or
    raises (pandas refuses to cast a share that is not finite to an
    integer), or leaves the range of int64, where numpy goes on with a
    wrapped value that is not followed here. *)

Module Float64.

Inductive float : Type :=
| Finite (value : Q)
| Infinity (negative : bool)
| NaN.

Definition pow2 (e : Z) : Q := Qpower 2 e.

(** The largest [e] with [2^e <= x], for [x > 0]. *)
Definition ilog2 (x : Q) : Z :=
  let e := Z.log2 (Qnum x) - Z.log2 (Zpos (Qden x)) in
  if Qle_bool (pow2 e) x then e else e - 1.

(** The nearest integer, ties to the even one. *)
Definition rne (y : Q) : Z :=
  let f := Qfloor y in
  match (y - inject_Z f ?= 1 # 2)%Q with
  | Lt => f
  | Gt => f + 1
  | Eq => if Z.even f then f else f + 1
  end.

(** The exponent of the last bit of the float64 nearest [a > 0]. *)
Definition exponent (a : Q) : Z := Z.max (ilog2 a - 52) (-1074).

Definition round_pos (a : Q) : Q :=
  let e := exponent a in
  (inject_Z (rne (a / pow2 e)) * pow2 e)%Q.

(** The float64 nearest [x]. *)
Definition round (x : Q) : float :=
  match (x ?= 0)%Q with
  | Eq => Finite 0
  | Gt => let v := round_pos x in
          if Qle_bool (pow2 1024) v then Infinity false else Finite v
  | Lt => let v := round_pos (- x) in
          if Qle_bool (pow2 1024) v then Infinity true else Finite (- v)
  end.

(** An integer used where a float64 is expected. *)
Definition of_int (z : Z) : float := round (inject_Z z).

Definition opp (x : float) : float :=
  match x with
  | Finite a => Finite (- a)
  | Infinity s => Infinity (negb s)
  | NaN => NaN
  end.

Definition add (x y : float) : float :=
  match x, y with
  | Finite a, Finite b => round (a + b)
  | NaN, _ | _, NaN => NaN
  | Infinity s, Infinity t => if Bool.eqb s t then Infinity s else NaN
  | Infinity s, Finite _ | Finite _, Infinity s => Infinity s
  end.

Definition sub (x y : float) : float := add x (opp y).

Definition mul (x y : float) : float :=
  match x, y with
  | Finite a, Finite b => round (a * b)
  | NaN, _ | _, NaN => NaN
  | Infinity s, Infinity t => Infinity (xorb s t)
  | Infinity s, Finite b | Finite b, Infinity s =>
      match (b ?= 0)%Q with
      | Eq => NaN
      | Gt => Infinity s
      | Lt => Infinity (negb s)
      end
  end.

(** Division; a zero divisor is taken as +0. *)
Definition div (x y : float) : float :=
  match x, y with
  | Finite a, Finite b =>
      match (b ?= 0)%Q with
      | Eq => match (a ?= 0)%Q with
              | Eq => NaN
              | Gt => Infinity false
              | Lt => Infinity true
              end
      | _ => round (a / b)
      end
  | NaN, _ | _, NaN => NaN
  | Infinity _, Infinity _ => NaN
  | Infinity s, Finite b => Infinity (if Qle_bool 0 b then s else negb s)
  | Finite _, Infinity _ => Finite 0
  end.

(** [x <= 0]; false for NaN. *)
Definition le0 (x : float) : bool :=
  match x with
  | Finite a => Qle_bool a 0
  | Infinity s => s
  | NaN => false
  end.

(** [x <= y]; false when either is NaN. *)
Definition le (x y : float) : bool :=
  match x, y with
  | NaN, _ | _, NaN => false
  | Finite a, Finite b => Qle_bool a b
  | Infinity s, Infinity t => s || negb t
  | Infinity s, Finite _ => s
  | Finite _, Infinity t => negb t
  end.

(** [Series.clip(lower=0)] on one value: NaN stays NaN. *)
Definition clip0 (x : float) : float :=
  match x with
  | Finite a => if Qle_bool 0 a then x else Finite 0
  | Infinity true => Finite 0
  | _ => x
  end.

(** The place of a key in the order of [sort_values]: infinities at the
    ends, NaN behind everything. *)
Definition sort_key (x : float) : Q :=
  match x with
  | Finite a => a
  | Infinity false => pow2 1024
  | Infinity true => (- pow2 1024)%Q
  | NaN => (- pow2 1025)%Q
  end.

(** *** Sums

    [Series.sum()] skips NaN and adds the rest with numpy's pairwise
    summation: fewer than eight values one after the other; up to 128 values
    in eight running sums; more than that in two halves. *)

Definition skipna (x : float) : float :=
  match x with NaN => Finite 0 | _ => x end.

Fixpoint add_blocks (r : list float) (a : list float) (blocks : nat)
  : list float * list float :=
  match blocks with
  | O => (r, a)
  | S blocks => add_blocks (zip_with add r (take 8 a)) (drop 8 a) blocks
  end.

Definition sum_unrolled (a : list float) : float :=
  let '(r, rest) := add_blocks (take 8 a) (drop 8 a) (length a / 8 - 1) in
  let r' (i : nat) := nth i r NaN in
  let res := add (add (add (r' 0%nat) (r' 1%nat)) (add (r' 2%nat) (r' 3%nat)))
                 (add (add (r' 4%nat) (r' 5%nat)) (add (r' 6%nat) (r' 7%nat))) in
  fold_left add rest res.

Fixpoint pairwise_sum (depth : nat) (a : list float) : float :=
  let n := length a in
  if (n <? 8)%nat then fold_left add a (Finite 0)
  else if (n <=? 128)%nat then sum_unrolled a
  else
    match depth with
    | O => sum_unrolled a
    | S depth =>
        let n2 := (n / 2 - (n / 2) mod 8)%nat in
        add (pairwise_sum depth (take n2 a)) (pairwise_sum depth (drop n2 a))
    end.

Definition sum (a : list float) : float :=
  pairwise_sum (length a) (map skipna a).

(** [Series.max()]: NaN for an empty series. *)
Definition max (a : list float) : float :=
  match a with
  | [] => NaN
  | x :: xs => fold_left (fun m y => if le m y then y else m) xs x
  end.

(** *** Integers of 64 bits *)

Inductive Run (A : Type) : Type :=
| Ok (a : A)
| Raises
| Overflows.

Arguments Ok {A} a.
Arguments Raises {A}.
Arguments Overflows {A}.

Definition bind {A B : Type} (r : Run A) (f : A -> Run B) : Run B :=
  match r with
  | Ok a => f a
  | Raises => Raises
  | Overflows => Overflows
  end.

Definition in_int64 (z : Z) : bool := (- 2 ^ 63 <=? z) && (z <? 2 ^ 63).

Definition int64 (z : Z) : Run Z := if in_int64 z then Ok z else Overflows.

Fixpoint traverse {A B : Type} (f : A -> Run B) (l : list A) : Run (list B) :=
  match l with
  | [] => Ok []
  | x :: l => bind (f x) (fun y => bind (traverse f l) (fun ys => Ok (y :: ys)))
  end.

(** [np.floor(x)] followed by [.astype(int)]. *)
Definition floor_astype_int (x : float) : Run Z :=
  match x with
  | Finite a => int64 (Qfloor a)
  | _ => Raises
  end.

(** *** Scores *)

Definition of_cell (c : cell) : float := round (fillna0 c).

Definition max_order (rp : list Project) : float :=
  match max (map (fun p => of_cell (ProjectOrder p)) rp) with
  | NaN => Finite 0
  | m => m
  end.

Definition PriorityScore (mo : float) (p : Project) : float :=
  add (sub mo (of_cell (ProjectOrder p))) (of_int 1).

Definition DemandScore (p : Project) : float := of_int 5.

Definition ExcellenceScoreCalc (p : Project) : float :=
  div (of_cell (ProjectExcellenceScore p)) (of_int 10).

Definition RemainingSizeScore (p : Project) : float :=
  clip0 (sub (of_cell (MarketingSize p)) (of_cell (AdsDistributed p))).

Definition TotalScore (mo : float) (p : Project) : float :=
  clip0 (add (add (add (PriorityScore mo p) (DemandScore p))
                  (ExcellenceScoreCalc p))
             (RemainingSizeScore p)).

(** *** Project pass *)

Definition Proportion (total_importance_score w : float) : float :=
  div w total_importance_score.

Definition CalculatedAds (total_importance_score : float) (num_ads : Z) (w : float)
  : float :=
  mul (Proportion total_importance_score w) (of_int num_ads).

Definition RemainderPriority (calculated : float) (allocated : Z) : float :=
  sub calculated (of_int allocated).

(** The columns of the pass and the total it returns. *)
Record Pass : Type := mkPass {
  calculated : list float;        (* CalculatedAds *)
  floors : list Z;                (* AllocatedAdsProject before the loop *)
  remainder_ads : Z;
  priority : list float;          (* RemainderPriority *)
  sorted_indices : list nat;
  allocated : list Z;             (* AllocatedAdsProject after the loop *)
  total_ads_allocated : Z
}.

Section Pass.

Context {pandas : Pandas}.

Definition project_pass (scores : list float) (num_ads_to_distribute : Z)
  : Run Pass :=
  let total_importance_score := sum scores in
  let calculated :=
    map (CalculatedAds total_importance_score num_ads_to_distribute) scores in
  bind (traverse floor_astype_int calculated) (fun floors =>
  bind (int64 (Zsum floors)) (fun allocated_so_far =>
  bind (int64 num_ads_to_distribute) (fun num =>
  bind (int64 (num - allocated_so_far)) (fun remainder_ads =>
  let priority := zip_with RemainderPriority calculated floors in
  let sorted_indices := argsort_desc (map sort_key priority) in
  let rounds := Z.to_nat (Z.min remainder_ads (Z.of_nat (length scores))) in
  bind (traverse int64 (fold_left add_one (take rounds sorted_indices) floors))
       (fun allocated =>
  bind (int64 (Zsum allocated)) (fun total_ads_allocated =>
  Ok {| calculated := calculated; floors := floors;
        remainder_ads := remainder_ads; priority := priority;
        sorted_indices := sorted_indices; allocated := allocated;
        total_ads_allocated := total_ads_allocated |})))))).

(** Column [TotalScore] of the eligible projects. *)
Definition total_scores (projects_df : DataFrame) (selected_region : string)
  : list float :=
  let rp := eligible projects_df selected_region in
  map (TotalScore (max_order rp)) rp.

(** The path on which ads are allocated. *)
Definition allocates (projects_df : DataFrame) (selected_region : string) : Prop :=
  has_required_cols projects_df = true /\
  eligible projects_df selected_region <> [] /\
  le0 (sum (total_scores projects_df selected_region)) = false.

(** The project pass of a call: lines 94 to 111 on the eligible projects. *)
Definition run (projects_df : DataFrame) (selected_region : string)
           (num_ads_to_distribute : Z) : Run Pass :=
  project_pass (total_scores projects_df selected_region) num_ads_to_distribute.

(** The positions the remainder loop visits. *)
Definition visited (p : Pass) : list nat :=
  take (Z.to_nat (Z.min (remainder_ads p) (Z.of_nat (length (floors p)))))
       (sorted_indices p).

(** The number a finite float64 denotes; 0 for the others. *)
Definition value (x : float) : Q :=
  match x with
  | Finite a => a
  | _ => 0%Q
  end.

(** The columns of a run that ended. *)
Definition columns (r : Run Pass) : Pass :=
  match r with
  | Ok p => p
  | _ => mkPass [] [] 0 [] [] [] 0
  end.

End Pass.

End Float64.

(** ** The same arithmetic on the floats of the kernel

    Rocq's primitive floats are the binary64 numbers of the machine.  The
    expressions of the source, written with them, are a second reading of
    lines 56 to 95 for a sheet of two rows; the properties section compares
    the two readings on the runs it evaluates. *)

Module Kernel.

Import PrimFloat.

(** The value of a primitive float. *)
Definition value (x : PrimFloat.float) : Float64.float :=
  match FloatOps.Prim2SF x with
  | SpecFloat.S754_zero _ => Float64.Finite 0
  | SpecFloat.S754_infinity s => Float64.Infinity s
  | SpecFloat.S754_nan => Float64.NaN
  | SpecFloat.S754_finite s m e =>
      Float64.Finite ((if s then -1 else 1) * inject_Z (Zpos m) * Float64.pow2 e)
  end.

Definition same (x y : Float64.float) : bool :=
  match x, y with
  | Float64.Finite a, Float64.Finite b => Qeq_bool a b
  | Float64.Infinity s, Float64.Infinity t => Bool.eqb s t
  | Float64.NaN, Float64.NaN => true
  | _, _ => false
  end.

Definition of_int (z : Z) : PrimFloat.float := PrimFloat.of_uint63 (Uint63.of_Z z).

(** [TotalScore] of a row whose cells are whole numbers, for [max_order]
    [mo]; the remaining size is taken as it is (it is not negative in the
    rows compared). *)
Definition TotalScore (mo order rating size distributed : Z) : PrimFloat.float :=
  PrimFloat.add
    (PrimFloat.add
       (PrimFloat.add
          (PrimFloat.add (PrimFloat.sub (of_int mo) (of_int order)) (of_int 1))
          (of_int 5))
       (PrimFloat.div (of_int rating) (of_int 10)))
    (PrimFloat.sub (of_int size) (of_int distributed)).

(** Column [CalculatedAds] for two rows. *)
Definition CalculatedAds (w1 w2 : PrimFloat.float) (num_ads : Z)
  : list PrimFloat.float :=
  let total_importance_score := PrimFloat.add (PrimFloat.add (of_int 0) w1) w2 in
  [PrimFloat.mul (PrimFloat.div w1 total_importance_score) (of_int num_ads);
   PrimFloat.mul (PrimFloat.div w2 total_importance_score) (of_int num_ads)].

End Kernel.

(** * Properties *)

(** ** The insertion sorts meet the interface *)

Section InsertionSort.

Variable before : Q -> Q -> bool.
Hypothesis before_true : forall x y, before x y = true -> (y <= x)%Q.
Hypothesis before_false : forall x y, before x y = false -> (x <= y)%Q.

Lemma insert_by_perm keys i l : Permutation (Impl.insert_by before keys i l) (i :: l).
Proof.
  induction l as [|j l IH]; simpl; [reflexivity|].
  destruct (before _ _); [reflexivity|].
  rewrite IH. apply perm_swap.
Qed.

Lemma argsort_by_perm_range keys s m :
  Permutation (fold_right (Impl.insert_by before keys) [] (seq s m)) (seq s m).
Proof.
  induction (seq s m) as [|i l IH]; simpl.
  - reflexivity.
  - rewrite insert_by_perm. now constructor.
Qed.

Lemma argsort_by_perm keys :
  Permutation (Impl.argsort_by before keys) (seq 0 (length keys)).
Proof. apply argsort_by_perm_range. Qed.

Lemma insert_by_sorted keys i l :
  StronglySorted (Impl.desc keys) l ->
  StronglySorted (Impl.desc keys) (Impl.insert_by before keys i l).
Proof.
  induction 1 as [|j l Hs IH Hj]; simpl.
  - repeat constructor.
  - destruct (before _ _) eqn:E.
    + constructor; [now constructor|].
      apply before_true in E. constructor; [exact E|].
      eapply List.Forall_impl; [|exact Hj]. intros b Hb. unfold Impl.desc in *.
      eapply Qle_trans; eauto.
    + constructor; [exact IH|].
      apply before_false in E.
      eapply Permutation_Forall; [symmetry; apply insert_by_perm|].
      constructor; [exact E|exact Hj].
Qed.

Lemma argsort_by_sorted keys : StronglySorted (Impl.desc keys) (Impl.argsort_by before keys).
Proof.
  unfold Impl.argsort_by. induction (seq 0 (length keys)) as [|i l IH]; simpl.
  - constructor.
  - now apply insert_by_sorted.
Qed.

Lemma argsort_by_ranked keys a b ka kb :
  ranked_before (Impl.argsort_by before keys) a b ->
  keys !! a = Some ka -> keys !! b = Some kb -> (kb <= ka)%Q.
Proof.
  intros (i & j & Hij & Hi & Hj) Ha Hb.
  assert (Impl.desc keys a b) as D.
  { generalize (argsort_by_sorted keys). generalize dependent j. revert i Hi.
    induction (Impl.argsort_by before keys) as [|x l IH]; intros i Hi j Hij Hj Hs.
    - discriminate.
    - apply StronglySorted_inv in Hs as [Hs Hx].
      destruct j as [|j]; [lia|]. destruct i as [|i]; simpl in *.
      + injection Hi as ->. rewrite Forall_forall in Hx. apply Hx.
        eapply list_elem_of_lookup_2; eauto.
      + eapply (IH i Hi j); eauto. lia. }
  unfold Impl.desc, Impl.key in D. now rewrite Ha, Hb in D.
Qed.

End InsertionSort.

Lemma first_seen_first_true x y : Impl.first_seen_first x y = true -> (y <= x)%Q.
Proof. unfold Impl.first_seen_first. now rewrite Qle_bool_iff. Qed.

Lemma first_seen_first_false x y : Impl.first_seen_first x y = false -> (x <= y)%Q.
Proof.
  unfold Impl.first_seen_first. intros E. apply Qlt_le_weak, Qnot_le_lt.
  rewrite <- Qle_bool_iff. now rewrite E.
Qed.

(** An implementation with a stable [sort_values]. *)
Definition pandas_stable : Pandas :=
  {| to_numeric_text := Impl.decimal;
     argsort_desc := Impl.argsort_by Impl.first_seen_first;
     argsort_desc_perm := argsort_by_perm Impl.first_seen_first;
     argsort_desc_sorted :=
       argsort_by_ranked Impl.first_seen_first
                         first_seen_first_true first_seen_first_false |}.

(** The module's own example, with a stable sort. *)
Example run_sample :
  let out := snd (distribute_ads_automatically (pandas := pandas_stable)
                    Sample.clock Sample.projects_df "North" 50 "E101") in
  map (fun e => (LogProjectID e, UnitTypeName e, AdsAllocated e)) (distribution_log out)
  = [("P1", "Apt", 11); ("P1", "Studio", 10); ("P2", "Villa", 15); ("P2", "Apt", 14)]
  /\ map_to_list (project_ads_update out) = [("P1", 21); ("P2", 29)]
  /\ total_ads_allocated out = 50.
Proof. vm_compute. auto. Qed.

(** One ad for a single project with three unit types: the first unit type
    receives it and the log has one row. *)
Example run_single_project :
  let out := snd (distribute_ads_automatically (pandas := pandas_stable)
                    Sample.clock Sample.single_project "North" 1 "E101") in
  map (fun e => (LogProjectID e, UnitTypeName e, AdsAllocated e)) (distribution_log out)
  = [("S1", "Apt", 1)]
  /\ map_to_list (project_ads_update out) = [("S1", 1)]
  /\ total_ads_allocated out = 1.
Proof. vm_compute. auto. Qed.

(** A region without a project that requires marketing. *)
Example run_empty_region :
  snd (distribute_ads_automatically (pandas := pandas_stable)
         Sample.clock Sample.projects_df "West" 50 "E101")
  = {| distribution_log := []; project_ads_update := ∅; total_ads_allocated := 0;
       notices := [NoActiveProjects "West"] |}.
Proof. reflexivity. Qed.

(** ** Sums of series *)

Lemma Zsum_cons (x : Z) (l : list Z) : Zsum (x :: l) = x + Zsum l.
Proof. reflexivity. Qed.

Lemma Zsum_app (l1 l2 : list Z) : Zsum (l1 ++ l2) = Zsum l1 + Zsum l2.
Proof. induction l1 as [|x l1 IH]; simpl; lia. Qed.

Lemma Zsum_nonneg (l : list Z) : Forall (fun x => 0 <= x) l -> 0 <= Zsum l.
Proof. induction 1; simpl; lia. Qed.

Lemma Zsum_alter_succ (l : list Z) (idx : nat) :
  (idx < length l)%nat -> Zsum (alter Z.succ idx l) = Zsum l + 1.
Proof.
  revert idx. induction l as [|x l IH]; intros [|idx] Hlt; simpl in *; try lia.
  specialize (IH idx ltac:(lia)).
  change (list_alter Z.succ idx l) with (alter Z.succ idx l). lia.
Qed.

Lemma Qsum_scaled (W : Q) (n : Z) (ws : list Q) :
  ~ (W == 0)%Q ->
  (Qsum (map (fun w => w / W * inject_Z n) ws) == Qsum ws / W * inject_Z n)%Q.
Proof.
  intros HW. induction ws as [|w ws IH]; simpl.
  - field. exact HW.
  - rewrite IH. field. exact HW.
Qed.

(** The floors of a series stay within its length below its sum. *)
Lemma floor_sum_bounds (cs : list Q) :
  (inject_Z (Zsum (map Qfloor cs)) <= Qsum cs)%Q /\
  (Qsum cs <= inject_Z (Zsum (map Qfloor cs) + Z.of_nat (length cs)))%Q /\
  (cs <> [] -> (Qsum cs < inject_Z (Zsum (map Qfloor cs) + Z.of_nat (length cs)))%Q).
Proof.
  induction cs as [|c cs (IH1 & IH2 & IH3)].
  - simpl. split; [|split]; [apply Qle_refl|apply Qle_refl|intros H; now contradiction H].
  - pose proof (Qfloor_le c) as Hlo. pose proof (Qlt_floor c) as Hhi.
    cbn [map Zsum Qsum fold_right length].
    change (fold_right Qplus 0%Q cs) with (Qsum cs).
    change (fold_right Z.add 0 (map Qfloor cs)) with (Zsum (map Qfloor cs)).
    rewrite Nat2Z.inj_succ. unfold Z.succ.
    rewrite !inject_Z_plus in *. change (inject_Z 1) with 1%Q in *.
    split; [|split]; [lra|lra|intros _; lra].
Qed.

(** ** The project pass *)

Section ProjectPass.

Context {pandas : Pandas}.

Lemma length_add_one (l : list Z) (idx : nat) : length (add_one l idx) = length l.
Proof. apply length_alter. Qed.

Lemma length_hand_out (idxs : list nat) (l : list Z) :
  length (fold_left add_one idxs l) = length l.
Proof.
  revert l. induction idxs as [|i idxs IH]; intros l; simpl; [reflexivity|].
  now rewrite IH, length_add_one.
Qed.

Lemma Zsum_hand_out (idxs : list nat) (l : list Z) :
  Forall (fun i => (i < length l)%nat) idxs ->
  Zsum (fold_left add_one idxs l) = Zsum l + Z.of_nat (length idxs).
Proof.
  revert l. induction idxs as [|i idxs IH]; intros l Hall; simpl; [lia|].
  apply Forall_cons in Hall as [Hi Hall].
  rewrite IH.
  - unfold add_one. rewrite Zsum_alter_succ by exact Hi. lia.
  - eapply List.Forall_impl; [|exact Hall]. intros j Hj.
    now rewrite length_add_one.
Qed.

(** After the loop a position holds its floor, plus one if it was visited. *)
Lemma lookup_hand_out (idxs : list nat) (l : list Z) (k : nat) (x : Z) :
  NoDup idxs -> l !! k = Some x ->
  fold_left add_one idxs l !! k = Some (if bool_decide (k ∈ idxs) then x + 1 else x).
Proof.
  revert l x. induction idxs as [|i idxs IH]; intros l x Hnd Hk; simpl.
  - exact Hk.
  - apply NoDup_cons in Hnd as [Hi Hnd].
    destruct (decide (k = i)) as [->|Hne].
    + rewrite (IH _ (Z.succ x) Hnd).
      * rewrite (bool_decide_eq_false_2 _ Hi).
        rewrite bool_decide_eq_true_2 by (apply elem_of_cons; now left).
        f_equal; lia.
      * unfold add_one. now rewrite list_lookup_alter_eq, Hk.
    + rewrite (IH _ x Hnd).
      * destruct (bool_decide (k ∈ idxs)) eqn:E.
        -- apply bool_decide_eq_true in E.
           rewrite bool_decide_eq_true_2; [reflexivity|].
           apply elem_of_cons; now right.
        -- apply bool_decide_eq_false in E.
           rewrite bool_decide_eq_false_2; [reflexivity|].
           apply not_elem_of_cons; now split.
      * unfold add_one. now rewrite list_lookup_alter_ne by congruence.
Qed.

Lemma argsort_desc_bound (keys : list Q) :
  Forall (fun i => (i < length keys)%nat) (argsort_desc keys).
Proof.
  rewrite Forall_forall. intros i Hi.
  apply list_elem_of_In in Hi.
  eapply Permutation_in in Hi; [|apply argsort_desc_perm].
  apply in_seq in Hi. lia.
Qed.

Lemma argsort_desc_NoDup (keys : list Q) : NoDup (argsort_desc keys).
Proof.
  apply NoDup_ListNoDup.
  eapply Permutation_NoDup; [symmetry; apply argsort_desc_perm|].
  apply seq_NoDup.
Qed.

Lemma length_argsort_desc (keys : list Q) : length (argsort_desc keys) = length keys.
Proof.
  rewrite (Permutation_length (argsort_desc_perm keys)). apply length_seq.
Qed.

Lemma Qsum_CalculatedAds (scores : list Q) (n : Z) :
  ~ (Qsum scores == 0)%Q ->
  (Qsum (map (CalculatedAds (Qsum scores) n) scores) == inject_Z n)%Q.
Proof.
  intros HW. unfold CalculatedAds, Proportion.
  rewrite Qsum_scaled by exact HW. field. exact HW.
Qed.

(** Step 3 of the method: the remainder is a count below the number of
    projects. *)
Lemma remainder_ads_range (scores : list Q) (n : Z) :
  ~ (Qsum scores == 0)%Q ->
  0 <= remainder_ads scores n < Z.of_nat (length scores).
Proof.
  intros HW. unfold remainder_ads, floors.
  destruct (floor_sum_bounds (map (CalculatedAds (Qsum scores) n) scores))
    as (Hlo & _ & Hhi).
  rewrite Qsum_CalculatedAds in Hlo by exact HW.
  assert (scores <> []) as Hne by (intros ->; apply HW; reflexivity).
  assert (map (CalculatedAds (Qsum scores) n) scores <> []) as Hne'
      by (destruct scores; [congruence|discriminate]).
  specialize (Hhi Hne'). rewrite Qsum_CalculatedAds in Hhi by exact HW.
  rewrite length_map in Hhi.
  rewrite <- Zle_Qle in Hlo. rewrite <- Zlt_Qlt in Hhi. lia.
Qed.

Lemma AllocatedAdsProject_unfold (scores : list Q) (n : Z) :
  AllocatedAdsProject scores n =
  fold_left add_one
    (take (Z.to_nat (Z.min (remainder_ads scores n) (Z.of_nat (length scores))))
          (argsort_desc (zip_with RemainderPriority
                                  (map (CalculatedAds (Qsum scores) n) scores)
                                  (floors scores n))))
    (floors scores n).
Proof. reflexivity. Qed.

Lemma length_priority (scores : list Q) (n : Z) :
  length (zip_with RemainderPriority
                   (map (CalculatedAds (Qsum scores) n) scores)
                   (floors scores n)) = length scores.
Proof.
  unfold floors. rewrite length_zip_with_l_eq; now rewrite !length_map.
Qed.

Lemma length_AllocatedAdsProject (scores : list Q) (n : Z) :
  length (AllocatedAdsProject scores n) = length scores.
Proof.
  rewrite AllocatedAdsProject_unfold, length_hand_out.
  unfold floors. now rewrite !length_map.
Qed.

(** Conservation of the project pass. *)
Lemma Zsum_AllocatedAdsProject (scores : list Q) (n : Z) :
  ~ (Qsum scores == 0)%Q -> Zsum (AllocatedAdsProject scores n) = n.
Proof.
  intros HW. pose proof (remainder_ads_range scores n HW) as Hr.
  rewrite AllocatedAdsProject_unfold.
  rewrite Z.min_l by lia.
  rewrite Zsum_hand_out.
  - rewrite length_take, length_argsort_desc, length_priority.
    unfold remainder_ads in *. lia.
  - apply Forall_take.
    eapply List.Forall_impl; [|apply argsort_desc_bound].
    intros i Hi. rewrite length_priority in Hi.
    unfold floors. now rewrite !length_map.
Qed.

End ProjectPass.

(** ** The path that allocates *)

Section Columns.

Context {pandas : Pandas}.

Lemma distribute_allocates clock projects_df selected_region n employee_id :
  allocates projects_df selected_region ->
  distribute_ads_automatically clock projects_df selected_region n employee_id =
  let st := fold_left (process_project clock selected_region employee_id)
                      (zip (eligible projects_df selected_region)
                           (awards projects_df selected_region n))
                      {| entries := []; updates := ∅; warnings := [] |} in
  (coerce_frame projects_df,
   {| distribution_log := entries st;
      project_ads_update := updates st;
      total_ads_allocated := Zsum (awards projects_df selected_region n);
      notices := warnings st |}).
Proof.
  intros (Hcols & Hne & Hpos).
  unfold distribute_ads_automatically. rewrite Hcols. cbn [negb].
  unfold awards, total_scores, eligible in *.
  destruct (region_projects (coerce_frame projects_df) selected_region) as [|p rp] eqn:E;
    [congruence|].
  destruct (Qle_bool _ 0) eqn:Hle; [|reflexivity].
  apply Qle_bool_iff in Hle. exfalso. eapply Qlt_not_le; eauto.
Qed.

End Columns.

(** ** The unit-type pass *)

Lemma Zsum_first_get_extra (q r : Z) (k : nat) :
  0 <= r ->
  Zsum (map (fun i => if Z.of_nat i <? r then q + 1 else q) (seq 0 k))
  = Z.of_nat k * q + Z.min r (Z.of_nat k).
Proof.
  intros Hr. induction k as [|k IH].
  - simpl. lia.
  - rewrite seq_S, map_app, Zsum_app, IH. cbn [map Zsum fold_right Nat.add].
    destruct (Z.ltb_spec (Z.of_nat k) r); lia.
Qed.

Lemma Zsum_sub_awards (a : Z) (k : nat) : (0 < k)%nat -> Zsum (sub_awards a k) = a.
Proof.
  intros Hk. unfold sub_awards, ads_for_this_unit.
  pose proof (Z.mod_pos_bound a (Z.of_nat k) ltac:(lia)) as Hmod.
  rewrite Zsum_first_get_extra by lia.
  rewrite Z.min_l by lia.
  pose proof (Z.div_mod a (Z.of_nat k) ltac:(lia)). lia.
Qed.

Lemma ads_for_this_unit_nonneg (a : Z) (k i : nat) :
  0 <= a -> 0 <= ads_for_this_unit a k i.
Proof.
  intros Ha. unfold ads_for_this_unit.
  assert (0 <= a / Z.of_nat k).
  { destruct k as [|k]; [cbn; rewrite Z.div_0_r; lia|].
    apply Z.div_pos; lia. }
  destruct (_ <? _); lia.
Qed.

Lemma Zsum_filter_positive (l : list Z) :
  Forall (fun x => 0 <= x) l -> Zsum (List.filter (Z.ltb 0) l) = Zsum l.
Proof.
  induction 1 as [|x l Hx _ IH]; [reflexivity|].
  cbn [List.filter]. destruct (Z.ltb_spec 0 x); rewrite ?Zsum_cons; lia.
Qed.

Lemma Forall_filter_positive (l : list Z) :
  Forall (fun x => 0 < x) (List.filter (Z.ltb 0) l).
Proof.
  induction l as [|x l IH]; cbn [List.filter]; [constructor|].
  destruct (Z.ltb_spec 0 x); [constructor; assumption|assumption].
Qed.

Lemma unit_type_fold_spec (clock : Clock) (selected_region employee_id project_id : string)
      (a : Z) (K : nat) (unit_types : list string) (s : nat) (log : list LogEntry) :
  exists new : list LogEntry,
    fold_left
      (fun entries '(i, unit_type_name) =>
         let ads := ads_for_this_unit a K i in
         if 0 <? ads
         then (entries ++ [log_entry clock selected_region employee_id project_id
                                     unit_type_name ads (length entries)])%list
         else entries)
      (combine (seq s (length unit_types)) unit_types) log
    = (log ++ new)%list
    /\ map AdsAllocated new
       = List.filter (Z.ltb 0) (map (ads_for_this_unit a K) (seq s (length unit_types)))
    /\ Forall (fun e => LogProjectID e = project_id) new.
Proof.
  revert s log. induction unit_types as [|ut uts IH]; intros s log.
  - exists []. cbn. rewrite app_nil_r. repeat split. constructor.
  - cbn [length seq combine fold_left map List.filter].
    destruct (0 <? ads_for_this_unit a K s) eqn:E.
    + destruct (IH (S s)
                   (log ++ [log_entry clock selected_region employee_id project_id
                                      ut (ads_for_this_unit a K s) (length log)])%list)
        as (new & Heq & Hamt & Hpid).
      exists (log_entry clock selected_region employee_id project_id
                        ut (ads_for_this_unit a K s) (length log) :: new).
      split; [|split].
      * etransitivity; [exact Heq|]. now rewrite <- app_assoc.
      * cbn [map AdsAllocated log_entry]. now rewrite Hamt.
      * constructor; [reflexivity|exact Hpid].
    + destruct (IH (S s) log) as (new & Heq & Hamt & Hpid).
      exists new. split; [exact Heq|]. split; [exact Hamt|exact Hpid].
Qed.

(** The inner loop appends, for the unit types in their order, one entry
    per positive sub-award. *)
Lemma unit_type_entries_spec (clock : Clock) (selected_region employee_id project_id : string)
      (a : Z) (unit_types : list string) (log : list LogEntry) :
  exists new : list LogEntry,
    unit_type_entries clock selected_region employee_id project_id a unit_types log
    = (log ++ new)%list
    /\ map AdsAllocated new = List.filter (Z.ltb 0) (sub_awards a (length unit_types))
    /\ Forall (fun e => LogProjectID e = project_id) new.
Proof.
  apply (unit_type_fold_spec clock selected_region employee_id project_id a
                             (length unit_types) unit_types 0 log).
Qed.

(** ** The loop over the projects *)

Section Loop.

Variables (clock : Clock) (selected_region employee_id : string).

Let step := process_project clock selected_region employee_id.

Lemma process_project_updates (st : Ledger) (row : Project * Z) :
  updates (step st row) = record_update (updates st) row.
Proof.
  destruct row as [p a]. unfold step, process_project, record_update. cbn [fst snd].
  destruct (a <=? 0); [reflexivity|].
  destruct (UnitTypesInProject p) as [s|]; [|reflexivity].
  destruct (negb _); [reflexivity|].
  destruct (parse_unit_types s); reflexivity.
Qed.

Lemma process_project_entries (st : Ledger) (row : Project * Z) :
  exists new : list LogEntry,
    entries (step st row) = (entries st ++ new)%list
    /\ map AdsAllocated new = logged_amounts row
    /\ Forall (fun e => LogProjectID e = ProjectID (fst row)) new.
Proof.
  destruct row as [p a].
  unfold step, process_project, logged_amounts, unit_types_of. cbn [fst snd].
  assert (exists new : list LogEntry,
             entries st = (entries st ++ new)%list /\ map AdsAllocated new = []
             /\ Forall (fun e => LogProjectID e = ProjectID p) new) as Hskip.
  { exists []. rewrite app_nil_r. repeat split. constructor. }
  destruct (a <=? 0); [exact Hskip|].
  destruct (UnitTypesInProject p) as [s|]; [|exact Hskip].
  destruct (negb _); [exact Hskip|].
  destruct (parse_unit_types s) as [|ut uts] eqn:E; [exact Hskip|].
  cbn [entries]. apply unit_type_entries_spec.
Qed.

Lemma loop_updates (rows : list (Project * Z)) (st : Ledger) :
  updates (fold_left step rows st) = fold_left record_update rows (updates st).
Proof.
  revert st. induction rows as [|row rows IH]; intros st; [reflexivity|].
  cbn [fold_left]. now rewrite IH, process_project_updates.
Qed.

Lemma loop_entries (rows : list (Project * Z)) (st : Ledger) :
  exists new : list LogEntry,
    entries (fold_left step rows st) = (entries st ++ new)%list
    /\ map AdsAllocated new = concat (map logged_amounts rows)
    /\ Forall (fun e => exists row, row ∈ rows /\ logged_amounts row <> []
                                    /\ LogProjectID e = ProjectID (fst row)) new.
Proof.
  revert st. induction rows as [|row rows IH]; intros st.
  - exists []. cbn. rewrite app_nil_r. repeat split. constructor.
  - cbn [fold_left map concat].
    destruct (process_project_entries st row) as (new1 & H1 & A1 & P1).
    destruct (IH (step st row)) as (new2 & H2 & A2 & P2).
    exists (new1 ++ new2)%list. rewrite H2, H1, <- app_assoc, map_app, A1, A2.
    repeat split. apply Forall_app. split.
    + rewrite Forall_forall in P1 |- *. intros e He.
      exists row. repeat split; [apply elem_of_cons; now left| |now apply P1].
      intros Hnil. rewrite Hnil in A1. destruct new1; [|discriminate].
      now apply elem_of_nil in He.
    + eapply List.Forall_impl; [|exact P2]. intros e (r & Hr & Hne & He).
      exists r. repeat split; [apply elem_of_cons; now right|exact Hne|exact He].
Qed.

End Loop.

(** ** The update map *)

Lemma map_sum_empty : map_sum ∅ = 0.
Proof. apply map_fold_empty. Qed.

Lemma map_sum_insert (m : gmap string Z) (k : string) (v : Z) :
  m !! k = None -> map_sum (<[k := v]> m) = v + map_sum m.
Proof.
  intros Hk. unfold map_sum.
  apply (map_fold_insert_L (fun _ v acc => v + acc)); [|exact Hk].
  intros. lia.
Qed.


(** A key that no positive row writes keeps its entry. *)
Lemma record_updates_untouched (rows : list (Project * Z)) (m : gmap string Z) (k : string) :
  Forall (fun row => 0 < snd row -> ProjectID (fst row) <> k) rows ->
  fold_left record_update rows m !! k = m !! k.
Proof.
  revert m. induction rows as [|[p a] rows IH]; intros m Hrows; [reflexivity|].
  apply Forall_cons in Hrows as [Hrow Hrows]. cbn [fold_left fst snd] in *.
  rewrite IH by exact Hrows. unfold record_update. cbn [fst snd].
  destruct (Z.leb_spec a 0); [reflexivity|].
  apply lookup_insert_ne. apply Hrow. lia.
Qed.

Lemma record_updates_keeps (rows : list (Project * Z)) (m : gmap string Z) (k : string) :
  is_Some (m !! k) -> is_Some (fold_left record_update rows m !! k).
Proof.
  revert m. induction rows as [|[p a] rows IH]; intros m Hm; [exact Hm|].
  cbn [fold_left]. apply IH. unfold record_update. cbn [fst snd].
  destruct (a <=? 0); [exact Hm|].
  destruct (decide (ProjectID p = k)) as [->|Hne].
  - rewrite lookup_insert_eq; eauto.
  - now rewrite lookup_insert_ne.
Qed.

(** Every positive row leaves an entry under its project. *)
Lemma record_updates_is_Some (rows : list (Project * Z)) (m : gmap string Z)
      (p : Project) (a : Z) :
  (p, a) ∈ rows -> 0 < a ->
  is_Some (fold_left record_update rows m !! ProjectID p).
Proof.
  intros Hin Ha. revert m. induction rows as [|row rows IH]; intros m.
  - now apply elem_of_nil in Hin.
  - cbn [fold_left]. apply elem_of_cons in Hin as [<-|Hin]; [|now apply IH].
    apply record_updates_keeps. unfold record_update. cbn [fst snd].
    destruct (Z.leb_spec a 0); [lia|].
    rewrite lookup_insert_eq; eauto.
Qed.

(** With distinct project identifiers the entry is the project's award. *)
Lemma record_updates_lookup (rows : list (Project * Z)) (m : gmap string Z)
      (i : nat) (p : Project) (a : Z) :
  NoDup (map (fun row => ProjectID (fst row)) rows) ->
  rows !! i = Some (p, a) ->
  fold_left record_update rows m !! ProjectID p = if a <=? 0 then m !! ProjectID p else Some a.
Proof.
  revert m i. induction rows as [|[p' a'] rows IH]; intros m i Hnd Hi; [discriminate|].
  cbn [map fst snd] in Hnd. apply NoDup_cons in Hnd as [Hfresh Hnd].
  cbn [fold_left]. destruct i as [|i]; cbn in Hi.
  - injection Hi as -> ->.
    rewrite record_updates_untouched.
    + unfold record_update. cbn [fst snd].
      destruct (a <=? 0); [reflexivity|apply lookup_insert_eq].
    + rewrite Forall_forall. intros row Hrow _ Heq. apply Hfresh.
      rewrite <- Heq. now apply (list_elem_of_fmap_2 (fun row => ProjectID (fst row))).
  - rewrite (IH _ i Hnd Hi). destruct (a <=? 0); [|reflexivity].
    unfold record_update. cbn [fst snd]. destruct (a' <=? 0); [reflexivity|].
    apply lookup_insert_ne. intros Heq. apply Hfresh. rewrite Heq.
    apply (list_elem_of_fmap_2 (fun row => ProjectID (fst row)) _ (p, a)).
    eapply list_elem_of_lookup_2; eauto.
Qed.

Lemma map_sum_record_updates (rows : list (Project * Z)) (m : gmap string Z) :
  NoDup (map (fun row => ProjectID (fst row)) rows) ->
  Forall (fun row => m !! ProjectID (fst row) = None) rows ->
  Forall (fun row => 0 <= snd row) rows ->
  map_sum (fold_left record_update rows m) = map_sum m + Zsum (map snd rows).
Proof.
  revert m. induction rows as [|[p a] rows IH]; intros m Hnd Hfresh Hpos.
  - cbn. lia.
  - cbn [map fst snd] in Hnd. apply NoDup_cons in Hnd as [Hp Hnd].
    apply Forall_cons in Hfresh as [Hmp Hfresh].
    apply Forall_cons in Hpos as [Ha Hpos]. cbn [fst snd] in *.
    cbn [fold_left map]. rewrite Zsum_cons. cbn [snd].
    unfold record_update at 2. cbn [fst snd].
    destruct (Z.leb_spec a 0).
    + rewrite IH by assumption. lia.
    + rewrite IH; [rewrite map_sum_insert by exact Hmp; lia|exact Hnd| |exact Hpos].
      rewrite Forall_forall in Hfresh |- *. intros row Hrow.
      rewrite lookup_insert_ne; [now apply Hfresh|].
      intros Heq. apply Hp. rewrite Heq.
      now apply (list_elem_of_fmap_2 (fun row => ProjectID (fst row))).
Qed.

(** ** Signs of the scores and of the awards *)

Lemma clip_lower_nonneg (x : Q) : (0 <= clip_lower 0 x)%Q.
Proof.
  unfold clip_lower. destruct (Qle_bool 0 x) eqn:E.
  - now apply Qle_bool_iff.
  - apply Qle_refl.
Qed.



Section Signs.

Context {pandas : Pandas}.



Lemma TotalScore_nonneg (mo : Q) (p : Project) : (0 <= TotalScore mo p)%Q.
Proof. apply clip_lower_nonneg. Qed.

Lemma CalculatedAds_nonneg (W : Q) (n : Z) (w : Q) :
  (0 < W)%Q -> 0 <= n -> (0 <= w)%Q -> (0 <= CalculatedAds W n w)%Q.
Proof.
  intros HW Hn Hw. unfold CalculatedAds, Proportion, Qdiv.
  apply Qmult_le_0_compat.
  - apply Qmult_le_0_compat; [exact Hw|].
    apply Qlt_le_weak, Qinv_lt_0_compat, HW.
  - change 0%Q with (inject_Z 0). now rewrite <- Zle_Qle.
Qed.

Lemma Qfloor_nonneg (x : Q) : (0 <= x)%Q -> 0 <= Qfloor x.
Proof. intros Hx. apply (Qfloor_resp_le 0 x Hx). Qed.

Lemma floors_nonneg (scores : list Q) (n : Z) :
  (0 < Qsum scores)%Q -> 0 <= n -> Forall (fun w => (0 <= w)%Q) scores ->
  Forall (fun x => 0 <= x) (floors scores n).
Proof.
  intros HW Hn Hws. unfold floors. rewrite map_map. apply List.Forall_map.
  eapply List.Forall_impl; [|exact Hws]. intros w Hw.
  now apply Qfloor_nonneg, CalculatedAds_nonneg.
Qed.

Lemma hand_out_nonneg (idxs : list nat) (l : list Z) :
  Forall (fun x => 0 <= x) l -> Forall (fun x => 0 <= x) (fold_left add_one idxs l).
Proof.
  revert l. induction idxs as [|i idxs IH]; intros l Hl; [exact Hl|].
  cbn [fold_left]. apply IH. unfold add_one.
  apply Forall_alter; [exact Hl|]. intros x _ Hx. lia.
Qed.

Lemma AllocatedAdsProject_nonneg (scores : list Q) (n : Z) :
  (0 < Qsum scores)%Q -> 0 <= n -> Forall (fun w => (0 <= w)%Q) scores ->
  Forall (fun x => 0 <= x) (AllocatedAdsProject scores n).
Proof.
  intros HW Hn Hws. rewrite AllocatedAdsProject_unfold.
  apply hand_out_nonneg. now apply floors_nonneg.
Qed.

Lemma total_scores_nonneg (projects_df : DataFrame) (selected_region : string) :
  Forall (fun w => (0 <= w)%Q) (total_scores projects_df selected_region).
Proof.
  unfold total_scores. apply List.Forall_map.
  apply Forall_forall. intros p _. apply TotalScore_nonneg.
Qed.

Lemma awards_nonneg (projects_df : DataFrame) (selected_region : string) (n : Z) :
  (0 < Qsum (total_scores projects_df selected_region))%Q -> 0 <= n ->
  Forall (fun x => 0 <= x) (awards projects_df selected_region n).
Proof.
  intros HW Hn. unfold awards.
  apply AllocatedAdsProject_nonneg; [exact HW|exact Hn|apply total_scores_nonneg].
Qed.

Lemma length_awards (projects_df : DataFrame) (selected_region : string) (n : Z) :
  length (awards projects_df selected_region n)
  = length (eligible projects_df selected_region).
Proof.
  unfold awards, total_scores. now rewrite length_AllocatedAdsProject, length_map.
Qed.

(** *** The rows the loop over the projects runs on *)

Lemma allocatesb_true (projects_df : DataFrame) (selected_region : string) :
  allocatesb projects_df selected_region = true <-> allocates projects_df selected_region.
Proof.
  unfold allocatesb, allocates. rewrite !andb_true_iff, negb_true_iff.
  split.
  - intros [[Hc Hne] Hpos]. repeat split; [exact Hc| |].
    + intros E. now rewrite E in Hne.
    + apply Qnot_le_lt. rewrite <- Qle_bool_iff. now rewrite Hpos.
  - intros (Hc & Hne & Hpos). repeat split; [exact Hc| |].
    + destruct (eligible projects_df selected_region); [congruence|reflexivity].
    + destruct (Qle_bool _ 0) eqn:E; [|reflexivity].
      apply Qle_bool_iff in E. exfalso. eapply Qlt_not_le; eauto.
Qed.

Lemma allocatesb_false (projects_df : DataFrame) (selected_region : string) :
  allocatesb projects_df selected_region = false <->
  has_required_cols projects_df = false
  \/ eligible projects_df selected_region = []
  \/ (Qsum (total_scores projects_df selected_region) <= 0)%Q.
Proof.
  unfold allocatesb. rewrite !andb_false_iff, negb_false_iff, Qle_bool_iff.
  destruct (eligible projects_df selected_region); intuition congruence.
Qed.

(** The three results on every path, in terms of the rows of the loop. *)
Lemma distribute_results clock projects_df selected_region n employee_id :
  let out := snd (distribute_ads_automatically clock projects_df selected_region
                                               n employee_id) in
  let st := fold_left (process_project clock selected_region employee_id)
                      (awarded_rows projects_df selected_region n)
                      {| entries := []; updates := ∅; warnings := [] |} in
  distribution_log out = entries st
  /\ project_ads_update out = updates st
  /\ total_ads_allocated out = Zsum (map snd (awarded_rows projects_df selected_region n)).
Proof.
  unfold awarded_rows.
  destruct (allocatesb projects_df selected_region) eqn:E.
  - apply allocatesb_true in E. rewrite distribute_allocates by exact E.
    cbn [snd distribution_log project_ads_update total_ads_allocated].
    repeat split. f_equal. symmetry. apply snd_zip. now rewrite length_awards.
  - cbn [fold_left entries updates map Zsum fold_right].
    unfold distribute_ads_automatically.
    destruct (has_required_cols projects_df) eqn:Hc; cbn [negb]; [|now repeat split].
    apply allocatesb_false in E as [E|[E|E]]; [congruence| |].
    + unfold eligible in E. rewrite E. now repeat split.
    + unfold total_scores, eligible in E.
      destruct (region_projects _ _); [now repeat split|].
      apply Qle_bool_iff in E. rewrite E. now repeat split.
Qed.

End Signs.

(** ** Conservation of the unit-type pass *)

Lemma lookup_sub_awards (a : Z) (k i : nat) :
  (i < k)%nat -> sub_awards a k !! i = Some (ads_for_this_unit a k i).
Proof.
  intros Hi. unfold sub_awards.
  change (map (ads_for_this_unit a k) (seq 0 k)) with (ads_for_this_unit a k <$> seq 0 k).
  now rewrite list_lookup_fmap, lookup_seq_lt.
Qed.

(** C2. A project with award [a > 0] and [k >= 1] parsed unit types gives
    every unit type [a / k] (floor division), one unit more to each of the
    first [a mod k] unit types in their listed order, and these sub-awards
    sum to [a]; the entries the project adds to the log carry exactly the
    positive ones. *)
Theorem unit_type_pass_conserves
        (clock : Clock) (selected_region employee_id : string)
        (st : Ledger) (p : Project) (a : Z) :
  0 < a ->
  (1 <= length (unit_types_of p))%nat ->
  let k := length (unit_types_of p) in
  (forall i : nat, (i < k)%nat ->
     sub_awards a k !! i
     = Some (a / Z.of_nat k + (if Z.of_nat i <? a mod Z.of_nat k then 1 else 0)))
  /\ Zsum (sub_awards a k) = a
  /\ exists new : list LogEntry,
       entries (process_project clock selected_region employee_id st (p, a))
       = (entries st ++ new)%list
       /\ map AdsAllocated new = List.filter (Z.ltb 0) (sub_awards a k)
       /\ Zsum (map AdsAllocated new) = a.
Proof.
  intros Ha Hk k. split; [|split].
  - intros i Hi. rewrite lookup_sub_awards by exact Hi.
    unfold ads_for_this_unit. destruct (_ <? _); f_equal; lia.
  - apply Zsum_sub_awards. exact Hk.
  - destruct (process_project_entries clock selected_region employee_id st (p, a))
      as (new & Hnew & Hamt & _).
    exists new. unfold logged_amounts in Hamt. cbn [fst snd] in Hamt.
    destruct (Z.leb_spec a 0) as [|_]; [lia|].
    split; [exact Hnew|]. split; [exact Hamt|].
    rewrite Hamt, Zsum_filter_positive.
    + apply Zsum_sub_awards. exact Hk.
    + unfold sub_awards. apply List.Forall_map, Forall_forall.
      intros i _. apply ads_for_this_unit_nonneg. lia.
Qed.

Lemma unit_type_pass_conserves_witness :
  let st := {| entries := []; updates := ∅; warnings := [] |} in
  (forall i : nat, (i < 2)%nat ->
     sub_awards 21 2 !! i = Some (21 / 2 + (if Z.of_nat i <? 21 mod 2 then 1 else 0)))
  /\ Zsum (sub_awards 21 2) = 21
  /\ exists new : list LogEntry,
       entries (process_project Sample.clock "North" "E101" st (Sample.P1, 21))
       = (entries st ++ new)%list
       /\ map AdsAllocated new = List.filter (Z.ltb 0) (sub_awards 21 2)
       /\ Zsum (map AdsAllocated new) = 21.
Proof.
  intros st.
  apply (unit_type_pass_conserves Sample.clock "North" "E101" st Sample.P1 21).
  - lia.
  - vm_compute. lia.
Defined.

(** ** Missing columns *)

Lemma has_required_cols_false (projects_df : DataFrame) (col : string) :
  col ∈ required_cols -> col ∉ columns projects_df ->
  has_required_cols projects_df = false.
Proof.
  intros Hreq Hmiss. unfold has_required_cols.
  destruct (forallb _ required_cols) eqn:E; [|reflexivity].
  rewrite forallb_forall in E. apply list_elem_of_In in Hreq.
  specialize (E col Hreq). apply bool_decide_eq_true in E. contradiction.
Qed.

(** C7. When one of the eight required columns is missing, the function
    returns an empty log, an empty update map and a total of 0; it reports
    the missing columns, leaves the caller's frame as it was and allocates
    nothing. *)
Theorem missing_column_returns_nothing
        {pandas : Pandas} (clock : Clock) (projects_df : DataFrame)
        (selected_region : string) (num_ads_to_distribute : Z) (employee_id : string)
        (col : string) :
  col ∈ required_cols ->
  col ∉ columns projects_df ->
  distribute_ads_automatically clock projects_df selected_region
                               num_ads_to_distribute employee_id
  = (projects_df,
     {| distribution_log := [];
        project_ads_update := ∅;
        total_ads_allocated := 0;
        notices := [MissingColumns (missing_cols projects_df)] |}).
Proof.
  intros Hreq Hmiss. unfold distribute_ads_automatically.
  now rewrite (has_required_cols_false projects_df col Hreq Hmiss).
Qed.

Lemma missing_column_returns_nothing_witness :
  distribute_ads_automatically (pandas := pandas_stable) Sample.clock Sample.without_req
                               "North" 50 "E101"
  = (Sample.without_req,
     {| distribution_log := [];
        project_ads_update := ∅;
        total_ads_allocated := 0;
        notices := [MissingColumns (missing_cols Sample.without_req)] |}).
Proof.
  apply (missing_column_returns_nothing (pandas := pandas_stable) _ _ _ _ _ "Req").
  - apply (bool_decide_unpack _). vm_compute. exact I.
  - apply (bool_decide_unpack _). vm_compute. exact I.
Defined.

(** ** Projects without unit types *)

Lemma unit_types_of_nil (p : Project) :
  UnitTypesInProject p = None
  \/ (exists s, UnitTypesInProject p = Some s
                /\ (PyStr.strip s = "" \/ parse_unit_types s = [])) ->
  unit_types_of p = [].
Proof.
  unfold unit_types_of. intros [->|(s & -> & [Hs|Hs])]; [reflexivity| |].
  - now rewrite Hs.
  - rewrite Hs. now destruct (negb _).
Qed.

Lemma Zsum_lookup_split (l : list Z) (i : nat) (a : Z) :
  l !! i = Some a -> Zsum l = Zsum (take i l) + a + Zsum (drop (S i) l).
Proof.
  intros Hi. rewrite <- (take_drop_middle l i a Hi) at 1.
  rewrite Zsum_app, Zsum_cons. lia.
Qed.

Lemma logged_amounts_no_units (p : Project) (a : Z) :
  unit_types_of p = [] -> logged_amounts (p, a) = [].
Proof.
  intros Hu. unfold logged_amounts. cbn [fst snd]. rewrite Hu.
  now destruct (a <=? 0).
Qed.

Lemma process_project_no_units (clock : Clock) (selected_region employee_id : string)
      (st : Ledger) (p : Project) (a : Z) :
  unit_types_of p = [] ->
  entries (process_project clock selected_region employee_id st (p, a)) = entries st.
Proof.
  intros Hu.
  destruct (process_project_entries clock selected_region employee_id st (p, a))
    as (new & Hnew & Hamt & _).
  rewrite logged_amounts_no_units in Hamt by exact Hu.
  destruct new; [|discriminate]. now rewrite Hnew, app_nil_r.
Qed.

Lemma zip_ids (el : list Project) (aw : list Z) :
  length el = length aw ->
  map (fun row => ProjectID (fst row)) (zip el aw) = map ProjectID el.
Proof.
  revert aw. induction el as [|p el IH]; intros [|a aw] Hlen; try discriminate.
  - reflexivity.
  - cbn. f_equal. apply IH. now injection Hlen.
Qed.

Lemma lookup_zip (el : list Project) (aw : list Z) (i : nat) (p : Project) (a : Z) :
  zip el aw !! i = Some (p, a) <-> el !! i = Some p /\ aw !! i = Some a.
Proof.
  split.
  - intros H. apply lookup_zip_with_Some in H as (x & y & [= -> ->] & Hx & Hy).
    now split.
  - intros [Hx Hy]. apply lookup_zip_with_Some. now exists p, a.
Qed.

Section Results.

Context {pandas : Pandas}.

Lemma awarded_rows_allocates projects_df selected_region n :
  allocates projects_df selected_region ->
  awarded_rows projects_df selected_region n
  = zip (eligible projects_df selected_region) (awards projects_df selected_region n).
Proof.
  intros H. unfold awarded_rows. apply allocatesb_true in H. now rewrite H.
Qed.

Lemma awarded_rows_ids projects_df selected_region n :
  NoDup (map ProjectID (eligible projects_df selected_region)) ->
  NoDup (map (fun row => ProjectID (fst row))
             (awarded_rows projects_df selected_region n)).
Proof.
  intros Hnd. unfold awarded_rows. destruct (allocatesb _ _); [|constructor].
  rewrite zip_ids; [exact Hnd|]. now rewrite length_awards.
Qed.

Lemma awarded_rows_nonneg projects_df selected_region n :
  0 <= n -> Forall (fun row => 0 <= snd row) (awarded_rows projects_df selected_region n).
Proof.
  intros Hn. unfold awarded_rows.
  destruct (allocatesb _ _) eqn:E; [|constructor].
  apply allocatesb_true in E. destruct E as (_ & _ & Hpos).
  pose proof (awards_nonneg projects_df selected_region n Hpos Hn) as Haw.
  apply Forall_forall. intros [p a] Hrow.
  apply list_elem_of_lookup in Hrow as [i Hi]. apply lookup_zip in Hi as [_ Hi].
  eapply (proj1 (Forall_forall _ _) Haw), list_elem_of_lookup_2; eauto.
Qed.

End Results.

(** C8. An eligible project with a strictly positive award whose cell of
    unit types is missing, blank, or parses to no unit type: its award is a
    summand of the returned total and the update map has an entry for it,
    while its iteration of the loop adds no row to the log.  When the
    eligible projects have distinct identifiers, that entry is the award and
    no row of the log names the project. *)
Theorem no_unit_types_counted_not_logged
        {pandas : Pandas} (clock : Clock) (projects_df : DataFrame)
        (selected_region : string) (num_ads_to_distribute : Z) (employee_id : string)
        (i : nat) (p : Project) (a : Z) :
  allocates projects_df selected_region ->
  eligible projects_df selected_region !! i = Some p ->
  awards projects_df selected_region num_ads_to_distribute !! i = Some a ->
  0 < a ->
  UnitTypesInProject p = None
  \/ (exists s, UnitTypesInProject p = Some s
                /\ (PyStr.strip s = "" \/ parse_unit_types s = [])) ->
  let out := snd (distribute_ads_automatically clock projects_df selected_region
                                               num_ads_to_distribute employee_id) in
  let aw := awards projects_df selected_region num_ads_to_distribute in
  total_ads_allocated out = Zsum (take i aw) + a + Zsum (drop (S i) aw)
  /\ is_Some (project_ads_update out !! ProjectID p)
  /\ (forall st : Ledger,
        entries (process_project clock selected_region employee_id st (p, a))
        = entries st)
  /\ (NoDup (map ProjectID (eligible projects_df selected_region)) ->
      project_ads_update out !! ProjectID p = Some a
      /\ Forall (fun e => LogProjectID e <> ProjectID p) (distribution_log out)).
Proof.
  intros Halloc Hp Ha Hpos Hunits out aw.
  apply unit_types_of_nil in Hunits.
  destruct (distribute_results clock projects_df selected_region
                               num_ads_to_distribute employee_id)
    as (Hlog & Hupd & Htot).
  fold out in Hlog, Hupd, Htot.
  rewrite awarded_rows_allocates in Hlog, Hupd, Htot by exact Halloc.
  fold aw in Hlog, Hupd, Htot, Ha.
  rewrite loop_updates in Hupd. cbn [updates] in Hupd.
  assert (zip (eligible projects_df selected_region) aw !! i = Some (p, a)) as Hrow
      by now apply lookup_zip.
  split; [|split; [|split]].
  - rewrite Htot. change (map snd ?l) with (snd <$> l).
    rewrite snd_zip by (unfold aw; now rewrite length_awards).
    now apply Zsum_lookup_split.
  - rewrite Hupd. apply (record_updates_is_Some _ _ p a); [|exact Hpos].
    eapply list_elem_of_lookup_2; exact Hrow.
  - intros st. now apply process_project_no_units.
  - intros Hnd. split.
    + rewrite Hupd, (record_updates_lookup _ _ i p a).
      * destruct (Z.leb_spec a 0); [lia|reflexivity].
      * rewrite zip_ids; [exact Hnd|]. unfold aw. now rewrite length_awards.
      * exact Hrow.
    + rewrite Hlog.
      destruct (loop_entries clock selected_region employee_id
                             (zip (eligible projects_df selected_region) aw)
                             {| entries := []; updates := ∅; warnings := [] |})
        as (new & -> & _ & Hfrom).
      cbn [entries app]. eapply List.Forall_impl; [|exact Hfrom].
      intros e ([p' a'] & Hin & Hne & He) Heq. cbn [fst] in He.
      apply list_elem_of_lookup in Hin as [j Hj].
      pose proof Hj as Hj'. apply lookup_zip in Hj' as [Hp' _].
      assert (i = j) as <-.
      { eapply (NoDup_lookup _ _ _ (ProjectID p) Hnd).
        - change (map ProjectID ?l) with (ProjectID <$> l).
          now rewrite list_lookup_fmap, Hp.
        - change (map ProjectID ?l) with (ProjectID <$> l).
          rewrite list_lookup_fmap, Hp'. cbn. congruence. }
      rewrite Hrow in Hj. injection Hj as <- <-.
      apply Hne. now apply logged_amounts_no_units.
Qed.

Lemma no_unit_types_counted_not_logged_witness :
  let out := snd (distribute_ads_automatically (pandas := pandas_stable) Sample.clock
                    Sample.with_blank_units "North" 50 "E101") in
  let aw := awards (pandas := pandas_stable) Sample.with_blank_units "North" 50 in
  total_ads_allocated out = Zsum (take 1 aw) + 29 + Zsum (drop 2 aw)
  /\ is_Some (project_ads_update out !! "P2")
  /\ (forall st : Ledger,
        entries (process_project Sample.clock "North" "E101" st (Sample.P2_blank, 29))
        = entries st)
  /\ (NoDup (map ProjectID (eligible (pandas := pandas_stable)
                                     Sample.with_blank_units "North")) ->
      project_ads_update out !! "P2" = Some 29
      /\ Forall (fun e => LogProjectID e <> "P2") (distribution_log out)).
Proof.
  apply (no_unit_types_counted_not_logged (pandas := pandas_stable) Sample.clock
           Sample.with_blank_units "North" 50 "E101" 1 Sample.P2_blank 29).
  - repeat split. vm_compute. discriminate.
  - reflexivity.
  - reflexivity.
  - lia.
  - right. exists " , ,". split; [reflexivity|]. right. reflexivity.
Defined.

(** ** The total and the update map *)




(** ** The log and the total *)

Lemma Zsum_logged_amounts (row : Project * Z) :
  0 <= snd row ->
  Zsum (logged_amounts row) = snd row - (if unlogged row then snd row else 0).
Proof.
  destruct row as [p a]. unfold logged_amounts, unlogged. cbn [fst snd]. intros Ha.
  destruct (Z.leb_spec a 0), (Z.ltb_spec 0 a); try lia; cbn [andb].
  - cbn. lia.
  - destruct (unit_types_of p) as [|ut uts] eqn:E.
    + cbn. lia.
    + rewrite Zsum_filter_positive.
      * rewrite Zsum_sub_awards by (cbn; lia). lia.
      * unfold sub_awards. apply List.Forall_map, Forall_forall.
        intros i _. apply ads_for_this_unit_nonneg. lia.
Qed.

Lemma Zsum_concat_logged (rows : list (Project * Z)) :
  Forall (fun row => 0 <= snd row) rows ->
  Zsum (concat (map logged_amounts rows))
  = Zsum (map snd rows) - Zsum (map snd (List.filter unlogged rows)).
Proof.
  induction 1 as [|row rows Hrow _ IH]; [reflexivity|].
  cbn [map concat List.filter]. rewrite Zsum_app, Zsum_cons, IH.
  rewrite Zsum_logged_amounts by exact Hrow.
  destruct (unlogged row); [cbn [map]; rewrite Zsum_cons|]; lia.
Qed.

Lemma Forall_logged_positive (rows : list (Project * Z)) :
  Forall (fun x => 0 < x) (concat (map logged_amounts rows)).
Proof.
  induction rows as [|row rows IH]; [constructor|].
  cbn [map concat]. apply Forall_app. split; [|exact IH].
  unfold logged_amounts. destruct (_ <=? _); [constructor|].
  apply Forall_filter_positive.
Qed.

Lemma unlogged_sum_zero (rows : list (Project * Z)) :
  Zsum (map snd (List.filter unlogged rows)) = 0 <->
  Forall (fun row => 0 < snd row -> unit_types_of (fst row) <> []) rows.
Proof.
  assert (forall rows, 0 <= Zsum (map snd (List.filter unlogged rows))) as Hge.
  { clear. intros rs. induction rs as [|row rs IH]; [apply Z.le_refl|].
    cbn [List.filter]. destruct (unlogged row) eqn:E; [|exact IH].
    cbn [map]. rewrite Zsum_cons. unfold unlogged in E.
    apply andb_true_iff in E as [E _]. apply Z.ltb_lt in E. lia. }
  induction rows as [|row rows IH].
  - split; [constructor|reflexivity].
  - cbn [List.filter]. destruct (unlogged row) eqn:E; unfold unlogged in E.
    + apply andb_true_iff in E as [Hpos Hnil]. apply Z.ltb_lt in Hpos.
      cbn [map]. rewrite Zsum_cons. specialize (Hge rows). split; [lia|].
      intros Hall. apply Forall_cons in Hall as [Hrow _].
      specialize (Hrow Hpos). now destruct (unit_types_of (fst row)).
    + rewrite IH. split.
      * intros Hall. constructor; [|exact Hall]. intros Hpos Hnil.
        apply Z.ltb_lt in Hpos. now rewrite Hpos, Hnil in E.
      * intros Hall. now apply Forall_cons in Hall as [_ Hall].
Qed.

Lemma log_amounts_positive
      {pandas : Pandas} (clock : Clock) (projects_df : DataFrame)
      (selected_region : string) (n : Z) (employee_id : string) :
  Forall (fun e => 0 < AdsAllocated e)
         (distribution_log
            (snd (distribute_ads_automatically clock projects_df selected_region
                                               n employee_id))).
Proof.
  destruct (distribute_results clock projects_df selected_region n employee_id)
    as (Hlog & _ & _).
  destruct (loop_entries clock selected_region employee_id
                         (awarded_rows projects_df selected_region n)
                         {| entries := []; updates := ∅; warnings := [] |})
    as (new & Hnew & Hamt & _).
  cbn [entries app] in Hnew. rewrite Hlog, Hnew.
  apply (List.Forall_map AdsAllocated (fun x => 0 < x)).
  rewrite Hamt. apply Forall_logged_positive.
Qed.

(** C10. For a requested quantity that is not negative: the amounts of the
    returned log sum to the returned total minus the awards of the
    positively awarded projects without parsed unit types; so the log sum
    is at most the total, with equality exactly when every positively
    awarded project has a parsed unit type; and every row of the log has a
    strictly positive amount. *)
Theorem log_sum_accounts_for_total
        {pandas : Pandas} (clock : Clock) (projects_df : DataFrame)
        (selected_region : string) (num_ads_to_distribute : Z) (employee_id : string) :
  0 <= num_ads_to_distribute ->
  let out := snd (distribute_ads_automatically clock projects_df selected_region
                                               num_ads_to_distribute employee_id) in
  let rows := awarded_rows projects_df selected_region num_ads_to_distribute in
  let log_sum := Zsum (map AdsAllocated (distribution_log out)) in
  log_sum = total_ads_allocated out - Zsum (map snd (List.filter unlogged rows))
  /\ log_sum <= total_ads_allocated out
  /\ (log_sum = total_ads_allocated out <->
      Forall (fun row => 0 < snd row -> unit_types_of (fst row) <> []) rows)
  /\ Forall (fun e => 0 < AdsAllocated e) (distribution_log out).
Proof.
  intros Hn out rows log_sum.
  destruct (distribute_results clock projects_df selected_region
                               num_ads_to_distribute employee_id)
    as (Hlog & _ & Htot).
  fold out rows in Hlog, Htot.
  destruct (loop_entries clock selected_region employee_id rows
                         {| entries := []; updates := ∅; warnings := [] |})
    as (new & Hnew & Hamt & _).
  cbn [entries app] in Hnew. rewrite Hnew in Hlog.
  assert (log_sum
          = total_ads_allocated out - Zsum (map snd (List.filter unlogged rows))) as Hsum.
  { unfold log_sum. rewrite Hlog, Hamt, Htot. apply Zsum_concat_logged.
    now apply awarded_rows_nonneg. }
  assert (0 <= Zsum (map snd (List.filter unlogged rows))) as Hge.
  { apply Zsum_nonneg, List.Forall_map, Forall_forall. intros row Hrow.
    apply list_elem_of_In, filter_In in Hrow as [Hrow _].
    apply list_elem_of_In in Hrow.
    eapply (proj1 (Forall_forall _ _) (awarded_rows_nonneg projects_df selected_region
                                         num_ads_to_distribute Hn)); exact Hrow. }
  split; [exact Hsum|]. split; [lia|]. split.
  - rewrite <- unlogged_sum_zero. lia.
  - apply log_amounts_positive.
Qed.

Lemma log_sum_accounts_for_total_witness :
  let out := snd (distribute_ads_automatically (pandas := pandas_stable) Sample.clock
                    Sample.with_blank_units "North" 50 "E101") in
  let rows := awarded_rows (pandas := pandas_stable) Sample.with_blank_units "North" 50 in
  let log_sum := Zsum (map AdsAllocated (distribution_log out)) in
  log_sum = total_ads_allocated out - Zsum (map snd (List.filter unlogged rows))
  /\ log_sum <= total_ads_allocated out
  /\ (log_sum = total_ads_allocated out <->
      Forall (fun row => 0 < snd row -> unit_types_of (fst row) <> []) rows)
  /\ Forall (fun e => 0 < AdsAllocated e) (distribution_log out).
Proof.
  apply (log_sum_accounts_for_total (pandas := pandas_stable) Sample.clock
                                    Sample.with_blank_units "North" 50 "E101").
  lia.
Defined.

(** ** Non-negativity *)





(** ** What the call does to the caller's frame *)

(** C6, as stated, fails: the conversion of the numeric columns is assigned
    into the frame that was passed in.  A rating left blank in the sheet is
    the empty text before the call and a missing number after it. *)
Lemma call_mutates_snapshot :
  fst (distribute_ads_automatically (pandas := pandas_stable) Sample.clock
         Sample.with_blank_rating "North" 50 "E101")
  <> Sample.with_blank_rating.
Proof.
  intros H. apply (f_equal (fun df => map ProjectExcellenceScore (rows df))) in H.
  vm_compute in H. discriminate H.
Qed.

Section Frame.

Context {pandas : Pandas}.

Lemma to_numeric_idempotent (c : cell) : to_numeric (to_numeric c) = to_numeric c.
Proof.
  destruct c as [q|s|]; cbn; [reflexivity| |reflexivity].
  now destruct (to_numeric_text s).
Qed.

Lemma coerce_numeric_cols_idempotent (p : Project) :
  coerce_numeric_cols (coerce_numeric_cols p) = coerce_numeric_cols p.
Proof.
  unfold coerce_numeric_cols. cbn. now rewrite !to_numeric_idempotent.
Qed.

Lemma coerce_frame_idempotent (projects_df : DataFrame) :
  coerce_frame (coerce_frame projects_df) = coerce_frame projects_df.
Proof.
  unfold coerce_frame. cbn [columns rows]. f_equal.
  rewrite map_map. apply map_ext. intros p. apply coerce_numeric_cols_idempotent.
Qed.

Lemma distribute_frame clock projects_df selected_region n employee_id :
  fst (distribute_ads_automatically clock projects_df selected_region n employee_id)
  = frame_after projects_df.
Proof.
  unfold distribute_ads_automatically, frame_after.
  destruct (has_required_cols projects_df); cbn [negb]; [|reflexivity].
  destruct (region_projects _ _); [reflexivity|].
  now destruct (Qle_bool _ 0).
Qed.

Lemma has_required_cols_frame_after (projects_df : DataFrame) :
  has_required_cols (frame_after projects_df) = has_required_cols projects_df.
Proof.
  unfold frame_after. now destruct (has_required_cols projects_df) eqn:E.
Qed.

Lemma coerce_frame_after (projects_df : DataFrame) :
  has_required_cols projects_df = true ->
  coerce_frame (frame_after projects_df) = coerce_frame projects_df.
Proof.
  intros H. unfold frame_after. rewrite H. apply coerce_frame_idempotent.
Qed.

Lemma frame_after_idempotent (projects_df : DataFrame) :
  frame_after (frame_after projects_df) = frame_after projects_df.
Proof.
  unfold frame_after at 1. rewrite has_required_cols_frame_after.
  destruct (has_required_cols projects_df) eqn:Hc; [|reflexivity].
  rewrite coerce_frame_after by exact Hc. unfold frame_after. now rewrite Hc.
Qed.

(** A call on the frame left by an earlier call returns what it returns on
    the original frame. *)
Lemma distribute_frame_after clock projects_df selected_region n employee_id :
  distribute_ads_automatically clock (frame_after projects_df) selected_region
                               n employee_id
  = (frame_after projects_df,
     snd (distribute_ads_automatically clock projects_df selected_region
                                       n employee_id)).
Proof.
  destruct (has_required_cols projects_df) eqn:Hc.
  - unfold distribute_ads_automatically.
    rewrite has_required_cols_frame_after, Hc. cbn [negb].
    rewrite (coerce_frame_after _ Hc).
    assert (frame_after projects_df = coerce_frame projects_df) as ->
        by (unfold frame_after; now rewrite Hc).
    destruct (region_projects _ _); [reflexivity|].
    now destruct (Qle_bool _ 0).
  - assert (frame_after projects_df = projects_df) as ->
        by (unfold frame_after; now rewrite Hc).
    unfold distribute_ads_automatically. now rewrite Hc.
Qed.

End Frame.

(** C6, amended. When the required columns are present the call replaces
    the four numeric columns of the caller's frame by their conversion to
    numbers and leaves the column names and the other columns as they are
    (a frame that lacks a required column is left untouched).  Converting
    again changes nothing: a second call on the frame left by the first
    call leaves it as it is, works on the same eligible projects, scores and
    awards, and returns what a call on the original frame returns. *)
Theorem call_converts_numeric_columns
        {pandas : Pandas} (clock clock' : Clock) (projects_df : DataFrame)
        (selected_region : string) (num_ads_to_distribute : Z) (employee_id : string) :
  let first := distribute_ads_automatically clock projects_df selected_region
                                            num_ads_to_distribute employee_id in
  let second := distribute_ads_automatically clock' (fst first) selected_region
                                             num_ads_to_distribute employee_id in
  fst first = (if has_required_cols projects_df then coerce_frame projects_df
               else projects_df)
  /\ columns (fst first) = columns projects_df
  /\ map (fun p => (ProjectID p, RegionName p, Req p, UnitTypesInProject p))
         (rows (fst first))
     = map (fun p => (ProjectID p, RegionName p, Req p, UnitTypesInProject p))
           (rows projects_df)
  /\ fst second = fst first
  /\ eligible (fst first) selected_region = eligible projects_df selected_region
  /\ total_scores (fst first) selected_region = total_scores projects_df selected_region
  /\ awards (fst first) selected_region num_ads_to_distribute
     = awards projects_df selected_region num_ads_to_distribute
  /\ snd second = snd (distribute_ads_automatically clock' projects_df selected_region
                                                    num_ads_to_distribute employee_id).
Proof.
  intros first second. unfold second, first. clear first second.
  rewrite !distribute_frame, distribute_frame_after. cbn [fst snd].
  assert (eligible (frame_after projects_df) selected_region
          = eligible projects_df selected_region) as Hel.
  { unfold eligible, frame_after.
    destruct (has_required_cols projects_df); [|reflexivity].
    now rewrite coerce_frame_idempotent. }
  split; [reflexivity|]. split; [|split; [|split; [|split; [|split; [|split]]]]].
  - unfold frame_after. now destruct (has_required_cols projects_df).
  - unfold frame_after. destruct (has_required_cols projects_df); [|reflexivity].
    cbn [coerce_frame rows]. rewrite map_map. reflexivity.
  - apply frame_after_idempotent.
  - exact Hel.
  - unfold total_scores. now rewrite Hel.
  - unfold awards, total_scores. now rewrite Hel.
  - reflexivity.
Qed.

(** ** Who receives the remainder *)

Section Ranking.

Context {pandas : Pandas}.











End Ranking.

(** *** The insertion sort that serves equal keys first-seen first is stable *)

Lemma ranked_before_head (a b : nat) (l : list nat) :
  b ∈ l -> ranked_before (a :: l) a b.
Proof.
  intros Hb. apply list_elem_of_lookup in Hb as [j Hj].
  exists 0%nat, (S j). repeat split; [lia|exact Hj].
Qed.

Lemma ranked_before_tail (x a b : nat) (l : list nat) :
  ranked_before l a b -> ranked_before (x :: l) a b.
Proof.
  intros (i & j & Hij & Hi & Hj). exists (S i), (S j). repeat split; [lia|exact Hi|exact Hj].
Qed.

Lemma ranked_before_cons_inv (x a b : nat) (l : list nat) :
  ranked_before (x :: l) a b -> (a = x /\ b ∈ l) \/ ranked_before l a b.
Proof.
  intros (i & j & Hij & Hi & Hj). destruct j as [|j]; [lia|]. cbn in Hj.
  destruct i as [|i]; cbn in Hi.
  - left. split; [congruence|]. eapply list_elem_of_lookup_2; eauto.
  - right. exists i, j. repeat split; [lia|exact Hi|exact Hj].
Qed.

Lemma insert_by_elem (before : Q -> Q -> bool) (keys : list Q) (i x : nat) (l : list nat) :
  x ∈ l -> x ∈ Impl.insert_by before keys i l.
Proof.
  intros Hx. apply list_elem_of_In.
  eapply Permutation_in; [symmetry; apply insert_by_perm|].
  right. now apply list_elem_of_In.
Qed.

Lemma insert_by_keeps_order (before : Q -> Q -> bool) (keys : list Q) (i a b : nat)
      (l : list nat) :
  ranked_before l a b -> ranked_before (Impl.insert_by before keys i l) a b.
Proof.
  induction l as [|j l IH]; intros Hab.
  - destruct Hab as (? & ? & _ & H & _). discriminate H.
  - cbn [Impl.insert_by]. destruct (before _ _).
    + now apply ranked_before_tail.
    + apply ranked_before_cons_inv in Hab as [[-> Hb]|Hab].
      * apply ranked_before_head. now apply insert_by_elem.
      * apply ranked_before_tail. now apply IH.
Qed.

Lemma insert_by_in_front (keys : list Q) (i b : nat) (l : list nat) :
  b ∈ l -> (Impl.key keys b <= Impl.key keys i)%Q ->
  ranked_before (Impl.insert_by Impl.first_seen_first keys i l) i b.
Proof.
  intros Hb Hle. induction l as [|j l IH]; [now apply elem_of_nil in Hb|].
  cbn [Impl.insert_by]. destruct (Impl.first_seen_first _ _) eqn:E.
  - now apply ranked_before_head.
  - apply elem_of_cons in Hb as [->|Hb].
    + unfold Impl.first_seen_first in E. apply Qle_bool_iff in Hle. congruence.
    + apply ranked_before_tail. now apply IH.
Qed.

Lemma insertion_sort_stable (keys : list Q) (m s a b : nat) :
  (s <= a)%nat -> (a < b)%nat -> (b < s + m)%nat ->
  (Impl.key keys a == Impl.key keys b)%Q ->
  ranked_before (fold_right (Impl.insert_by Impl.first_seen_first keys) [] (seq s m)) a b.
Proof.
  revert s. induction m as [|m IH]; intros s Hsa Hab Hb Heq; [lia|].
  cbn [seq fold_right].
  destruct (decide (a = s)) as [->|Hne].
  - apply insert_by_in_front.
    + apply list_elem_of_In.
      eapply Permutation_in.
      * symmetry. apply (argsort_by_perm_range Impl.first_seen_first keys (S s) m).
      * apply in_seq. lia.
    + rewrite Heq. apply Qle_refl.
  - apply insert_by_keeps_order. apply IH; [lia|lia|lia|exact Heq].
Qed.

Lemma stable_keeps_input_order : keeps_input_order pandas_stable.
Proof.
  intros keys a b ka kb Hab Ha Hb Heq. cbn. unfold Impl.argsort_by.
  apply insertion_sort_stable; [lia|exact Hab| |].
  - apply lookup_lt_Some in Hb. lia.
  - unfold Impl.key. now rewrite Ha, Hb.
Qed.

(** ** Ties between fractional parts *)

(** Two projects with the same score and one ad: the sort of
    [pandas_stable] serves the first one. *)
Example tie_served_in_input_order_when_stable :
  awards (pandas := pandas_stable) Sample.two_alike "North" 1 = [1; 0].
Proof. reflexivity. Qed.

(** ** Sums of scores *)




(** ** One more ad *)

(** C4, as stated, fails.  With total scores 18, 18 and 6, ten ads are
    awarded 4, 4 and 2 and eleven ads 5, 5 and 1: all three awards change
    and the third one goes down.  The 64-bit arithmetic gives the same
    awards as the exact shares.  The fractional parts of the winners and of
    the others differ, so the order of equal keys plays no part. *)
Lemma one_more_ad_changes_three_awards :
  awards (pandas := pandas_stable) Sample.three_projects "North" 10 = [4; 4; 2]
  /\ awards (pandas := pandas_stable) Sample.three_projects "North" (10 + 1) = [5; 5; 1]
  /\ (exists p : Float64.Pass,
         Float64.run (pandas := pandas_stable) Sample.three_projects "North" 10
         = Float64.Ok p
         /\ Float64.allocated p = [4; 4; 2])
  /\ (exists p' : Float64.Pass,
         Float64.run (pandas := pandas_stable) Sample.three_projects "North" (10 + 1)
         = Float64.Ok p'
         /\ Float64.allocated p' = [5; 5; 1]).
Proof.
  split; [reflexivity|]. split; [reflexivity|].
  split; eexists; (split; [vm_compute; reflexivity|reflexivity]).
Qed.

(** * Further properties *)

(** ** Stripping and lower-casing *)

Lemma isspace_lower_ascii (c : ascii) :
  PyStr.isspace (PyStr.lower_ascii c) = PyStr.isspace c.
Proof. destruct c as [[] [] [] [] [] [] [] []]; reflexivity. Qed.

Lemma lower_ascii_idempotent (c : ascii) :
  PyStr.lower_ascii (PyStr.lower_ascii c) = PyStr.lower_ascii c.
Proof. destruct c as [[] [] [] [] [] [] [] []]; reflexivity. Qed.

Lemma lower_idempotent (s : string) : PyStr.lower (PyStr.lower s) = PyStr.lower s.
Proof.
  induction s as [|c s IH]; [reflexivity|].
  cbn [PyStr.lower]. now rewrite lower_ascii_idempotent, IH.
Qed.

Lemma lstrip_lower (s : string) :
  PyStr.lstrip (PyStr.lower s) = PyStr.lower (PyStr.lstrip s).
Proof.
  induction s as [|c s IH]; [reflexivity|].
  cbn [PyStr.lower PyStr.lstrip]. rewrite isspace_lower_ascii.
  destruct (PyStr.isspace c); [exact IH|reflexivity].
Qed.

Lemma rstrip_lower (s : string) :
  PyStr.rstrip (PyStr.lower s) = PyStr.lower (PyStr.rstrip s).
Proof.
  induction s as [|c s IH]; [reflexivity|].
  cbn [PyStr.lower PyStr.rstrip]. rewrite IH, isspace_lower_ascii.
  destruct (PyStr.rstrip s); cbn [PyStr.lower]; [|reflexivity].
  now destruct (PyStr.isspace c).
Qed.

Lemma strip_lower (s : string) :
  PyStr.strip (PyStr.lower s) = PyStr.lower (PyStr.strip s).
Proof. unfold PyStr.strip. now rewrite lstrip_lower, rstrip_lower. Qed.

Lemma lstrip_no_leading_blank (s : string) : no_leading_blank (PyStr.lstrip s).
Proof.
  induction s as [|c s IH]; [exact I|].
  cbn [PyStr.lstrip]. destruct (PyStr.isspace c) eqn:E; [exact IH|exact E].
Qed.

Lemma lstrip_fixed (s : string) : no_leading_blank s -> PyStr.lstrip s = s.
Proof. destruct s as [|c s]; [reflexivity|]. cbn. now intros ->. Qed.

Lemma rstrip_no_leading_blank (s : string) :
  no_leading_blank s -> no_leading_blank (PyStr.rstrip s).
Proof.
  destruct s as [|c s]; [intros _; exact I|].
  cbn [no_leading_blank PyStr.rstrip]. intros E.
  destruct (PyStr.rstrip s); [now rewrite E|exact E].
Qed.

Lemma rstrip_idempotent (s : string) : PyStr.rstrip (PyStr.rstrip s) = PyStr.rstrip s.
Proof.
  induction s as [|c s IH]; [reflexivity|].
  cbn [PyStr.rstrip]. destruct (PyStr.rstrip s) as [|c' r] eqn:E.
  - destruct (PyStr.isspace c) eqn:Ec; [reflexivity|].
    cbn [PyStr.rstrip]. now rewrite Ec.
  - cbn [PyStr.rstrip] in *. now rewrite IH.
Qed.

Lemma strip_idempotent (s : string) : PyStr.strip (PyStr.strip s) = PyStr.strip s.
Proof.
  unfold PyStr.strip.
  rewrite (lstrip_fixed (PyStr.rstrip (PyStr.lstrip s))).
  - apply rstrip_idempotent.
  - apply rstrip_no_leading_blank, lstrip_no_leading_blank.
Qed.

Lemma lstrip_blank (c : ascii) (s : string) :
  PyStr.isspace c = true -> PyStr.lstrip (String c s) = PyStr.lstrip s.
Proof. intros E. cbn. now rewrite E. Qed.

Lemma rstrip_all_blank (s w : string) :
  PyStr.rstrip w = EmptyString -> PyStr.rstrip (s ++ w) = PyStr.rstrip s.
Proof.
  intros Hw. induction s as [|c s IH]; [exact Hw|].
  simpl. now rewrite IH.
Qed.

(** ** The region filter *)

Section RegionFilter.

Context {pandas : Pandas}.

Lemma in_region_normalised (region region' : string) (p : Project) :
  PyStr.lower (PyStr.strip region') = PyStr.lower (PyStr.strip region) ->
  in_region region' p = in_region region p.
Proof. intros H. unfold in_region. now rewrite H. Qed.

Lemma eligible_normalised (projects_df : DataFrame) (region region' : string) :
  PyStr.lower (PyStr.strip region') = PyStr.lower (PyStr.strip region) ->
  eligible projects_df region' = eligible projects_df region.
Proof.
  intros H. unfold eligible, region_projects. apply filter_ext.
  intros p. now rewrite (in_region_normalised region region' p H).
Qed.

End RegionFilter.

Lemma rstrip_blank_lstrip (w : string) :
  PyStr.rstrip w = EmptyString -> PyStr.lstrip w = EmptyString.
Proof.
  induction w as [|c w IH]; [reflexivity|].
  cbn [PyStr.rstrip PyStr.lstrip].
  destruct (PyStr.rstrip w); [|discriminate].
  destruct (PyStr.isspace c); [intros _; now apply IH|discriminate].
Qed.

Lemma strip_trailing_blanks (s w : string) :
  PyStr.rstrip w = EmptyString -> PyStr.strip (s ++ w) = PyStr.strip s.
Proof.
  intros Hw. unfold PyStr.strip. induction s as [|c s IH].
  - change (PyStr.rstrip (PyStr.lstrip w) = EmptyString).
    now rewrite (rstrip_blank_lstrip w Hw).
  - change (PyStr.rstrip (PyStr.lstrip (String c (s ++ w)))
            = PyStr.rstrip (PyStr.lstrip (String c s))).
    cbn [PyStr.lstrip]. destruct (PyStr.isspace c); [exact IH|].
    now apply (rstrip_all_blank (String c s) w).
Qed.

(** X1. The selected region is matched without regard to ASCII case and
    surrounding blanks: lower-casing it, stripping it, or putting blanks
    around it leaves the eligible projects and their awards as they are. *)
Theorem region_matched_without_case_and_blanks
        {pandas : Pandas} (projects_df : DataFrame) (selected_region : string)
        (num_ads_to_distribute : Z) :
  let same (region' : string) :=
    eligible projects_df region' = eligible projects_df selected_region
    /\ awards projects_df region' num_ads_to_distribute
       = awards projects_df selected_region num_ads_to_distribute in
  same (PyStr.lower selected_region)
  /\ same (PyStr.strip selected_region)
  /\ same (" " ++ selected_region ++ " ")%string.
Proof.
  assert (forall region',
             PyStr.lower (PyStr.strip region')
             = PyStr.lower (PyStr.strip selected_region) ->
             eligible projects_df region' = eligible projects_df selected_region
             /\ awards projects_df region' num_ads_to_distribute
                = awards projects_df selected_region num_ads_to_distribute) as Hsame.
  { intros region' H. pose proof (eligible_normalised projects_df _ _ H) as E.
    split; [exact E|]. unfold awards, total_scores. now rewrite E. }
  cbv zeta. split; [|split]; apply Hsame.
  - now rewrite strip_lower, lower_idempotent.
  - now rewrite strip_idempotent.
  - f_equal.
    change (" " ++ selected_region ++ " ")%string
      with (String " " (selected_region ++ " "))%string.
    unfold PyStr.strip at 1. rewrite lstrip_blank by reflexivity.
    apply (strip_trailing_blanks selected_region " "). reflexivity.
Qed.

(** ** Parsing the unit types *)

Lemma contains_lstrip (c : ascii) (s : string) :
  contains c s = false -> contains c (PyStr.lstrip s) = false.
Proof.
  induction s as [|c' s IH]; [reflexivity|].
  cbn [contains PyStr.lstrip]. intros H. apply orb_false_iff in H as [H1 H2].
  destruct (PyStr.isspace c'); [now apply IH|].
  cbn [contains]. now rewrite H1, H2.
Qed.

Lemma contains_rstrip (c : ascii) (s : string) :
  contains c s = false -> contains c (PyStr.rstrip s) = false.
Proof.
  induction s as [|c' s IH]; [reflexivity|].
  cbn [contains PyStr.rstrip]. intros H. apply orb_false_iff in H as [H1 H2].
  specialize (IH H2). destruct (PyStr.rstrip s).
  - destruct (PyStr.isspace c'); [reflexivity|]. cbn [contains]. now rewrite H1.
  - cbn [contains] in *. now rewrite H1, IH.
Qed.

Lemma contains_strip (c : ascii) (s : string) :
  contains c s = false -> contains c (PyStr.strip s) = false.
Proof. intros H. now apply contains_rstrip, contains_lstrip. Qed.

(** No piece of a split holds the separator. *)
Lemma split_pieces (sep : ascii) (s : string) :
  Forall (fun piece => contains sep piece = false) (PyStr.split sep s).
Proof.
  induction s as [|c s IH]; [repeat constructor|].
  cbn [PyStr.split]. destruct (Ascii.eqb c sep) eqn:E.
  - constructor; [reflexivity|exact IH].
  - destruct (PyStr.split sep s) as [|h t]; [repeat constructor; cbn; now rewrite E|].
    apply Forall_cons in IH as [Hh Ht].
    constructor; [cbn [contains]; now rewrite E, Hh|exact Ht].
Qed.

Lemma split_without_separator (sep : ascii) (s : string) :
  contains sep s = false -> PyStr.split sep s = [s].
Proof.
  induction s as [|c s IH]; [reflexivity|].
  cbn [contains PyStr.split]. intros H. apply orb_false_iff in H as [H1 H2].
  now rewrite H1, (IH H2).
Qed.

Lemma split_at_separator (sep : ascii) (a rest : string) :
  contains sep a = false ->
  PyStr.split sep (a ++ String sep rest) = a :: PyStr.split sep rest.
Proof.
  induction a as [|c a IH].
  - intros _. change (PyStr.split sep (String sep rest) = "" :: PyStr.split sep rest).
    cbn [PyStr.split]. now rewrite Ascii.eqb_refl.
  - cbn [contains]. intros H. apply orb_false_iff in H as [H1 H2].
    change (PyStr.split sep (String c (a ++ String sep rest))
            = String c a :: PyStr.split sep rest).
    cbn [PyStr.split]. now rewrite H1, (IH H2).
Qed.

(** X2. Every unit type the parser returns is a name that is not empty, has
    no blank at either end and holds no comma. *)
Theorem parsed_unit_types_are_clean (unit_types_str : string) :
  Forall clean_name (parse_unit_types unit_types_str).
Proof.
  unfold parse_unit_types. apply List.Forall_map, Forall_forall.
  intros ut Hut. apply list_elem_of_In, filter_In in Hut as [Hin Htruthy].
  pose proof (split_pieces "," unit_types_str) as Hpieces.
  rewrite Forall_forall in Hpieces. apply list_elem_of_In in Hin.
  repeat split.
  - exact Htruthy.
  - apply strip_idempotent.
  - apply contains_strip. now apply Hpieces.
Qed.

Lemma strip_clean_with_blank (name : string) :
  clean_name name -> PyStr.strip (String " " name) = name.
Proof.
  intros (_ & Hstrip & _). unfold PyStr.strip in *.
  now rewrite lstrip_blank by reflexivity.
Qed.

Lemma split_join_names (name : string) (rest : list string) :
  Forall clean_name (name :: rest) ->
  PyStr.split "," (join_names (name :: rest)) = name :: map (String " ") rest.
Proof.
  revert name. induction rest as [|name' rest IH]; intros name Hclean.
  - cbn [join_names map]. apply split_without_separator.
    apply Forall_cons in Hclean as [(_ & _ & H) _]. exact H.
  - apply Forall_cons in Hclean as [(_ & _ & Hname) Hrest].
    change (join_names (name :: name' :: rest))
      with (name ++ String "," (String " " (join_names (name' :: rest))))%string.
    rewrite split_at_separator by exact Hname.
    cbn [PyStr.split]. change (Ascii.eqb " " ",") with false. cbn iota.
    now rewrite (IH name' Hrest).
Qed.

(** X3. Parsing the comma-joined list of clean names gives the names back,
    in their order. *)
Theorem parse_join_names (names : list string) :
  Forall clean_name names -> parse_unit_types (join_names names) = names.
Proof.
  intros Hclean. destruct names as [|name rest]; [reflexivity|].
  unfold parse_unit_types. rewrite split_join_names by exact Hclean.
  apply Forall_cons in Hclean as [Hname Hrest].
  cbn [List.filter map]. destruct Hname as (Htruthy & Hstrip & _).
  rewrite Hstrip, Htruthy. cbn [map]. rewrite Hstrip. f_equal.
  induction Hrest as [|name' rest Hname' _ IH]; [reflexivity|].
  cbn [map List.filter]. rewrite (strip_clean_with_blank name' Hname').
  rewrite (proj1 Hname'). cbn [map].
  now rewrite (strip_clean_with_blank name' Hname'), IH.
Qed.

Lemma parse_join_names_witness :
  parse_unit_types (join_names ["Apt"; "Town house"; "Villa"])
  = ["Apt"; "Town house"; "Villa"].
Proof.
  apply (parse_join_names ["Apt"; "Town house"; "Villa"]).
  repeat constructor.
Defined.

(** ** When the call allocates *)




(** ** Nothing to distribute *)


Lemma process_project_skips (clock : Clock) (selected_region employee_id : string)
      (st : Ledger) (p : Project) (a : Z) :
  a <= 0 -> process_project clock selected_region employee_id st (p, a) = st.
Proof.
  intros Ha. unfold process_project.
  destruct (Z.leb_spec a 0); [reflexivity|lia].
Qed.



(** ** The rows of the log *)

Lemma unit_type_fold_rows (clock : Clock) (selected_region employee_id project_id : string)
      (a : Z) (K : nat) (unit_types : list string) (s : nat) (log : list LogEntry) :
  exists new : list LogEntry,
    fold_left
      (fun entries '(i, unit_type_name) =>
         let ads := ads_for_this_unit a K i in
         if 0 <? ads
         then (entries ++ [log_entry clock selected_region employee_id project_id
                                     unit_type_name ads (length entries)])%list
         else entries)
      (combine (seq s (length unit_types)) unit_types) log
    = (log ++ new)%list
    /\ map (fun e => (UnitTypeName e, AdsAllocated e)) new
       = map (fun row => (snd row, ads_for_this_unit a K (fst row)))
             (List.filter (fun row => 0 <? ads_for_this_unit a K (fst row))
                          (combine (seq s (length unit_types)) unit_types))
    /\ Forall (fun e => row_of_call clock selected_region employee_id e
                        /\ LogProjectID e = project_id) new.
Proof.
  revert s log. induction unit_types as [|ut uts IH]; intros s log.
  - exists []. cbn. rewrite app_nil_r. repeat split. constructor.
  - cbn [length seq combine fold_left map List.filter fst snd].
    destruct (0 <? ads_for_this_unit a K s) eqn:E.
    + destruct (IH (S s)
                   (log ++ [log_entry clock selected_region employee_id project_id
                                      ut (ads_for_this_unit a K s) (length log)])%list)
        as (new & Heq & Hrows & Hcall).
      exists (log_entry clock selected_region employee_id project_id
                        ut (ads_for_this_unit a K s) (length log) :: new).
      split; [|split].
      * etransitivity; [exact Heq|]. now rewrite <- app_assoc.
      * cbn [map UnitTypeName AdsAllocated log_entry fst snd]. now rewrite Hrows.
      * constructor; [repeat split|exact Hcall].
    + destruct (IH (S s) log) as (new & Heq & Hrows & Hcall).
      exists new. split; [exact Heq|]. split; [exact Hrows|exact Hcall].
Qed.

(** The rows one iteration of the loop over the projects appends. *)
Lemma process_project_rows (clock : Clock) (selected_region employee_id : string)
      (st : Ledger) (p : Project) (a : Z) :
  0 < a ->
  let k := length (unit_types_of p) in
  exists new : list LogEntry,
    entries (process_project clock selected_region employee_id st (p, a))
    = (entries st ++ new)%list
    /\ map (fun e => (UnitTypeName e, AdsAllocated e)) new
       = map (fun row => (snd row, ads_for_this_unit a k (fst row)))
             (List.filter (fun row => 0 <? ads_for_this_unit a k (fst row))
                          (enumerate (unit_types_of p)))
    /\ Forall (fun e => row_of_call clock selected_region employee_id e
                        /\ LogProjectID e = ProjectID p) new.
Proof.
  intros Ha k. unfold k, process_project, unit_types_of.
  assert (forall uts : list string, uts = [] ->
           exists new : list LogEntry,
             entries st = (entries st ++ new)%list
             /\ map (fun e => (UnitTypeName e, AdsAllocated e)) new
                = map (fun row => (snd row, ads_for_this_unit a (length uts) (fst row)))
                      (List.filter (fun row => 0 <? ads_for_this_unit a (length uts) (fst row))
                                   (enumerate uts))
             /\ Forall (fun e => row_of_call clock selected_region employee_id e
                                 /\ LogProjectID e = ProjectID p) new) as Hskip.
  { intros uts ->. exists []. rewrite app_nil_r. repeat split. constructor. }
  destruct (Z.leb_spec a 0); [lia|].
  destruct (UnitTypesInProject p) as [s|]; [|now apply Hskip].
  destruct (negb _); [now apply Hskip|].
  destruct (parse_unit_types s) as [|ut uts] eqn:E; [now apply Hskip|].
  cbn [entries].
  apply (unit_type_fold_rows clock selected_region employee_id (ProjectID p) a
                             (length (ut :: uts)) (ut :: uts) 0 (entries st)).
Qed.

Lemma ads_for_this_unit_positive (a : Z) (k i : nat) :
  0 < a -> (i < k)%nat ->
  (0 <? ads_for_this_unit a k i) = (Z.of_nat i <? Z.min a (Z.of_nat k)).
Proof.
  intros Ha Hi. unfold ads_for_this_unit.
  destruct (Z.lt_ge_cases a (Z.of_nat k)) as [Hsmall|Hbig].
  - rewrite Z.div_small, Z.mod_small, Z.min_l by lia.
    destruct (Z.ltb_spec (Z.of_nat i) a); reflexivity.
  - assert (1 <= a / Z.of_nat k) by (apply Z.div_le_lower_bound; lia).
    rewrite Z.min_r by lia.
    destruct (_ <? a mod _); destruct (Z.ltb_spec (Z.of_nat i) (Z.of_nat k));
      destruct (Z.ltb_spec 0 (a / Z.of_nat k + 1));
      destruct (Z.ltb_spec 0 (a / Z.of_nat k)); try reflexivity; lia.
Qed.

Lemma filter_positions_none {A : Type} (l : list A) (s s' : nat) :
  (s <= s')%nat ->
  List.filter (fun row : nat * A => (fst row <? s)%nat) (combine (seq s' (length l)) l) = [].
Proof.
  revert s'. induction l as [|x l IH]; intros s' Hle; [reflexivity|].
  cbn [length seq combine List.filter fst].
  destruct (Nat.ltb_spec s' s); [lia|]. apply IH. lia.
Qed.

(** Keeping the positions below a bound keeps a prefix. *)
Lemma filter_positions_take {A : Type} (l : list A) (s m : nat) :
  List.filter (fun row : nat * A => (fst row <? s + m)%nat) (combine (seq s (length l)) l)
  = take m (combine (seq s (length l)) l).
Proof.
  revert s m. induction l as [|x l IH]; intros s m.
  - cbn. now destruct m.
  - destruct m as [|m].
    + rewrite Nat.add_0_r. now apply filter_positions_none.
    + cbn [length seq combine List.filter fst take].
      destruct (Nat.ltb_spec s (s + S m)); [|lia]. f_equal.
      rewrite <- (IH (S s) m). apply filter_ext. intros [i y]. cbn [fst].
      f_equal. lia.
Qed.

Lemma map_snd_enumerate {A : Type} (l : list A) (s : nat) :
  map snd (combine (seq s (length l)) l) = l.
Proof.
  revert s. induction l as [|x l IH]; intros s; [reflexivity|].
  cbn. now rewrite IH.
Qed.

Lemma enumerate_bound {A : Type} (l : list A) (row : nat * A) :
  In row (enumerate l) -> (fst row < length l)%nat /\ In (snd row) l.
Proof.
  destruct row as [i x]. unfold enumerate. intros H. split.
  - apply in_combine_l, in_seq in H. cbn. lia.
  - apply in_combine_r in H. exact H.
Qed.

(** X6. A project with award [a > 0] and [k] parsed unit types adds
    [min(a, k)] rows to the log, one for each of the first [min(a, k)] unit
    types in their listed order. *)
Theorem rows_go_to_first_unit_types
        (clock : Clock) (selected_region employee_id : string)
        (st : Ledger) (p : Project) (a : Z) :
  0 < a ->
  let k := Z.of_nat (length (unit_types_of p)) in
  exists new : list LogEntry,
    entries (process_project clock selected_region employee_id st (p, a))
    = (entries st ++ new)%list
    /\ map UnitTypeName new = take (Z.to_nat (Z.min a k)) (unit_types_of p)
    /\ Z.of_nat (length new) = Z.min a k.
Proof.
  intros Ha k.
  destruct (process_project_rows clock selected_region employee_id st p a Ha)
    as (new & Hnew & Hrows & _).
  exists new. split; [exact Hnew|].
  assert (map UnitTypeName new = take (Z.to_nat (Z.min a k)) (unit_types_of p)) as Hnames.
  { apply (f_equal (map fst)) in Hrows. rewrite !map_map in Hrows. cbn [fst] in Hrows.
    change (map (fun x => UnitTypeName x) new) with (map UnitTypeName new) in Hrows.
    rewrite Hrows.
    rewrite (filter_ext_in _ (fun row : nat * string =>
                                (fst row <? 0 + Z.to_nat (Z.min a k))%nat)).
    - unfold enumerate. rewrite filter_positions_take.
      rewrite <- (map_snd_enumerate (unit_types_of p) 0) at 3.
      symmetry. apply firstn_map.
    - intros row Hrow. apply enumerate_bound in Hrow as [Hlt _].
      rewrite ads_for_this_unit_positive by assumption. fold k.
      destruct (Z.ltb_spec (Z.of_nat (fst row)) (Z.min a k));
        destruct (Nat.ltb_spec (fst row) (0 + Z.to_nat (Z.min a k))); try reflexivity; lia. }
  split; [exact Hnames|].
  rewrite <- (length_map UnitTypeName), Hnames, length_take. unfold k. lia.
Qed.

Lemma rows_go_to_first_unit_types_witness :
  let st := {| entries := []; updates := ∅; warnings := [] |} in
  exists new : list LogEntry,
    entries (process_project Sample.clock "North" "E101" st (Sample.S1, 2))
    = (entries st ++ new)%list
    /\ map UnitTypeName new
       = take (Z.to_nat (Z.min 2 (Z.of_nat (length (unit_types_of Sample.S1)))))
              (unit_types_of Sample.S1)
    /\ Z.of_nat (length new) = Z.min 2 (Z.of_nat (length (unit_types_of Sample.S1))).
Proof.
  intros st.
  apply (rows_go_to_first_unit_types Sample.clock "North" "E101" st Sample.S1 2).
  lia.
Defined.

Lemma process_project_rows_named (clock : Clock) (selected_region employee_id : string)
      (st : Ledger) (row : Project * Z) :
  exists new : list LogEntry,
    entries (process_project clock selected_region employee_id st row)
    = (entries st ++ new)%list
    /\ Forall (fun e => row_of_call clock selected_region employee_id e
                        /\ 0 < snd row
                        /\ LogProjectID e = ProjectID (fst row)
                        /\ UnitTypeName e ∈ unit_types_of (fst row)) new.
Proof.
  destruct row as [p a]. cbn [fst snd].
  destruct (Z.le_gt_cases a 0) as [Hle|Hpos].
  - exists []. rewrite process_project_skips by exact Hle.
    rewrite app_nil_r. split; [reflexivity|constructor].
  - destruct (process_project_rows clock selected_region employee_id st p a
                                   ltac:(lia)) as (new & Hnew & Hrows & Hcall).
    exists new. split; [exact Hnew|].
    rewrite Forall_forall in Hcall |- *. intros e He.
    destruct (Hcall e He) as [Hc Hpid].
    split; [exact Hc|]. split; [lia|]. split; [exact Hpid|].
    assert (In (UnitTypeName e, AdsAllocated e)
               (map (fun e => (UnitTypeName e, AdsAllocated e)) new)) as Hin.
    { apply (in_map (fun e => (UnitTypeName e, AdsAllocated e))).
      now apply list_elem_of_In. }
    rewrite Hrows in Hin. apply in_map_iff in Hin as (r & Hr & Hin).
    apply filter_In in Hin as [Hin _]. apply enumerate_bound in Hin as [_ Hin].
    injection Hr as <- _. now apply list_elem_of_In.
Qed.

Lemma loop_rows_named (clock : Clock) (selected_region employee_id : string)
      (rows : list (Project * Z)) (st : Ledger) :
  exists new : list LogEntry,
    entries (fold_left (process_project clock selected_region employee_id) rows st)
    = (entries st ++ new)%list
    /\ Forall (fun e => row_of_call clock selected_region employee_id e
                        /\ exists (i : nat) (p : Project) (a : Z),
                             rows !! i = Some (p, a) /\ 0 < a
                             /\ LogProjectID e = ProjectID p
                             /\ UnitTypeName e ∈ unit_types_of p) new.
Proof.
  revert st. induction rows as [|row rows IH]; intros st.
  - exists []. cbn. rewrite app_nil_r. split; [reflexivity|constructor].
  - cbn [fold_left].
    destruct (process_project_rows_named clock selected_region employee_id st row)
      as (new1 & H1 & P1).
    destruct (IH (process_project clock selected_region employee_id st row))
      as (new2 & H2 & P2).
    exists (new1 ++ new2)%list. rewrite H2, H1, <- app_assoc.
    split; [reflexivity|]. apply Forall_app. split.
    + eapply List.Forall_impl; [|exact P1]. intros e (Hc & Hpos & Hpid & Hut).
      split; [exact Hc|]. exists 0%nat, (fst row), (snd row).
      destruct row; cbn in *. auto.
    + eapply List.Forall_impl; [|exact P2].
      intros e (Hc & i & p & a & Hi & Hrest).
      split; [exact Hc|]. exists (S i), p, a. auto.
Qed.

(** X7. Every row of the returned log carries the employee and the region
    the call was given, as they were given, and one and the same date; it
    names an eligible project with a positive award and one of the unit
    types parsed for that project. *)
Theorem log_rows_belong_to_the_call
        {pandas : Pandas} (clock : Clock) (projects_df : DataFrame)
        (selected_region : string) (num_ads_to_distribute : Z) (employee_id : string) :
  Forall
    (fun e =>
       EmployeeID e = employee_id
       /\ LogRegionName e = selected_region
       /\ DistributionDate e = current_date clock
       /\ exists (i : nat) (p : Project) (a : Z),
            eligible projects_df selected_region !! i = Some p
            /\ awards projects_df selected_region num_ads_to_distribute !! i = Some a
            /\ 0 < a
            /\ LogProjectID e = ProjectID p
            /\ UnitTypeName e ∈ unit_types_of p)
    (distribution_log
       (snd (distribute_ads_automatically clock projects_df selected_region
                                          num_ads_to_distribute employee_id))).
Proof.
  destruct (distribute_results clock projects_df selected_region
                               num_ads_to_distribute employee_id) as (Hlog & _ & _).
  rewrite Hlog.
  destruct (loop_rows_named clock selected_region employee_id
              (awarded_rows projects_df selected_region num_ads_to_distribute)
              {| entries := []; updates := ∅; warnings := [] |})
    as (new & -> & Hrows).
  cbn [entries app]. eapply List.Forall_impl; [|exact Hrows].
  intros e ((He & Hr & Hd) & i & p & a & Hi & Hpos & Hpid & Hut).
  repeat split; try assumption.
  exists i, p, a. unfold awarded_rows in Hi.
  destruct (allocatesb _ _); [|discriminate].
  apply lookup_zip in Hi as [Hp Ha]. auto.
Qed.

(** ** The split over the unit types is even *)

(** X8. The sub-awards of a project never differ by more than one, and a
    unit type listed earlier never receives less than one listed later. *)
Theorem sub_awards_are_even (a : Z) (k i j : nat) (x y : Z) :
  (i <= j)%nat ->
  sub_awards a k !! i = Some x ->
  sub_awards a k !! j = Some y ->
  y <= x <= y + 1.
Proof.
  intros Hij Hx Hy.
  assert (j < k)%nat as Hj
      by (apply lookup_lt_Some in Hy; unfold sub_awards in Hy;
          now rewrite length_map, length_seq in Hy).
  rewrite lookup_sub_awards in Hx, Hy by lia.
  apply (inj Some) in Hx, Hy. subst x y. unfold ads_for_this_unit.
  destruct (Z.ltb_spec (Z.of_nat i) (a mod Z.of_nat k));
    destruct (Z.ltb_spec (Z.of_nat j) (a mod Z.of_nat k)); lia.
Qed.

Lemma sub_awards_are_even_witness : 10 <= 11 <= 10 + 1.
Proof.
  apply (sub_awards_are_even 21 2 0 1 11 10).
  - lia.
  - reflexivity.
  - reflexivity.
Defined.

(** ** Sums of fractional parts *)








Section Fractions.

Context {pandas : Pandas}.

Variables (scores : list Q) (n : Z).

Hypothesis total_nonzero : ~ (Qsum scores == 0)%Q.




End Fractions.

(** ** Awards and shares *)


(** ** Warnings of the loop over the projects *)

Lemma process_project_warnings (clock : Clock) (selected_region employee_id : string)
      (st : Ledger) (row : Project * Z) :
  warnings (process_project clock selected_region employee_id st row)
  = (warnings st ++ (if unlogged row then [notice_for (fst row)] else []))%list.
Proof.
  destruct row as [p a].
  unfold process_project, unlogged, unit_types_of, notice_for. cbn [fst snd].
  destruct (Z.leb_spec a 0) as [Hle|Hgt].
  - replace (0 <? a) with false by (symmetry; apply Z.ltb_ge; lia).
    cbn [andb]. now rewrite app_nil_r.
  - replace (0 <? a) with true by (symmetry; apply Z.ltb_lt; lia). cbn [andb].
    destruct (UnitTypesInProject p) as [s|]; [|reflexivity].
    destruct (negb (PyStr.truthy (PyStr.strip s))); [reflexivity|].
    destruct (parse_unit_types s); [reflexivity|].
    cbn [warnings]. now rewrite app_nil_r.
Qed.

Lemma loop_warnings (clock : Clock) (selected_region employee_id : string)
      (rows : list (Project * Z)) (st : Ledger) :
  warnings (fold_left (process_project clock selected_region employee_id) rows st)
  = (warnings st
     ++ map (fun row => notice_for (fst row)) (List.filter unlogged rows))%list.
Proof.
  revert st. induction rows as [|row rows IH]; intros st.
  - cbn. now rewrite app_nil_r.
  - cbn [fold_left List.filter]. rewrite IH, process_project_warnings.
    destruct (unlogged row); cbn [map]; [|now rewrite app_nil_r].
    now rewrite <- app_assoc.
Qed.

(** X11. When the call allocates, it raises exactly one warning for every
    positively awarded project whose unit-type cell is missing, blank or
    holds no name, in the order of the projects, and no other warning. *)
Theorem one_warning_per_unlogged_project
        {pandas : Pandas} (clock : Clock) (projects_df : DataFrame)
        (selected_region : string) (num_ads_to_distribute : Z) (employee_id : string) :
  allocates projects_df selected_region ->
  notices (snd (distribute_ads_automatically clock projects_df selected_region
                                             num_ads_to_distribute employee_id))
  = map (fun row => notice_for (fst row))
        (List.filter unlogged
                     (awarded_rows projects_df selected_region num_ads_to_distribute)).
Proof.
  intros Hrun. rewrite distribute_allocates by exact Hrun.
  cbn [snd notices]. rewrite loop_warnings. cbn [warnings app].
  unfold awarded_rows. apply allocatesb_true in Hrun. now rewrite Hrun.
Qed.

Lemma one_warning_per_unlogged_project_witness :
  notices (snd (distribute_ads_automatically (pandas := pandas_stable) Sample.clock
                  Sample.with_blank_units "North" 50 "E101"))
  = map (fun row => notice_for (fst row))
        (List.filter unlogged
                     (awarded_rows (pandas := pandas_stable)
                                   Sample.with_blank_units "North" 50)).
Proof.
  apply (one_warning_per_unlogged_project (pandas := pandas_stable) Sample.clock
           Sample.with_blank_units "North" 50 "E101").
  repeat split. vm_compute. discriminate.
Defined.

(** ** The handler of the distribution button *)

Section Handler.

Context {pandas : Pandas}.

Variables (gs : SheetCall -> bool) (clock : Clock) (st : Session).
Variables (employee_name selected_employee_id selected_region : string).
Variables (num_ads_to_distribute : Z) (current_balance current_global_balance : number).

Let out : Outcome :=
  snd (distribute_ads_automatically clock (projects st) selected_region
                                    num_ads_to_distribute selected_employee_id).

Let handled : Handled :=
  on_distribute gs clock st employee_name selected_employee_id selected_region
                num_ads_to_distribute current_balance current_global_balance.

Lemma allocating_call_returns_request :
  allocates (projects st) selected_region ->
  total_ads_allocated out = num_ads_to_distribute.
Proof.
  intros Hrun. unfold out. rewrite distribute_allocates by exact Hrun.
  cbn [snd total_ads_allocated]. unfold awards. apply Zsum_AllocatedAdsProject.
  destruct Hrun as (_ & _ & Hpos). intros H0. rewrite H0 in Hpos.
  now apply Qlt_irrefl in Hpos.
Qed.

Lemma early_return_is_empty :
  allocatesb (projects st) selected_region = false ->
  distribution_log out = [] /\ project_ads_update out = ∅
  /\ total_ads_allocated out = 0.
Proof.
  intros Hno.
  destruct (distribute_results clock (projects st) selected_region
                               num_ads_to_distribute selected_employee_id)
    as (Hlog & Hupd & Htot).
  fold out in Hlog, Hupd, Htot. unfold awarded_rows in Hlog, Hupd, Htot.
  rewrite Hno in Hlog, Hupd, Htot. now repeat split.
Qed.

Lemma rejected_request :
  accepted selected_employee_id selected_region num_ads_to_distribute current_balance
  = false ->
  calls handled = [] /\ session handled = st /\ rerun handled = false
  /\ Forall (fun m => match m with
                      | PleaseSelect | MustBePositive | InsufficientBalance _ _
                      | GlobalAlsoInsufficient _ _ | Suggestion _ => True
                      | _ => False
                      end) (shown handled).
Proof.
  unfold accepted, handled, on_distribute. intros Hrej.
  destruct (PyStr.truthy selected_employee_id); cbn [negb orb andb] in *;
    [|repeat split; repeat constructor].
  destruct (PyStr.truthy selected_region); cbn [negb orb andb] in *;
    [|repeat split; repeat constructor].
  destruct (Z.leb_spec num_ads_to_distribute 0) as [Hle|Hgt];
    [repeat split; repeat constructor|].
  replace (0 <? num_ads_to_distribute) with true in Hrej
    by (symmetry; apply Z.ltb_lt; lia).
  cbn [andb] in Hrej. apply negb_false_iff in Hrej. rewrite Hrej.
  cbn [calls session rerun shown]. repeat split.
  constructor; [exact I|].
  apply Forall_app. split.
  - destruct (less_than_int current_global_balance _); repeat constructor.
  - destruct (positive _); repeat constructor.
Qed.

Lemma accepted_request :
  accepted selected_employee_id selected_region num_ads_to_distribute current_balance
  = true ->
  PyStr.truthy selected_employee_id = true /\ PyStr.truthy selected_region = true
  /\ 0 < num_ads_to_distribute
  /\ less_than_int current_balance num_ads_to_distribute = false.
Proof.
  unfold accepted. rewrite !andb_true_iff, negb_true_iff, Z.ltb_lt. tauto.
Qed.

Lemma accepted_and_allocating :
  accepted selected_employee_id selected_region num_ads_to_distribute current_balance
  = true ->
  allocates (projects st) selected_region ->
  let asked := sheet_calls selected_employee_id out in
  calls handled = asked
  /\ rerun handled = forallb gs asked
  /\ data_loaded (session handled)
     = (if forallb gs asked then false else data_loaded st)
  /\ shown handled
     = (map FromDistribution (notices out)
        ++ [Calculated num_ads_to_distribute; Attempting]
        ++ map UpdateFailed (List.filter (fun call => negb (gs call)) asked)
        ++ [if forallb gs asked then SheetsUpdated else SomeUpdateFailed])%list.
Proof.
  intros Hacc Hrun. destruct (accepted_request Hacc) as (Hid & Hreg & Hn & Hbal).
  pose proof (allocating_call_returns_request Hrun) as Htot.
  unfold handled, on_distribute. rewrite Hid, Hreg, Hbal. cbn [negb orb].
  replace (num_ads_to_distribute <=? 0) with false by (symmetry; apply Z.leb_gt; lia).
  fold out. rewrite Htot.
  replace (0 <? num_ads_to_distribute) with true by (symmetry; apply Z.ltb_lt; lia).
  cbn [calls rerun session shown data_loaded].
  repeat split; now destruct (forallb gs _).
Qed.

Lemma accepted_and_idle :
  accepted selected_employee_id selected_region num_ads_to_distribute current_balance
  = true ->
  allocatesb (projects st) selected_region = false ->
  calls handled = [] /\ rerun handled = false
  /\ data_loaded (session handled) = data_loaded st
  /\ shown handled = (map FromDistribution (notices out) ++ [NothingDistributed])%list.
Proof.
  intros Hacc Hno. destruct (accepted_request Hacc) as (Hid & Hreg & Hn & Hbal).
  destruct (early_return_is_empty Hno) as (Hlog & _ & Htot).
  unfold handled, on_distribute. rewrite Hid, Hreg, Hbal. cbn [negb orb].
  replace (num_ads_to_distribute <=? 0) with false by (symmetry; apply Z.leb_gt; lia).
  fold out. rewrite Htot, Hlog. cbn. now repeat split.
Qed.

(** What an accepted request does, by the total the call returns. *)
Lemma accepted_run :
  accepted selected_employee_id selected_region num_ads_to_distribute current_balance
  = true ->
  let asked := sheet_calls selected_employee_id out in
  let warned := map FromDistribution (notices out) in
  calls handled = (if 0 <? total_ads_allocated out then asked else [])
  /\ last_distribution_log (session handled) = distribution_log out
  /\ shown handled
     = (warned
        ++ (if 0 <? total_ads_allocated out
            then [Calculated (total_ads_allocated out); Attempting]
                 ++ map UpdateFailed (List.filter (fun call => negb (gs call)) asked)
                 ++ [if forallb gs asked then SheetsUpdated else SomeUpdateFailed]
            else if negb (bool_decide (distribution_log out = []))
                 then [ZeroAllocated]
                 else [NothingDistributed]))%list.
Proof.
  intros Hacc. destruct (accepted_request Hacc) as (Hid & Hreg & Hn & Hbal).
  unfold handled, on_distribute. rewrite Hid, Hreg, Hbal. cbn [negb orb].
  replace (num_ads_to_distribute <=? 0) with false by (symmetry; apply Z.leb_gt; lia).
  fold out. cbv zeta.
  destruct (0 <? total_ads_allocated out); [now repeat split|].
  destruct (negb (bool_decide (distribution_log out = []))); now repeat split.
Qed.

End Handler.

Lemma sheet_calls_debits (selected_employee_id : string) (out : Outcome) :
  UpdateEmployeeBalances {[ selected_employee_id := total_ads_allocated out ]}
    ∈ sheet_calls selected_employee_id out
  /\ UpdateGlobalBudget (total_ads_allocated out) ∈ sheet_calls selected_employee_id out.
Proof.
  unfold sheet_calls. split.
  - apply elem_of_app. right. apply elem_of_cons. now left.
  - apply elem_of_app. right. apply elem_of_cons. right.
    apply elem_of_app. right. apply elem_of_cons. now left.
Qed.

Lemma sheet_calls_shape (selected_employee_id : string) (out : Outcome) :
  Forall (fun call =>
            match call with
            | AppendLog log => log = distribution_log out /\ log <> []
            | UpdateEmployeeBalances m =>
                m = {[ selected_employee_id := total_ads_allocated out ]}
            | UpdateProjectAds m => m = project_ads_update out /\ m <> ∅
            | UpdateGlobalBudget a => a = total_ads_allocated out
            end)
         (sheet_calls selected_employee_id out).
Proof.
  unfold sheet_calls. repeat (apply Forall_app; split).
  - destruct (bool_decide_reflect (distribution_log out = [])); repeat constructor.
    assumption.
  - repeat constructor.
  - destruct (bool_decide_reflect (project_ads_update out = ∅)); repeat constructor.
    assumption.
  - repeat constructor.
Qed.


(** X13. Whatever the handler asks of the sheets, the employee's balance and
    the global budget are debited by one and the same amount, the total the
    call returned, which is then positive: an employee update carries the
    selected employee with that total, a budget update carries that total, a
    log is appended only when it has rows and a project update is sent only
    when the map has entries; and when anything is asked, both debits
    are. *)
Theorem every_debit_is_the_returned_total
        {pandas : Pandas} (gs : SheetCall -> bool) (clock : Clock) (st : Session)
        (employee_name selected_employee_id selected_region : string)
        (num_ads_to_distribute : Z) (current_balance current_global_balance : number) :
  let out := snd (distribute_ads_automatically clock (projects st) selected_region
                    num_ads_to_distribute selected_employee_id) in
  let asked :=
    calls (on_distribute gs clock st employee_name selected_employee_id selected_region
                         num_ads_to_distribute current_balance current_global_balance) in
  Forall (fun call =>
            match call with
            | AppendLog log => log = distribution_log out /\ log <> []
            | UpdateEmployeeBalances m =>
                m = {[ selected_employee_id := total_ads_allocated out ]}
            | UpdateProjectAds m => m = project_ads_update out /\ m <> ∅
            | UpdateGlobalBudget a => a = total_ads_allocated out
            end) asked
  /\ (asked <> [] ->
      0 < total_ads_allocated out
      /\ UpdateEmployeeBalances {[ selected_employee_id := total_ads_allocated out ]}
           ∈ asked
      /\ UpdateGlobalBudget (total_ads_allocated out) ∈ asked).
Proof.
  intros out asked. unfold asked.
  destruct (accepted selected_employee_id selected_region num_ads_to_distribute
                     current_balance) eqn:Hacc.
  - destruct (accepted_run gs clock st employee_name selected_employee_id
                selected_region num_ads_to_distribute current_balance
                current_global_balance Hacc) as (Hcalls & _).
    rewrite Hcalls. fold out.
    destruct (Z.ltb_spec 0 (total_ads_allocated out)) as [Hpos|Hle].
    + split; [apply sheet_calls_shape|]. intros _.
      split; [exact Hpos|apply sheet_calls_debits].
    + split; [constructor|congruence].
  - destruct (rejected_request gs clock st employee_name selected_employee_id
                selected_region num_ads_to_distribute current_balance
                current_global_balance Hacc) as (Hcalls & _).
    rewrite Hcalls. split; [constructor|congruence].
Qed.

(** X14. The global budget is never checked before a distribution: the
    sheet updates, the session and the rerun are the same whatever the
    global balance is, and when the employee's balance covers the request
    the whole outcome of the handler is the same. *)
Theorem global_budget_is_not_checked
        {pandas : Pandas} (gs : SheetCall -> bool) (clock : Clock) (st : Session)
        (employee_name selected_employee_id selected_region : string)
        (num_ads_to_distribute : Z) (current_balance : number)
        (current_global_balance other_global_balance : number) :
  let handled :=
    on_distribute gs clock st employee_name selected_employee_id selected_region
                  num_ads_to_distribute current_balance current_global_balance in
  let handled' :=
    on_distribute gs clock st employee_name selected_employee_id selected_region
                  num_ads_to_distribute current_balance other_global_balance in
  calls handled = calls handled'
  /\ session handled = session handled'
  /\ rerun handled = rerun handled'
  /\ (less_than_int current_balance num_ads_to_distribute = false -> handled = handled').
Proof.
  cbv zeta. unfold on_distribute.
  destruct (negb (PyStr.truthy selected_employee_id) || negb (PyStr.truthy selected_region));
    [now repeat split|].
  destruct (num_ads_to_distribute <=? 0); [now repeat split|].
  destruct (less_than_int current_balance num_ads_to_distribute);
    [repeat split; discriminate|].
  now repeat split.
Qed.

(** ** What an asked update tells about the request *)

Lemma asked_means_accepted
      {pandas : Pandas} (gs : SheetCall -> bool) (clock : Clock) (st : Session)
      (employee_name selected_employee_id selected_region : string)
      (num_ads_to_distribute : Z) (current_balance current_global_balance : number)
      (call : SheetCall) :
  let out := snd (distribute_ads_automatically clock (projects st) selected_region
                    num_ads_to_distribute selected_employee_id) in
  call ∈ calls (on_distribute gs clock st employee_name selected_employee_id
                              selected_region num_ads_to_distribute current_balance
                              current_global_balance) ->
  0 < num_ads_to_distribute
  /\ 0 < total_ads_allocated out
  /\ calls (on_distribute gs clock st employee_name selected_employee_id
                          selected_region num_ads_to_distribute current_balance
                          current_global_balance)
     = sheet_calls selected_employee_id out.
Proof.
  intros out Hin.
  destruct (accepted selected_employee_id selected_region num_ads_to_distribute
                     current_balance) eqn:Hacc.
  - destruct (accepted_run gs clock st employee_name selected_employee_id
                selected_region num_ads_to_distribute current_balance
                current_global_balance Hacc) as (Hcalls & _).
    destruct (accepted_request _ _ _ _ Hacc) as (_ & _ & Hn & _).
    rewrite Hcalls in Hin |- *. fold out in Hin |- *.
    destruct (Z.ltb_spec 0 (total_ads_allocated out)) as [Hpos|Hle].
    + now repeat split.
    + now apply elem_of_nil in Hin.
  - destruct (rejected_request gs clock st employee_name selected_employee_id
                selected_region num_ads_to_distribute current_balance
                current_global_balance Hacc) as (Hcalls & _).
    rewrite Hcalls in Hin. now apply elem_of_nil in Hin.
Qed.




(** ** What the page shows *)

Lemma UpdateFailed_shown (gs : SheetCall -> bool) (asked : list SheetCall)
      (warned : list Notice) (total : Z) (call : SheetCall) :
  UpdateFailed call
    ∈ (map FromDistribution warned
       ++ [Calculated total; Attempting]
       ++ map UpdateFailed (List.filter (fun c => negb (gs c)) asked)
       ++ [if forallb gs asked then SheetsUpdated else SomeUpdateFailed])%list
  <-> call ∈ asked /\ gs call = false.
Proof.
  rewrite !elem_of_app, !list_elem_of_In, !in_map_iff. split.
  - intros [(w & Hw & _)|[Hin|[(c & Hc & Hin)|Hin]]].
    + discriminate.
    + destruct Hin as [Hin|[Hin|[]]]; discriminate.
    + injection Hc as ->. apply filter_In in Hin as [Hin Hgs].
      apply negb_true_iff in Hgs. split; [exact Hin|exact Hgs].
    + destruct (forallb gs asked); destruct Hin as [Hin|[]]; discriminate.
  - intros [Hin Hgs]. right. right. left. exists call. split; [reflexivity|].
    apply filter_In. split; [exact Hin|]. now rewrite Hgs.
Qed.

(** X16. Every sheet update that fails is reported and nothing else is
    reported as failed; the page is rerun exactly when updates were asked and
    all of them succeeded; the data is marked for reloading exactly when the
    page is rerun. *)
Theorem failures_are_reported
        {pandas : Pandas} (gs : SheetCall -> bool) (clock : Clock) (st : Session)
        (employee_name selected_employee_id selected_region : string)
        (num_ads_to_distribute : Z) (current_balance current_global_balance : number) :
  let handled :=
    on_distribute gs clock st employee_name selected_employee_id selected_region
                  num_ads_to_distribute current_balance current_global_balance in
  (forall call : SheetCall,
      UpdateFailed call ∈ shown handled <-> call ∈ calls handled /\ gs call = false)
  /\ (rerun handled = true <->
      calls handled <> [] /\ forall call, call ∈ calls handled -> gs call = true)
  /\ data_loaded (session handled)
     = (if rerun handled then false else data_loaded st).
Proof.
  intros handled. unfold handled.
  destruct (accepted selected_employee_id selected_region num_ads_to_distribute
                     current_balance) eqn:Hacc.
  - destruct (allocatesb (projects st) selected_region) eqn:Hrun.
    + apply allocatesb_true in Hrun.
      destruct (accepted_and_allocating gs clock st employee_name selected_employee_id
                  selected_region num_ads_to_distribute current_balance
                  current_global_balance Hacc Hrun) as (Hcalls & Hrerun & Hload & Hshown).
      rewrite Hcalls, Hrerun, Hload, Hshown.
      split; [intros call; apply UpdateFailed_shown|]. split; [|reflexivity].
      rewrite forallb_forall. split.
      * intros Hall. split.
        -- intros Hnil.
           destruct (sheet_calls_debits selected_employee_id
                       (snd (distribute_ads_automatically clock (projects st)
                               selected_region num_ads_to_distribute
                               selected_employee_id))) as [Hin _].
           rewrite Hnil in Hin. now apply elem_of_nil in Hin.
        -- intros call Hin. now apply Hall, list_elem_of_In.
      * intros [_ Hall] call Hin. now apply Hall, list_elem_of_In.
    + destruct (accepted_and_idle gs clock st employee_name selected_employee_id
                  selected_region num_ads_to_distribute current_balance
                  current_global_balance Hacc Hrun) as (Hcalls & Hrerun & Hload & Hshown).
      rewrite Hcalls, Hrerun, Hload, Hshown. split; [|split; [|reflexivity]].
      * intros call. rewrite elem_of_app, !list_elem_of_In, in_map_iff. split.
        -- intros [(w & Hw & _)|[Hin|[]]]; discriminate.
        -- intros [[] _].
      * split; [discriminate|]. now intros [Hne _].
  - destruct (rejected_request gs clock st employee_name selected_employee_id
                selected_region num_ads_to_distribute current_balance
                current_global_balance Hacc) as (Hcalls & Hsession & Hrerun & Hshown).
    rewrite Hcalls, Hsession, Hrerun. split; [|split; [|reflexivity]].
    + intros call. split.
      * intros Hin. rewrite Forall_forall in Hshown. now apply Hshown in Hin.
      * intros [Hin _]. now apply elem_of_nil in Hin.
    + split; [discriminate|]. now intros [Hne _].
Qed.

(** ** The updates add up *)

Lemma total_is_map_sum
      {pandas : Pandas} (clock : Clock) (projects_df : DataFrame)
      (selected_region : string) (n : Z) (employee_id : string) :
  0 <= n ->
  NoDup (map ProjectID (eligible projects_df selected_region)) ->
  let out := snd (distribute_ads_automatically clock projects_df selected_region
                                               n employee_id) in
  map_sum (project_ads_update out) = total_ads_allocated out.
Proof.
  intros Hn Hnd out.
  destruct (distribute_results clock projects_df selected_region n employee_id)
    as (_ & Hupd & Htot).
  fold out in Hupd, Htot. rewrite loop_updates in Hupd. cbn [updates] in Hupd.
  rewrite Htot, Hupd, map_sum_record_updates.
  - rewrite map_sum_empty. lia.
  - now apply awarded_rows_ids.
  - apply Forall_forall. intros row _. apply lookup_empty.
  - now apply awarded_rows_nonneg.
Qed.

Lemma log_sum_of_call
      {pandas : Pandas} (clock : Clock) (projects_df : DataFrame)
      (selected_region : string) (n : Z) (employee_id : string) :
  0 <= n ->
  let out := snd (distribute_ads_automatically clock projects_df selected_region
                                               n employee_id) in
  Zsum (map AdsAllocated (distribution_log out))
  = total_ads_allocated out
    - Zsum (map snd (List.filter unlogged (awarded_rows projects_df selected_region n)))
  /\ Forall (fun x => 0 < x) (map AdsAllocated (distribution_log out)).
Proof.
  intros Hn out.
  destruct (distribute_results clock projects_df selected_region n employee_id)
    as (Hlog & _ & Htot).
  fold out in Hlog, Htot.
  destruct (loop_entries clock selected_region employee_id
                         (awarded_rows projects_df selected_region n)
                         {| entries := []; updates := ∅; warnings := [] |})
    as (new & Hnew & Hamt & _).
  cbn [entries app] in Hnew. rewrite Hnew in Hlog. rewrite Hlog, Hamt, Htot.
  split; [|apply Forall_logged_positive].
  apply Zsum_concat_logged. now apply awarded_rows_nonneg.
Qed.

(** A call that returns log rows returns a positive total. *)
Lemma log_rows_imply_positive_total
      {pandas : Pandas} (clock : Clock) (projects_df : DataFrame)
      (selected_region : string) (n : Z) (employee_id : string) :
  0 <= n ->
  let out := snd (distribute_ads_automatically clock projects_df selected_region
                                               n employee_id) in
  distribution_log out <> [] ->
  0 < Zsum (map AdsAllocated (distribution_log out)) <= total_ads_allocated out.
Proof.
  intros Hn out Hne.
  destruct (log_sum_of_call clock projects_df selected_region n employee_id Hn)
    as [Hsum Hpos].
  fold out in Hsum, Hpos.
  assert (0 <= Zsum (map snd (List.filter unlogged
                                (awarded_rows projects_df selected_region n)))) as Hge.
  { apply Zsum_nonneg, List.Forall_map, Forall_forall. intros row Hrow.
    apply list_elem_of_In, filter_In in Hrow as [Hrow _].
    apply list_elem_of_In in Hrow.
    eapply (proj1 (Forall_forall _ _)
                  (awarded_rows_nonneg projects_df selected_region n Hn)); exact Hrow. }
  split; [|lia].
  destruct (distribution_log out) as [|e log]; [congruence|].
  cbn [map] in Hpos |- *. apply Forall_cons in Hpos as [He Hrest].
  rewrite Zsum_cons.
  assert (0 <= Zsum (map AdsAllocated log))
    by (apply Zsum_nonneg; eapply List.Forall_impl; [|exact Hrest];
        intros x Hx; cbv beta in Hx; lia).
  lia.
Qed.

(** X17. The warning that a distribution was calculated with 0 ads allocated
    is never shown: its branch needs a returned total that is not positive
    together with a returned log that has rows, and every row of the log
    carries a positive part of an award that is counted in the total, no
    award being negative. *)
Theorem zero_allocated_is_never_shown
        {pandas : Pandas} (gs : SheetCall -> bool) (clock : Clock) (st : Session)
        (employee_name selected_employee_id selected_region : string)
        (num_ads_to_distribute : Z) (current_balance current_global_balance : number) :
  ZeroAllocated
    ∉ shown (on_distribute gs clock st employee_name selected_employee_id selected_region
                           num_ads_to_distribute current_balance current_global_balance).
Proof.
  destruct (accepted selected_employee_id selected_region num_ads_to_distribute
                     current_balance) eqn:Hacc.
  - destruct (accepted_run gs clock st employee_name selected_employee_id
                selected_region num_ads_to_distribute current_balance
                current_global_balance Hacc) as (_ & _ & Hshown).
    destruct (accepted_request _ _ _ _ Hacc) as (_ & _ & Hn & _).
    set (out := snd (distribute_ads_automatically clock (projects st) selected_region
                       num_ads_to_distribute selected_employee_id)) in *.
    rewrite Hshown, elem_of_app, !list_elem_of_In, in_map_iff.
    intros [(w & Hw & _)|Hin]; [discriminate|].
    destruct (Z.ltb_spec 0 (total_ads_allocated out)) as [Hpos|Hle].
    + apply in_app_or in Hin as [Hin|Hin];
        [destruct Hin as [Hin|[Hin|[]]]; discriminate|].
      apply in_app_or in Hin as [Hin|Hin].
      * apply in_map_iff in Hin as (c & Hc & _). discriminate.
      * destruct (forallb gs _); destruct Hin as [Hin|[]]; discriminate.
    + destruct (bool_decide_reflect (distribution_log out = [])) as [Hnil|Hrows];
        cbn [negb] in Hin.
      * destruct Hin as [Hin|[]]; discriminate.
      * pose proof (log_rows_imply_positive_total clock (projects st) selected_region
                      num_ads_to_distribute selected_employee_id ltac:(lia) Hrows)
          as Hsum.
        fold out in Hsum. lia.
  - destruct (rejected_request gs clock st employee_name selected_employee_id
                selected_region num_ads_to_distribute current_balance
                current_global_balance Hacc) as (_ & _ & _ & Hshown).
    intros Hin. rewrite Forall_forall in Hshown. now apply Hshown in Hin.
Qed.

(** X18. When the eligible projects have distinct identifiers, the
    per-project increments the handler sends to the Projects sheet add up to
    the total the call returned, the amount by which the employee and the
    global budget are debited in the same run. *)
Theorem project_increments_add_up_to_the_debit
        {pandas : Pandas} (gs : SheetCall -> bool) (clock : Clock) (st : Session)
        (employee_name selected_employee_id selected_region : string)
        (num_ads_to_distribute : Z) (current_balance current_global_balance : number)
        (m : gmap string Z) :
  let out := snd (distribute_ads_automatically clock (projects st) selected_region
                    num_ads_to_distribute selected_employee_id) in
  let asked :=
    calls (on_distribute gs clock st employee_name selected_employee_id selected_region
                         num_ads_to_distribute current_balance current_global_balance) in
  NoDup (map ProjectID (eligible (projects st) selected_region)) ->
  UpdateProjectAds m ∈ asked ->
  map_sum m = total_ads_allocated out
  /\ UpdateEmployeeBalances {[ selected_employee_id := total_ads_allocated out ]} ∈ asked
  /\ UpdateGlobalBudget (total_ads_allocated out) ∈ asked.
Proof.
  intros out asked Hnd Hin. unfold asked in *.
  destruct (asked_means_accepted gs clock st employee_name selected_employee_id
              selected_region num_ads_to_distribute current_balance
              current_global_balance _ Hin) as (Hn & Hpos & Hcalls).
  fold out in Hpos, Hcalls. rewrite Hcalls in Hin |- *.
  pose proof (sheet_calls_shape selected_employee_id out) as Hshape.
  rewrite Forall_forall in Hshape. destruct (Hshape _ Hin) as [-> _].
  split; [|apply sheet_calls_debits].
  apply (total_is_map_sum clock (projects st) selected_region num_ads_to_distribute
           selected_employee_id); [lia|exact Hnd].
Qed.

(** X19. When the handler appends a log to the sheet, the amounts of its rows
    sum to the total the call returned, by which the employee is debited,
    minus the awards of the positively awarded projects without unit types;
    the sum is positive and never exceeds the debit. *)
Theorem appended_log_is_covered_by_the_debit
        {pandas : Pandas} (gs : SheetCall -> bool) (clock : Clock) (st : Session)
        (employee_name selected_employee_id selected_region : string)
        (num_ads_to_distribute : Z) (current_balance current_global_balance : number)
        (log : list LogEntry) :
  let out := snd (distribute_ads_automatically clock (projects st) selected_region
                    num_ads_to_distribute selected_employee_id) in
  let asked :=
    calls (on_distribute gs clock st employee_name selected_employee_id selected_region
                         num_ads_to_distribute current_balance current_global_balance) in
  AppendLog log ∈ asked ->
  Zsum (map AdsAllocated log)
  = total_ads_allocated out
    - Zsum (map snd (List.filter unlogged
                       (awarded_rows (projects st) selected_region num_ads_to_distribute)))
  /\ 0 < Zsum (map AdsAllocated log) <= total_ads_allocated out
  /\ UpdateEmployeeBalances {[ selected_employee_id := total_ads_allocated out ]} ∈ asked.
Proof.
  intros out asked Hin. unfold asked in *.
  destruct (asked_means_accepted gs clock st employee_name selected_employee_id
              selected_region num_ads_to_distribute current_balance
              current_global_balance _ Hin) as (Hn & Hpos & Hcalls).
  fold out in Hpos, Hcalls. rewrite Hcalls in Hin |- *.
  pose proof (sheet_calls_shape selected_employee_id out) as Hshape.
  rewrite Forall_forall in Hshape. destruct (Hshape _ Hin) as [-> Hne].
  destruct (log_sum_of_call clock (projects st) selected_region num_ads_to_distribute
              selected_employee_id ltac:(lia)) as [Hsum _].
  fold out in Hsum.
  split; [exact Hsum|]. split; [|apply sheet_calls_debits].
  apply (log_rows_imply_positive_total clock (projects st) selected_region
           num_ads_to_distribute selected_employee_id ltac:(lia) Hne).
Qed.

Lemma project_increments_add_up_to_the_debit_witness :
  let out := snd (distribute_ads_automatically (pandas := pandas_stable) Sample.clock
                    Sample.with_blank_units "North" 50 "E101") in
  let asked :=
    calls (on_distribute (pandas := pandas_stable) Page.sheets_ok Sample.clock
                         (Page.session Sample.with_blank_units) "Ann" "E101" "North"
                         50 (Some 60%Q) (Some 0%Q)) in
  map_sum (project_ads_update out) = total_ads_allocated out
  /\ UpdateEmployeeBalances {[ "E101" := total_ads_allocated out ]} ∈ asked
  /\ UpdateGlobalBudget (total_ads_allocated out) ∈ asked.
Proof.
  apply (project_increments_add_up_to_the_debit (pandas := pandas_stable) Page.sheets_ok
           Sample.clock (Page.session Sample.with_blank_units) "Ann" "E101" "North"
           50 (Some 60%Q) (Some 0%Q)).
  - apply (bool_decide_unpack _). vm_compute. exact I.
  - apply list_elem_of_In. vm_compute. right. right. left. reflexivity.
Defined.

Lemma appended_log_is_covered_by_the_debit_witness :
  let out := snd (distribute_ads_automatically (pandas := pandas_stable) Sample.clock
                    Sample.with_blank_units "North" 50 "E101") in
  let asked :=
    calls (on_distribute (pandas := pandas_stable) Page.sheets_ok Sample.clock
                         (Page.session Sample.with_blank_units) "Ann" "E101" "North"
                         50 (Some 60%Q) (Some 0%Q)) in
  Zsum (map AdsAllocated (distribution_log out))
  = total_ads_allocated out
    - Zsum (map snd (List.filter unlogged
                       (awarded_rows (pandas := pandas_stable)
                                     Sample.with_blank_units "North" 50)))
  /\ 0 < Zsum (map AdsAllocated (distribution_log out)) <= total_ads_allocated out
  /\ UpdateEmployeeBalances {[ "E101" := total_ads_allocated out ]} ∈ asked.
Proof.
  apply (appended_log_is_covered_by_the_debit (pandas := pandas_stable) Page.sheets_ok
           Sample.clock (Page.session Sample.with_blank_units) "Ann" "E101" "North"
           50 (Some 60%Q) (Some 0%Q)).
  apply list_elem_of_In. vm_compute. left. reflexivity.
Defined.

(** ** A region without unit types *)

Lemma Zsum_positive_has_positive (l : list Z) :
  0 < Zsum l -> exists (i : nat) (a : Z), l !! i = Some a /\ 0 < a.
Proof.
  induction l as [|x l IH]; [cbn; lia|]. rewrite Zsum_cons. intros Hsum.
  destruct (Z.ltb_spec 0 x) as [Hx|Hx].
  - exists 0%nat, x. now split.
  - destruct IH as (i & a & Hi & Ha); [lia|]. exists (S i), a. now split.
Qed.

Lemma logged_amounts_without_units (row : Project * Z) :
  unit_types_of (fst row) = [] -> logged_amounts row = [].
Proof.
  intros Hnone. unfold logged_amounts. rewrite Hnone.
  now destruct (snd row <=? 0).
Qed.

(** X20. When no eligible project of the region lists a unit type and the
    call returns a positive total, an accepted request debits the employee
    and the global budget by that total and raises the projects' counters,
    while no log is appended and the session keeps an empty log. *)
Theorem debit_without_log
        {pandas : Pandas} (gs : SheetCall -> bool) (clock : Clock) (st : Session)
        (employee_name selected_employee_id selected_region : string)
        (num_ads_to_distribute : Z) (current_balance current_global_balance : number) :
  let out := snd (distribute_ads_automatically clock (projects st) selected_region
                    num_ads_to_distribute selected_employee_id) in
  let handled :=
    on_distribute gs clock st employee_name selected_employee_id selected_region
                  num_ads_to_distribute current_balance current_global_balance in
  accepted selected_employee_id selected_region num_ads_to_distribute current_balance
  = true ->
  0 < total_ads_allocated out ->
  Forall (fun p => unit_types_of p = []) (eligible (projects st) selected_region) ->
  calls handled
  = [UpdateEmployeeBalances {[ selected_employee_id := total_ads_allocated out ]};
     UpdateProjectAds (project_ads_update out);
     UpdateGlobalBudget (total_ads_allocated out)]
  /\ project_ads_update out <> ∅
  /\ last_distribution_log (session handled) = [].
Proof.
  intros out handled Hacc Htot Hnone.
  destruct (distribute_results clock (projects st) selected_region
                               num_ads_to_distribute selected_employee_id)
    as (Hlog & Hupd & Hsum).
  fold out in Hlog, Hupd, Hsum.
  set (rows := awarded_rows (projects st) selected_region num_ads_to_distribute) in *.
  assert (Forall (fun row => unit_types_of (fst row) = []) rows) as Hrows.
  { unfold rows, awarded_rows. destruct (allocatesb _ _); [|constructor].
    apply Forall_forall. intros [p a] Hrow. cbn [fst].
    apply list_elem_of_lookup in Hrow as [i Hi]. apply lookup_zip in Hi as [Hp _].
    rewrite Forall_forall in Hnone. apply Hnone.
    now apply list_elem_of_lookup_2 in Hp. }
  (* no row is logged *)
  assert (distribution_log out = []) as Hempty.
  { destruct (loop_entries clock selected_region selected_employee_id rows
                {| entries := []; updates := ∅; warnings := [] |})
      as (new' & Hnew' & Hamt' & _).
    rewrite Hlog, Hnew'. cbn [entries app].
    apply (map_eq_nil AdsAllocated). rewrite Hamt'.
    apply concat_nil_Forall, List.Forall_map.
    eapply List.Forall_impl; [|exact Hrows].
    intros row Hrow. now apply logged_amounts_without_units. }
  (* some project is awarded *)
  assert (project_ads_update out <> ∅) as Hsome.
  { destruct (Zsum_positive_has_positive (map snd rows)) as (i & a & Hi & Ha); [lia|].
    change (map snd rows) with (snd <$> rows) in Hi.
    rewrite list_lookup_fmap in Hi.
    destruct (rows !! i) as [[p a']|] eqn:Hrow; [|discriminate].
    cbn in Hi. injection Hi as ->.
    rewrite Hupd, loop_updates. cbn [updates].
    intros Hnil.
    destruct (record_updates_is_Some rows ∅ p a) as [v Hv]; [|exact Ha|].
    - eapply list_elem_of_lookup_2; exact Hrow.
    - rewrite Hnil in Hv. now rewrite lookup_empty in Hv. }
  destruct (accepted_run gs clock st employee_name selected_employee_id
              selected_region num_ads_to_distribute current_balance
              current_global_balance Hacc) as (Hcalls & Hlast & _).
  fold out in Hcalls, Hlast.
  replace (0 <? total_ads_allocated out) with true in Hcalls
    by (symmetry; now apply Z.ltb_lt).
  split; [|split; [exact Hsome|]].
  - unfold handled. rewrite Hcalls. unfold sheet_calls. rewrite Hempty.
    rewrite bool_decide_eq_true_2 by reflexivity.
    rewrite bool_decide_eq_false_2 by exact Hsome. reflexivity.
  - unfold handled. now rewrite Hlast.
Qed.

Lemma debit_without_log_witness :
  let out := snd (distribute_ads_automatically (pandas := pandas_stable) Sample.clock
                    Page.blank_only "North" 10 "E101") in
  let handled :=
    on_distribute (pandas := pandas_stable) Page.sheets_ok Sample.clock
                  (Page.session Page.blank_only) "Ann" "E101" "North"
                  10 (Some 60%Q) (Some 0%Q) in
  calls handled
  = [UpdateEmployeeBalances {[ "E101" := total_ads_allocated out ]};
     UpdateProjectAds (project_ads_update out);
     UpdateGlobalBudget (total_ads_allocated out)]
  /\ project_ads_update out <> ∅
  /\ last_distribution_log (session handled) = [].
Proof.
  apply (debit_without_log (pandas := pandas_stable) Page.sheets_ok Sample.clock
           (Page.session Page.blank_only) "Ann" "E101" "North" 10 (Some 60%Q) (Some 0%Q)).
  - reflexivity.
  - vm_compute. reflexivity.
  - repeat constructor.
Defined.

(** ** The report *)

Lemma filter_all_pass {A : Type} (f : A -> bool) (l : list A) :
  Forall (fun x => f x = true) l -> List.filter f l = l.
Proof.
  induction 1 as [|x l Hx _ IH]; [reflexivity|].
  cbn [List.filter]. now rewrite Hx, IH.
Qed.

(** X21. The report filtered by the employee and the region of a call keeps
    every row that call returned, in order, behind the rows it keeps of the
    older log; this holds as well when a filter is left at All. *)
Theorem report_keeps_rows_of_the_call
        {pandas : Pandas} (clock : Clock) (projects_df : DataFrame)
        (selected_region : string) (num_ads_to_distribute : Z) (employee_id : string)
        (ads_log_df : list LogEntry) :
  let new_rows :=
    distribution_log (snd (distribute_ads_automatically clock projects_df selected_region
                             num_ads_to_distribute employee_id)) in
  report_filter (ads_log_df ++ new_rows) employee_id selected_region
  = (report_filter ads_log_df employee_id selected_region ++ new_rows)%list
  /\ report_filter (ads_log_df ++ new_rows) "All" selected_region
     = (report_filter ads_log_df "All" selected_region ++ new_rows)%list
  /\ report_filter (ads_log_df ++ new_rows) employee_id "All"
     = (report_filter ads_log_df employee_id "All" ++ new_rows)%list.
Proof.
  intros new_rows.
  assert (Forall (fun e => EmployeeID e = employee_id /\ LogRegionName e = selected_region)
                 new_rows) as Hrows.
  { unfold new_rows.
    destruct (distribute_results clock projects_df selected_region
                                 num_ads_to_distribute employee_id) as (Hlog & _ & _).
    rewrite Hlog.
    destruct (loop_rows_named clock selected_region employee_id
                (awarded_rows projects_df selected_region num_ads_to_distribute)
                {| entries := []; updates := ∅; warnings := [] |})
      as (new & -> & Hnew).
    cbn [entries app]. eapply List.Forall_impl; [|exact Hnew].
    intros e ((He & Hr & _) & _). now split. }
  assert (List.filter (fun e => String.eqb (EmployeeID e) employee_id) new_rows = new_rows)
    as Hemp.
  { apply filter_all_pass. eapply List.Forall_impl; [|exact Hrows].
    intros e [-> _]. apply String.eqb_refl. }
  assert (List.filter (fun e => String.eqb (LogRegionName e) selected_region) new_rows
          = new_rows) as Hreg.
  { apply filter_all_pass. eapply List.Forall_impl; [|exact Hrows].
    intros e [_ ->]. apply String.eqb_refl. }
  unfold report_filter. change (String.eqb "All" "All") with true. cbn [negb].
  repeat split.
  - destruct (negb (String.eqb employee_id "All")),
             (negb (String.eqb selected_region "All"));
      rewrite ?List.filter_app, ?Hemp, ?Hreg; reflexivity.
  - destruct (negb (String.eqb selected_region "All"));
      rewrite ?List.filter_app, ?Hreg; reflexivity.
  - destruct (negb (String.eqb employee_id "All"));
      rewrite ?List.filter_app, ?Hemp; reflexivity.
Qed.

(** ** The suggestion *)






(** ** Awards follow the scores *)






(** ** The summary of the last distribution *)

(** X24. After an accepted request the session keeps a summary of the call:
    the employee's name, the region and the requested quantity as entered,
    the total, the log and the update map as the call returned them.  The
    log is also kept as the last distribution log and the projects of the
    session are left as they were.  On a region that does not allocate the
    summary shows 0 ads, an empty log and no project update. *)
Theorem summary_records_the_call
        {pandas : Pandas} (gs : SheetCall -> bool) (clock : Clock) (st : Session)
        (employee_name selected_employee_id selected_region : string)
        (num_ads_to_distribute : Z) (current_balance current_global_balance : number) :
  let out := snd (distribute_ads_automatically clock (projects st) selected_region
                    num_ads_to_distribute selected_employee_id) in
  let after :=
    session (on_distribute gs clock st employee_name selected_employee_id selected_region
                           num_ads_to_distribute current_balance
                           current_global_balance) in
  accepted selected_employee_id selected_region num_ads_to_distribute current_balance
  = true ->
  projects after = projects st
  /\ last_distribution_log after = distribution_log out
  /\ exists s : Summary,
       distribution_summary after = Some s
       /\ summary_employee s = employee_name
       /\ summary_region s = selected_region
       /\ requested_ads s = num_ads_to_distribute
       /\ allocated_ads s = total_ads_allocated out
       /\ summary_log s = distribution_log out
       /\ project_updates s = project_ads_update out
       /\ (~ allocates (projects st) selected_region ->
           allocated_ads s = 0 /\ summary_log s = [] /\ project_updates s = ∅).
Proof.
  intros out after Hacc.
  destruct (accepted_request _ _ _ _ Hacc) as (Hid & Hreg & Hn & Hbal).
  assert (~ allocates (projects st) selected_region ->
          total_ads_allocated out = 0 /\ distribution_log out = []
          /\ project_ads_update out = ∅) as Hidle.
  { intros Hno.
    destruct (allocatesb (projects st) selected_region) eqn:Hrun;
      [apply allocatesb_true in Hrun; contradiction|].
    destruct (early_return_is_empty clock st selected_employee_id selected_region
                num_ads_to_distribute Hrun) as (Hlog & Hupd & Htot).
    now repeat split. }
  unfold after, on_distribute. rewrite Hid, Hreg, Hbal. cbn [negb orb].
  replace (num_ads_to_distribute <=? 0) with false by (symmetry; apply Z.leb_gt; lia).
  fold out. cbv zeta.
  destruct (0 <? total_ads_allocated out);
    [|destruct (negb (bool_decide (distribution_log out = [])))];
    cbn [session projects last_distribution_log distribution_summary];
    (split; [reflexivity|]); (split; [reflexivity|]);
    (eexists; split; [reflexivity|]); cbn; repeat (split; [reflexivity|]);
    exact Hidle.
Qed.

Lemma summary_records_the_call_witness :
  let out := snd (distribute_ads_automatically (pandas := pandas_stable) Sample.clock
                    Sample.projects_df "West" 10 "E101") in
  let after :=
    session (on_distribute (pandas := pandas_stable) Page.sheets_ok Sample.clock
                           (Page.session Sample.projects_df) "Ann" "E101" "West"
                           10 (Some 60%Q) (Some 0%Q)) in
  projects after = projects (Page.session Sample.projects_df)
  /\ last_distribution_log after = distribution_log out
  /\ exists s : Summary,
       distribution_summary after = Some s
       /\ summary_employee s = "Ann"
       /\ summary_region s = "West"
       /\ requested_ads s = 10
       /\ allocated_ads s = total_ads_allocated out
       /\ summary_log s = distribution_log out
       /\ project_updates s = project_ads_update out
       /\ (~ allocates (pandas := pandas_stable)
                       (projects (Page.session Sample.projects_df)) "West" ->
           allocated_ads s = 0 /\ summary_log s = [] /\ project_updates s = ∅).
Proof.
  apply (summary_records_the_call (pandas := pandas_stable) Page.sheets_ok Sample.clock
           (Page.session Sample.projects_df) "Ann" "E101" "West" 10
           (Some 60%Q) (Some 0%Q)).
  reflexivity.
Defined.

(** * The project pass in 64-bit arithmetic *)

(** ** Powers of two *)

Lemma pow2_pos (e : Z) : (0 < Float64.pow2 e)%Q.
Proof. apply Qpower_0_lt. reflexivity. Qed.

Lemma pow2_add (a b : Z) : (Float64.pow2 (a + b) == Float64.pow2 a * Float64.pow2 b)%Q.
Proof. apply Qpower_plus. discriminate. Qed.

Lemma pow2_le (a b : Z) : a <= b -> (Float64.pow2 a <= Float64.pow2 b)%Q.
Proof. intros H. apply Qpower_le_compat_l; [exact H|discriminate]. Qed.

Lemma pow2_lt_inv (a b : Z) : (Float64.pow2 a < Float64.pow2 b)%Q -> a < b.
Proof. intros H. eapply Qpower_lt_compat_l_inv; [exact H|reflexivity]. Qed.

Lemma pow2_Z (e : Z) : 0 <= e -> (Float64.pow2 e == inject_Z (2 ^ e))%Q.
Proof. intros H. unfold Float64.pow2. now rewrite Zpower_Qpower. Qed.

Lemma pow2_sub (a b : Z) : (Float64.pow2 (a - b) == Float64.pow2 a / Float64.pow2 b)%Q.
Proof.
  unfold Z.sub. rewrite pow2_add. unfold Float64.pow2 at 2. rewrite Qpower_opp. reflexivity.
Qed.

(** ** The binary logarithm *)

Lemma Qmake_spec (x : Q) : (x * inject_Z (Zpos (Qden x)) == inject_Z (Qnum x))%Q.
Proof.
  destruct x as [n d]. unfold Qeq, Qmult, inject_Z. cbn. lia.
Qed.

Lemma log2_bounds (n : Z) :
  0 < n -> (Float64.pow2 (Z.log2 n) <= inject_Z n)%Q /\ (inject_Z n < Float64.pow2 (Z.log2 n + 1))%Q.
Proof.
  intros Hn. destruct (Z.log2_spec n Hn) as [Hlo Hhi].
  pose proof (Z.log2_nonneg n) as Hnn.
  rewrite !pow2_Z by lia. rewrite <- Zle_Qle, <- Zlt_Qlt.
  split; [exact Hlo|]. now rewrite Z.add_1_r.
Qed.

Lemma ilog2_spec (x : Q) :
  (0 < x)%Q -> (Float64.pow2 (Float64.ilog2 x) <= x)%Q /\ (x < Float64.pow2 (Float64.ilog2 x + 1))%Q.
Proof.
  intros Hx.
  assert (0 < Qnum x) as Hn by (destruct x; unfold Qlt in Hx; cbn in *; lia).
  destruct (log2_bounds (Qnum x) Hn) as [Hnlo Hnhi].
  destruct (log2_bounds (Zpos (Qden x)) ltac:(lia)) as [Hdlo Hdhi].
  pose proof (Qmake_spec x) as Hx'.
  set (A := Z.log2 (Qnum x)) in *. set (B := Z.log2 (Zpos (Qden x))) in *.
  assert (0 < inject_Z (Zpos (Qden x)))%Q as Hd by reflexivity.
  set (d := inject_Z (Zpos (Qden x))) in *. set (n := inject_Z (Qnum x)) in *.
  pose proof (pow2_pos B) as HB.
  unfold Float64.ilog2. fold A B.
  destruct (Qle_bool (Float64.pow2 (A - B)) x) eqn:E.
  - apply Qle_bool_iff in E. split; [exact E|].
    (* x * d = n < 2^(A+1) = 2^(A-B+1) * 2^B <= 2^(A-B+1) * d *)
    assert (Float64.pow2 (A + 1) == Float64.pow2 (A - B + 1) * Float64.pow2 B)%Q as Hsplit
        by (rewrite <- pow2_add; replace (A - B + 1 + B) with (A + 1) by lia; reflexivity).
    pose proof (pow2_pos (A - B + 1)) as Hp.
    apply Qnot_le_lt. intros Hle.
    assert (Float64.pow2 (A - B + 1) * d <= x * d)%Q by (apply Qmult_le_compat_r; [exact Hle|lra]).
    assert (Float64.pow2 (A - B + 1) * Float64.pow2 B <= Float64.pow2 (A - B + 1) * d)%Q
      by (rewrite !(Qmult_comm (Float64.pow2 (A - B + 1))); apply Qmult_le_compat_r; lra).
    lra.
  - assert (x < Float64.pow2 (A - B))%Q as Hlt.
    { apply Qnot_le_lt. intros Hle. apply Qle_bool_iff in Hle. congruence. }
    replace (A - B - 1 + 1) with (A - B) by lia. split; [|exact Hlt].
    (* x * d = n >= 2^A = 2^(A-B-1) * 2^(B+1) > 2^(A-B-1) * d *)
    assert (Float64.pow2 A == Float64.pow2 (A - B - 1) * Float64.pow2 (B + 1))%Q as Hsplit
        by (rewrite <- pow2_add; replace (A - B - 1 + (B + 1)) with A by lia; reflexivity).
    pose proof (pow2_pos (A - B - 1)) as Hp.
    apply Qnot_lt_le. intros Hlt'.
    assert (x * d < Float64.pow2 (A - B - 1) * d)%Q by (apply Qmult_lt_compat_r; assumption).
    assert (Float64.pow2 (A - B - 1) * d <= Float64.pow2 (A - B - 1) * Float64.pow2 (B + 1))%Q
      by (rewrite !(Qmult_comm (Float64.pow2 (A - B - 1))); apply Qmult_le_compat_r; lra).
    lra.
Qed.

Lemma ilog2_mono (x y : Q) : (0 < x)%Q -> (x <= y)%Q -> Float64.ilog2 x <= Float64.ilog2 y.
Proof.
  intros Hx Hxy.
  destruct (ilog2_spec x Hx) as [Hlo _].
  destruct (ilog2_spec y ltac:(lra)) as [_ Hhi].
  assert (Float64.pow2 (Float64.ilog2 x) < Float64.pow2 (Float64.ilog2 y + 1))%Q as H by lra.
  apply pow2_lt_inv in H. lia.
Qed.

(** ** Rounding to the nearest integer, ties to even *)

Lemma rne_floor (y : Q) : Qfloor y <= Float64.rne y <= Qfloor y + 1.
Proof.
  unfold Float64.rne. destruct (_ ?= _)%Q; [destruct (Z.even _)| |]; lia.
Qed.

Lemma rne_Z (z : Z) : Float64.rne (inject_Z z) = z.
Proof.
  unfold Float64.rne. rewrite Qfloor_Z.
  destruct (Qcompare_spec (inject_Z z - inject_Z z) (1 # 2)) as [H|H|H];
    [exfalso; lra|reflexivity|exfalso; lra].
Qed.

Lemma rne_mono (x y : Q) : (x <= y)%Q -> Float64.rne x <= Float64.rne y.
Proof.
  intros Hxy. pose proof (Qfloor_resp_le x y Hxy) as Hf.
  pose proof (rne_floor x) as Hx. pose proof (rne_floor y) as Hy.
  destruct (Z.eq_dec (Qfloor x) (Qfloor y)) as [E|NE]; [|lia].
  unfold Float64.rne. rewrite E.
  assert (x - inject_Z (Qfloor y) <= y - inject_Z (Qfloor y))%Q as Hr by lra.
  destruct (Qcompare_spec (x - inject_Z (Qfloor y)) (1 # 2)) as [Cx|Cx|Cx];
    destruct (Qcompare_spec (y - inject_Z (Qfloor y)) (1 # 2)) as [Cy|Cy|Cy];
    try (destruct (Z.even (Qfloor y))); try lia; exfalso; lra.
Qed.

Lemma rne_le_Z (y : Q) (k : Z) : (y <= inject_Z k)%Q -> Float64.rne y <= k.
Proof. intros H. rewrite <- (rne_Z k). now apply rne_mono. Qed.

Lemma rne_ge_Z (y : Q) (k : Z) : (inject_Z k <= y)%Q -> k <= Float64.rne y.
Proof. intros H. rewrite <- (rne_Z k). now apply rne_mono. Qed.

(** ** Rounding to binary64 *)

Lemma exponent_mono (a b : Q) : (0 < a)%Q -> (a <= b)%Q -> Float64.exponent a <= Float64.exponent b.
Proof. intros Ha Hab. unfold Float64.exponent. pose proof (ilog2_mono a b Ha Hab). lia. Qed.

Lemma round_pos_nonneg (a : Q) : (0 < a)%Q -> (0 <= Float64.round_pos a)%Q.
Proof.
  intros Ha. unfold Float64.round_pos.
  pose proof (pow2_pos (Float64.exponent a)) as Hp.
  assert (0 <= Float64.rne (a / Float64.pow2 (Float64.exponent a))) as Hr.
  { apply rne_ge_Z. apply Qle_shift_div_l; [exact Hp|].
    change (inject_Z 0) with 0%Q. rewrite Qmult_0_l. lra. }
  apply Qmult_le_0_compat; [|lra].
  change 0%Q with (inject_Z 0). now rewrite <- Zle_Qle.
Qed.

(** The rounded value does not pass the next power of two. *)
Lemma round_pos_upper (a : Q) :
  (0 < a)%Q -> (Float64.round_pos a <= Float64.pow2 (Z.max (Float64.ilog2 a + 1) (-1074)))%Q.
Proof.
  intros Ha. destruct (ilog2_spec a Ha) as [_ Hhi].
  unfold Float64.round_pos. set (e := Float64.exponent a).
  pose proof (pow2_pos e) as Hp.
  destruct (Z_le_gt_dec e (Float64.ilog2 a + 1)) as [Hle|Hgt].
  - (* a / 2^e < 2^(Float64.ilog2 a + 1 - e), an integer *)
    assert (Float64.rne (a / Float64.pow2 e) <= 2 ^ (Float64.ilog2 a + 1 - e)) as Hr.
    { apply rne_le_Z. rewrite <- pow2_Z by lia. rewrite pow2_sub.
      apply Qle_shift_div_l; [exact Hp|].
      setoid_replace (a / Float64.pow2 e * Float64.pow2 e)%Q with a using relation Qeq
        by (field; lra).
      lra. }
    apply Qle_trans with (inject_Z (2 ^ (Float64.ilog2 a + 1 - e)) * Float64.pow2 e)%Q.
    + apply Qmult_le_compat_r; [now rewrite <- Zle_Qle|lra].
    + rewrite <- pow2_Z by lia. rewrite <- pow2_add.
      replace (Float64.ilog2 a + 1 - e + e) with (Float64.ilog2 a + 1) by lia.
      apply pow2_le. lia.
  - (* a / 2^e < 1 *)
    assert (e = -1074) as He by (unfold e, Float64.exponent in *; lia).
    assert (Float64.rne (a / Float64.pow2 e) <= 1) as Hr.
    { apply rne_le_Z. apply Qle_shift_div_r; [exact Hp|].
      assert (Float64.pow2 (Float64.ilog2 a + 1) <= Float64.pow2 e)%Q by (apply pow2_le; lia).
      change (inject_Z 1) with 1%Q. lra. }
    apply Qle_trans with (inject_Z 1 * Float64.pow2 e)%Q.
    + apply Qmult_le_compat_r; [now rewrite <- Zle_Qle|lra].
    + change (inject_Z 1) with 1%Q. rewrite Qmult_1_l. apply pow2_le. lia.
Qed.

(** A number in the normal range rounds to at least the power of two below
    it. *)
Lemma round_pos_lower (b : Q) :
  (0 < b)%Q -> -1074 <= Float64.ilog2 b - 52 -> (Float64.pow2 (Float64.ilog2 b) <= Float64.round_pos b)%Q.
Proof.
  intros Hb Hnormal. destruct (ilog2_spec b Hb) as [Hlo _].
  unfold Float64.round_pos.
  assert (Float64.exponent b = Float64.ilog2 b - 52) as He by (unfold Float64.exponent; lia).
  rewrite He. pose proof (pow2_pos (Float64.ilog2 b - 52)) as Hp.
  assert (2 ^ 52 <= Float64.rne (b / Float64.pow2 (Float64.ilog2 b - 52))) as Hr.
  { apply rne_ge_Z. rewrite <- pow2_Z by lia.
    apply Qle_shift_div_l; [exact Hp|]. rewrite <- pow2_add.
    replace (52 + (Float64.ilog2 b - 52)) with (Float64.ilog2 b) by lia. exact Hlo. }
  apply Qle_trans with (inject_Z (2 ^ 52) * Float64.pow2 (Float64.ilog2 b - 52))%Q.
  - rewrite <- pow2_Z by lia. rewrite <- pow2_add.
    replace (52 + (Float64.ilog2 b - 52)) with (Float64.ilog2 b) by lia. apply Qle_refl.
  - apply Qmult_le_compat_r; [now rewrite <- Zle_Qle|lra].
Qed.

Lemma round_pos_mono (a b : Q) :
  (0 < a)%Q -> (a <= b)%Q -> (Float64.round_pos a <= Float64.round_pos b)%Q.
Proof.
  intros Ha Hab. assert (0 < b)%Q as Hb by lra.
  pose proof (exponent_mono a b Ha Hab) as He.
  destruct (Z.eq_dec (Float64.exponent a) (Float64.exponent b)) as [E|NE].
  - unfold Float64.round_pos. rewrite E. pose proof (pow2_pos (Float64.exponent b)) as Hp.
    apply Qmult_le_compat_r; [|lra]. rewrite <- Zle_Qle. apply rne_mono.
    apply Qmult_le_compat_r; [exact Hab|]. apply Qlt_le_weak, Qinv_lt_0_compat, Hp.
  - assert (Float64.ilog2 a < Float64.ilog2 b /\ -1074 <= Float64.ilog2 b - 52) as [Hlt Hnormal]
        by (unfold Float64.exponent in *; lia).
    apply Qle_trans with (Float64.pow2 (Z.max (Float64.ilog2 a + 1) (-1074))).
    + now apply round_pos_upper.
    + apply Qle_trans with (Float64.pow2 (Float64.ilog2 b)).
      * apply pow2_le. lia.
      * now apply round_pos_lower.
Qed.

Lemma round_nonneg (x v : Q) :
  (0 <= x)%Q -> Float64.round x = Float64.Finite v -> (0 <= v)%Q.
Proof.
  intros Hx. unfold Float64.round.
  destruct (Qcompare_spec x 0) as [E|L|G].
  - intros [= <-]. apply Qle_refl.
  - exfalso. lra.
  - cbv zeta. destruct (Qle_bool _ _); [discriminate|]. intros [= <-].
    now apply round_pos_nonneg.
Qed.

(** Rounding keeps the order. *)
Lemma round_mono (x y u v : Q) :
  Float64.round x = Float64.Finite u -> Float64.round y = Float64.Finite v ->
  (x <= y)%Q -> (u <= v)%Q.
Proof.
  unfold Float64.round. intros Hu Hv Hxy.
  destruct (Qcompare_spec x 0) as [Ex|Lx|Gx]; destruct (Qcompare_spec y 0) as [Ey|Ly|Gy];
    cbv zeta in Hu, Hv;
    repeat match goal with
           | H : (if ?b then _ else _) = _ |- _ => destruct b; [discriminate|]
           end;
    injection Hu as <-; injection Hv as <-; try (exfalso; lra).
  - apply Qle_refl.
  - now apply round_pos_nonneg.
  - pose proof (round_pos_nonneg (- x) ltac:(lra)). lra.
  - pose proof (round_pos_mono (- y) (- x) ltac:(lra) ltac:(lra)). lra.
  - pose proof (round_pos_nonneg (- x) ltac:(lra)).
    pose proof (round_pos_nonneg y Gy). lra.
  - now apply round_pos_mono.
Qed.

(** ** Runs of the pass *)

Lemma traverse_Ok {A B : Type} (f : A -> Float64.Run B) (l : list A) (ys : list B) :
  Float64.traverse f l = Float64.Ok ys -> Forall2 (fun x y => f x = Float64.Ok y) l ys.
Proof.
  revert ys. induction l as [|x l IH]; intros ys; cbn.
  - intros [= <-]. constructor.
  - destruct (f x) as [y| |] eqn:E; cbn; try discriminate.
    destruct (Float64.traverse f l) as [ys'| |]; cbn; try discriminate.
    intros [= <-]. constructor; [exact E|now apply IH].
Qed.

Lemma int64_Ok (z z' : Z) : Float64.int64 z = Float64.Ok z' -> z' = z.
Proof. unfold Float64.int64. destruct (Float64.in_int64 z); congruence. Qed.

Lemma traverse_int64_Ok (l l' : list Z) :
  Float64.traverse Float64.int64 l = Float64.Ok l' -> l' = l.
Proof.
  intros H. apply traverse_Ok in H. induction H as [|x y l l' Hxy _ IH]; [reflexivity|].
  apply int64_Ok in Hxy. now subst.
Qed.

Section Pass64.

Context {pandas : Pandas}.

Variables (scores : list Float64.float) (num_ads_to_distribute : Z) (p : Float64.Pass).

Hypothesis run_ok : Float64.project_pass scores num_ads_to_distribute = Float64.Ok p.

(** The columns of a run that ends. *)
Lemma project_pass_Ok :
  Float64.calculated p
  = map (Float64.CalculatedAds (Float64.sum scores) num_ads_to_distribute) scores
  /\ Forall2 (fun c f => Float64.floor_astype_int c = Float64.Ok f)
             (Float64.calculated p) (Float64.floors p)
  /\ Float64.remainder_ads p = num_ads_to_distribute - Zsum (Float64.floors p)
  /\ Float64.priority p
     = zip_with Float64.RemainderPriority (Float64.calculated p) (Float64.floors p)
  /\ Float64.sorted_indices p
     = argsort_desc (map Float64.sort_key (Float64.priority p))
  /\ Float64.allocated p = fold_left add_one (Float64.visited p) (Float64.floors p)
  /\ Float64.total_ads_allocated p = Zsum (Float64.allocated p).
Proof.
  pose proof run_ok as H. unfold Float64.project_pass in H.
  destruct (Float64.traverse Float64.floor_astype_int _) as [fl| |] eqn:Hfl;
    cbn [Float64.bind] in H; try discriminate.
  destruct (Float64.int64 (Zsum fl)) as [so_far| |] eqn:Hso;
    cbn [Float64.bind] in H; try discriminate.
  destruct (Float64.int64 num_ads_to_distribute) as [num| |] eqn:Hnum;
    cbn [Float64.bind] in H; try discriminate.
  destruct (Float64.int64 (num - so_far)) as [rem| |] eqn:Hrem;
    cbn [Float64.bind] in H; try discriminate.
  destruct (Float64.traverse Float64.int64 _) as [al| |] eqn:Hal;
    cbn [Float64.bind] in H; try discriminate.
  destruct (Float64.int64 (Zsum al)) as [tot| |] eqn:Htot;
    cbn [Float64.bind] in H; try discriminate.
  apply int64_Ok in Hso, Hnum, Hrem, Htot. apply traverse_int64_Ok in Hal.
  pose proof (traverse_Ok _ _ _ Hfl) as Hfloors.
  assert (length fl = length scores) as Hlen
      by (apply Forall2_length in Hfloors; rewrite length_map in Hfloors; lia).
  injection H as <-. unfold Float64.visited.
  cbn [Float64.calculated Float64.floors Float64.remainder_ads Float64.priority
       Float64.sorted_indices Float64.allocated Float64.total_ads_allocated].
  subst. rewrite Hlen. repeat split. exact Hfloors.
Qed.

Lemma length_floors64 : length (Float64.floors p) = length scores.
Proof.
  destruct project_pass_Ok as (Hc & Hf & _).
  apply Forall2_length in Hf. rewrite Hc, length_map in Hf. lia.
Qed.

Lemma length_priority64 : length (Float64.priority p) = length scores.
Proof.
  destruct project_pass_Ok as (Hc & _ & _ & Hp & _).
  rewrite Hp, length_zip_with, length_floors64, Hc, length_map. lia.
Qed.

Lemma NoDup_visited : NoDup (Float64.visited p).
Proof.
  destruct project_pass_Ok as (_ & _ & _ & _ & Hs & _).
  unfold Float64.visited. rewrite Hs.
  eapply sublist_NoDup; [apply argsort_desc_NoDup|apply sublist_take].
Qed.

Lemma visited_bound (k : nat) : k ∈ Float64.visited p -> (k < length scores)%nat.
Proof.
  destruct project_pass_Ok as (_ & _ & _ & _ & Hs & _).
  unfold Float64.visited. rewrite Hs. intros Hk.
  apply elem_of_take in Hk as (pos & Hpos & _).
  pose proof (argsort_desc_bound (map Float64.sort_key (Float64.priority p))) as Hb.
  rewrite Forall_forall in Hb. specialize (Hb k (list_elem_of_lookup_2 _ _ _ Hpos)).
  now rewrite length_map, length_priority64 in Hb.
Qed.

Lemma length_visited :
  length (Float64.visited p)
  = Z.to_nat (Z.min (Float64.remainder_ads p) (Z.of_nat (length scores))).
Proof.
  destruct project_pass_Ok as (_ & _ & _ & _ & Hs & _).
  unfold Float64.visited.
  rewrite length_take, Hs, length_argsort_desc, length_map, length_priority64,
    length_floors64.
  lia.
Qed.

(** An award is the floored share, plus one when the loop visits it. *)
Lemma lookup_allocated64 (k : nat) (f : Z) :
  Float64.floors p !! k = Some f ->
  Float64.allocated p !! k
  = Some (if bool_decide (k ∈ Float64.visited p) then f + 1 else f).
Proof.
  intros Hf. destruct project_pass_Ok as (_ & _ & _ & _ & _ & Ha & _).
  rewrite Ha. apply lookup_hand_out; [apply NoDup_visited|exact Hf].
Qed.

(** The floored share is the floor of the computed share, which is finite. *)
Lemma lookup_floors64 (k : nat) (c : Float64.float) :
  Float64.calculated p !! k = Some c ->
  exists v : Q, c = Float64.Finite v /\ Float64.floors p !! k = Some (Qfloor v).
Proof.
  intros Hc. destruct project_pass_Ok as (_ & Hf & _).
  destruct (Forall2_lookup_l _ _ _ _ _ Hf Hc) as (f & Hfk & Hcast).
  destruct c as [v| |]; try discriminate.
  exists v. split; [reflexivity|]. cbn in Hcast. apply int64_Ok in Hcast. now subst.
Qed.

(** The total is what the floors and the loop add up to. *)
Lemma total64 :
  Float64.total_ads_allocated p
  = Zsum (Float64.floors p)
    + Z.max 0 (Z.min (Float64.remainder_ads p) (Z.of_nat (length scores))).
Proof.
  destruct project_pass_Ok as (_ & _ & _ & _ & _ & Ha & Ht).
  rewrite Ht, Ha, Zsum_hand_out.
  - rewrite length_visited. lia.
  - apply Forall_forall. intros k Hk. rewrite length_floors64. now apply visited_bound.
Qed.

End Pass64.

(** ** Who is visited *)

Lemma taken_ranked_before {pandas : Pandas} (keys : list Q) (r i j : nat) :
  i ∈ take r (argsort_desc keys) -> j ∉ take r (argsort_desc keys) ->
  (j < length keys)%nat ->
  ranked_before (argsort_desc keys) i j.
Proof.
  intros Hi Hj Hlt. apply elem_of_take in Hi as (pi & Hpi & Hlti).
  assert (exists pj, argsort_desc keys !! pj = Some j) as (pj & Hpj).
  { apply list_elem_of_lookup, list_elem_of_In.
    eapply Permutation_in; [symmetry; apply argsort_desc_perm|].
    apply in_seq. lia. }
  exists pi, pj. repeat split; [|exact Hpi|exact Hpj].
  destruct (decide (pj < r)%nat) as [Hin|]; [|lia].
  exfalso. apply Hj. apply elem_of_take. eauto.
Qed.

Lemma before_taken {pandas : Pandas} (keys : list Q) (r a b : nat) :
  ranked_before (argsort_desc keys) a b ->
  b ∈ take r (argsort_desc keys) -> a ∈ take r (argsort_desc keys).
Proof.
  intros (pa & pb & Hlt & Ha & Hb) Hw.
  apply elem_of_take in Hw as (pb' & Hb' & Hlt').
  assert (pb = pb') as <-
      by (eapply NoDup_lookup; [apply argsort_desc_NoDup|exact Hb|exact Hb']).
  apply elem_of_take. exists pa. split; [exact Ha|lia].
Qed.

(** C3 (amended). In a run of the project pass that ends, every award is
    the floored share, plus one for the projects the remainder loop visits;
    the loop visits as many projects as the remainder or the number of
    projects, whichever is smaller, and none when the remainder is
    negative; it takes them in the order [sort_values] returns for the
    computed column RemainderPriority, so no project left without an extra
    unit has a larger computed RemainderPriority than one that receives it.
    Among projects with equal computed RemainderPriority the order is that
    of [sort_values]: when it keeps the input order of equal keys, an
    earlier project is served before a later one. *)
Theorem extra_units_follow_the_computed_priority
        {pandas : Pandas} (projects_df : DataFrame) (selected_region : string)
        (num_ads_to_distribute : Z) (p : Float64.Pass) :
  Float64.run projects_df selected_region num_ads_to_distribute = Float64.Ok p ->
  let key (k : nat) : option Q := Float64.sort_key <$> Float64.priority p !! k in
  let projects := length (Float64.total_scores projects_df selected_region) in
  (forall (k : nat) (f : Z),
      Float64.floors p !! k = Some f ->
      Float64.allocated p !! k
      = Some (if bool_decide (k ∈ Float64.visited p) then f + 1 else f))
  /\ Z.of_nat (length (Float64.visited p))
     = Z.max 0 (Z.min (Float64.remainder_ads p) (Z.of_nat projects))
  /\ (forall (i j : nat) (ri rj : Q),
        i ∈ Float64.visited p -> j ∉ Float64.visited p ->
        key i = Some ri -> key j = Some rj -> (rj <= ri)%Q)
  /\ (keeps_input_order pandas ->
      forall (i j : nat) (ri rj : Q),
        (i < j)%nat -> key i = Some ri -> key j = Some rj -> (ri == rj)%Q ->
        j ∈ Float64.visited p -> i ∈ Float64.visited p).
Proof.
  intros Hrun key projects. unfold Float64.run in Hrun.
  destruct (project_pass_Ok _ _ _ Hrun) as (_ & _ & _ & _ & Hs & _).
  assert (forall k r, key k = Some r ->
                      map Float64.sort_key (Float64.priority p) !! k = Some r) as Hkey.
  { intros k r Hk. unfold key in Hk.
    change (map ?f ?l) with (f <$> l). now rewrite list_lookup_fmap. }
  split; [|split; [|split]].
  - intros k f Hf. now apply (lookup_allocated64 _ _ _ Hrun).
  - rewrite (length_visited _ _ _ Hrun). unfold projects. lia.
  - intros i j ri rj Hi Hj Hri Hrj.
    unfold Float64.visited in Hi, Hj. rewrite Hs in Hi, Hj.
    eapply argsort_desc_sorted; [|apply Hkey, Hri|apply Hkey, Hrj].
    eapply taken_ranked_before; [exact Hi|exact Hj|].
    apply Hkey, lookup_lt_Some in Hrj. exact Hrj.
  - intros Hstable i j ri rj Hij Hri Hrj Heq Hj.
    unfold Float64.visited in Hj |- *. rewrite Hs in Hj |- *.
    eapply before_taken; [|exact Hj].
    eapply Hstable; [exact Hij|apply Hkey, Hri|apply Hkey, Hrj|exact Heq].
Qed.

Lemma extra_units_follow_the_computed_priority_witness :
  let p := Float64.columns (Float64.run (pandas := pandas_stable)
                                         Sample.equal_fractions "North" 34) in
  let key (k : nat) : option Q := Float64.sort_key <$> Float64.priority p !! k in
  let projects :=
    length (Float64.total_scores (pandas := pandas_stable)
                                 Sample.equal_fractions "North") in
  (forall (k : nat) (f : Z),
      Float64.floors p !! k = Some f ->
      Float64.allocated p !! k
      = Some (if bool_decide (k ∈ Float64.visited p) then f + 1 else f))
  /\ Z.of_nat (length (Float64.visited p))
     = Z.max 0 (Z.min (Float64.remainder_ads p) (Z.of_nat projects))
  /\ (forall (i j : nat) (ri rj : Q),
        i ∈ Float64.visited p -> j ∉ Float64.visited p ->
        key i = Some ri -> key j = Some rj -> (rj <= ri)%Q)
  /\ (keeps_input_order pandas_stable ->
      forall (i j : nat) (ri rj : Q),
        (i < j)%nat -> key i = Some ri -> key j = Some rj -> (ri == rj)%Q ->
        j ∈ Float64.visited p -> i ∈ Float64.visited p).
Proof.
  apply (extra_units_follow_the_computed_priority (pandas := pandas_stable)
           Sample.equal_fractions "North" 34).
  vm_compute. reflexivity.
Defined.

(** ** One more ad *)

(** A total score is a number that is not negative, plus infinity, or NaN. *)
Lemma clip0_sign (x : Float64.float) (v : Q) :
  Float64.clip0 x = Float64.Finite v -> (0 <= v)%Q.
Proof.
  destruct x as [a|[]|]; cbn; try discriminate.
  - destruct (Qle_bool 0 a) eqn:E; intros [= <-].
    + now apply Qle_bool_iff.
    + apply Qle_refl.
  - intros [= <-]. apply Qle_refl.
Qed.

(** A computed share that is finite is not negative and comes from a finite
    proportion that is not negative. *)
Lemma finite_share (W w : Float64.float) (n : Z) (c : Q) :
  Float64.le0 W = false -> (forall v, w = Float64.Finite v -> (0 <= v)%Q) ->
  Float64.CalculatedAds W n w = Float64.Finite c ->
  exists pv y : Q,
    Float64.Proportion W w = Float64.Finite pv /\ (0 <= pv)%Q
    /\ Float64.of_int n = Float64.Finite y
    /\ Float64.round (pv * y) = Float64.Finite c.
Proof.
  intros HW Hw Hc. unfold Float64.CalculatedAds in Hc.
  assert (forall pv, Float64.Proportion W w = Float64.Finite pv -> (0 <= pv)%Q) as Hsign.
  { intros pv. unfold Float64.Proportion, Float64.div.
    destruct w as [a|s|], W as [b|t|]; try discriminate.
    - specialize (Hw a eq_refl). cbn in HW.
      assert (0 < b)%Q as Hb
          by (apply Qnot_le_lt; intros Hle; apply Qle_bool_iff in Hle; congruence).
      destruct (Qcompare_spec b 0) as [E|L|G]; try (exfalso; lra).
      apply round_nonneg. apply Qle_shift_div_l; [exact Hb|]. lra.
    - intros [= <-]. apply Qle_refl. }
  destruct (Float64.Proportion W w) as [pv|s|] eqn:HP.
  - destruct (Float64.of_int n) as [y|t|] eqn:Hy.
    + exists pv, y. repeat split; [now apply Hsign|exact Hc].
    + cbn in Hc. destruct (pv ?= 0)%Q; discriminate.
    + discriminate.
  - cbn in Hc. destruct (Float64.of_int n) as [y|t|]; try discriminate.
    destruct (y ?= 0)%Q; discriminate.
  - cbn in Hc. discriminate.
Qed.

(** The computed share does not decrease when the requested quantity
    grows. *)
Lemma share_mono (W w : Float64.float) (n n' : Z) (c c' : Q) :
  Float64.le0 W = false -> (forall v, w = Float64.Finite v -> (0 <= v)%Q) ->
  n <= n' ->
  Float64.CalculatedAds W n w = Float64.Finite c ->
  Float64.CalculatedAds W n' w = Float64.Finite c' ->
  (c <= c')%Q.
Proof.
  intros HW Hw Hn Hc Hc'.
  destruct (finite_share W w n c HW Hw Hc) as (pv & y & HP & Hpv & Hy & Hr).
  destruct (finite_share W w n' c' HW Hw Hc') as (pv' & y' & HP' & _ & Hy' & Hr').
  rewrite HP in HP'. injection HP' as <-.
  assert (y <= y')%Q as Hyy.
  { apply (round_mono (inject_Z n) (inject_Z n') y y' Hy Hy'). now rewrite <- Zle_Qle. }
  apply (round_mono (pv * y) (pv * y') c c' Hr Hr').
  rewrite !(Qmult_comm pv). now apply Qmult_le_compat_r.
Qed.

Lemma TotalScore64_sign (mo : Float64.float) (p : Project) (v : Q) :
  Float64.TotalScore mo p = Float64.Finite v -> (0 <= v)%Q.
Proof. apply clip0_sign. Qed.

(** C4 (amended). For a fixed set of eligible projects with a positive
    total score, when the pass ends for the quantities Q and Q + 1: no
    floored share is lower for Q + 1 than for Q, so no award goes down by
    more than one.  Several awards can change at once and an award can go
    down by one. *)
Theorem one_more_ad_lowers_no_award_by_two
        {pandas : Pandas} (projects_df : DataFrame) (selected_region : string)
        (num_ads_to_distribute : Z) (p p' : Float64.Pass) :
  Float64.allocates projects_df selected_region ->
  Float64.run projects_df selected_region num_ads_to_distribute = Float64.Ok p ->
  Float64.run projects_df selected_region (num_ads_to_distribute + 1) = Float64.Ok p' ->
  (forall (k : nat) (f f' : Z),
      Float64.floors p !! k = Some f -> Float64.floors p' !! k = Some f' -> f <= f')
  /\ (forall (k : nat) (a a' : Z),
        Float64.allocated p !! k = Some a -> Float64.allocated p' !! k = Some a' ->
        a - 1 <= a').
Proof.
  intros (_ & _ & HW) Hrun Hrun'. unfold Float64.run in Hrun, Hrun'.
  set (scores := Float64.total_scores projects_df selected_region) in *.
  assert (forall (k : nat) (f f' : Z),
             Float64.floors p !! k = Some f -> Float64.floors p' !! k = Some f' ->
             f <= f') as Hfloors.
  { intros k f f' Hf Hf'.
    destruct (project_pass_Ok _ _ _ Hrun) as (Hc & _).
    destruct (project_pass_Ok _ _ _ Hrun') as (Hc' & _).
    assert (k < length scores)%nat as Hk
        by (apply lookup_lt_Some in Hf; now rewrite (length_floors64 _ _ _ Hrun) in Hf).
    destruct (lookup_lt_is_Some_2 scores k Hk) as [w Hw].
    assert (Float64.calculated p !! k
            = Some (Float64.CalculatedAds (Float64.sum scores) num_ads_to_distribute w))
      as Hck by (rewrite Hc; change (map ?g ?l) with (g <$> l);
                 now rewrite list_lookup_fmap, Hw).
    assert (Float64.calculated p' !! k
            = Some (Float64.CalculatedAds (Float64.sum scores)
                                          (num_ads_to_distribute + 1) w))
      as Hck' by (rewrite Hc'; change (map ?g ?l) with (g <$> l);
                  now rewrite list_lookup_fmap, Hw).
    destruct (lookup_floors64 _ _ _ Hrun k _ Hck) as (c & Ec & Hfc).
    destruct (lookup_floors64 _ _ _ Hrun' k _ Hck') as (c' & Ec' & Hfc').
    rewrite Hf in Hfc. rewrite Hf' in Hfc'.
    apply (inj Some) in Hfc, Hfc'. subst f f'.
    apply Qfloor_resp_le.
    apply (share_mono (Float64.sum scores) w num_ads_to_distribute
                      (num_ads_to_distribute + 1) c c' HW); [|lia|exact Ec|exact Ec'].
    unfold scores, Float64.total_scores in Hw.
    change (map ?g ?l) with (g <$> l) in Hw. rewrite list_lookup_fmap in Hw.
    destruct (eligible projects_df selected_region !! k) as [pr|]; [|discriminate].
    cbn in Hw. injection Hw as <-. intros v. apply TotalScore64_sign. }
  split; [exact Hfloors|].
  intros k a a' Ha Ha'.
  assert (k < length scores)%nat as Hk.
  { apply lookup_lt_Some in Ha.
    destruct (project_pass_Ok _ _ _ Hrun) as (_ & _ & _ & _ & _ & Hal & _).
    now rewrite Hal, length_hand_out, (length_floors64 _ _ _ Hrun) in Ha. }
  destruct (lookup_lt_is_Some_2 (Float64.floors p) k) as [f Hf];
    [now rewrite (length_floors64 _ _ _ Hrun)|].
  destruct (lookup_lt_is_Some_2 (Float64.floors p') k) as [f' Hf'];
    [now rewrite (length_floors64 _ _ _ Hrun')|].
  specialize (Hfloors k f f' Hf Hf').
  rewrite (lookup_allocated64 _ _ _ Hrun k f Hf) in Ha.
  rewrite (lookup_allocated64 _ _ _ Hrun' k f' Hf') in Ha'.
  apply (inj Some) in Ha, Ha'. subst a a'.
  destruct (bool_decide _); destruct (bool_decide _); lia.
Qed.

Lemma one_more_ad_lowers_no_award_by_two_witness :
  let p := Float64.columns (Float64.run (pandas := pandas_stable)
                                         Sample.three_projects "North" 10) in
  let p' := Float64.columns (Float64.run (pandas := pandas_stable)
                                          Sample.three_projects "North" (10 + 1)) in
  (forall (k : nat) (f f' : Z),
      Float64.floors p !! k = Some f -> Float64.floors p' !! k = Some f' -> f <= f')
  /\ (forall (k : nat) (a a' : Z),
        Float64.allocated p !! k = Some a -> Float64.allocated p' !! k = Some a' ->
        a - 1 <= a').
Proof.
  apply (one_more_ad_lowers_no_award_by_two (pandas := pandas_stable)
           Sample.three_projects "North" 10).
  - repeat split. vm_compute. discriminate.
  - vm_compute. reflexivity.
  - vm_compute. reflexivity.
Defined.

(** One more ad can raise the total by two: for the two projects with
    total scores 51.7 and 22.4, a request for 2^53 - 3 ads returns
    2^53 - 2 and a request for 2^53 - 2 ads returns 2^53; both awards go
    up. *)
Example one_more_ad_can_add_two :
  let p := Float64.columns (Float64.run (pandas := pandas_stable)
                                         Sample.two_projects "North" (2 ^ 53 - 3)) in
  let p' := Float64.columns (Float64.run (pandas := pandas_stable)
                                          Sample.two_projects "North" (2 ^ 53 - 3 + 1)) in
  Float64.allocated p = [6284375188530489; 2722824066210501]
  /\ Float64.total_ads_allocated p = 2 ^ 53 - 2
  /\ Float64.allocated p' = [6284375188530490; 2722824066210502]
  /\ Float64.total_ads_allocated p' = 2 ^ 53.
Proof. vm_compute. repeat split. Qed.

(** Two projects with the same score and one ad: the computed keys are
    equal, and a sort that keeps the input order serves the first one. *)
Example equal_keys_served_in_input_order_when_stable :
  let p := Float64.columns (Float64.run (pandas := pandas_stable)
                                         Sample.two_alike "North" 1) in
  map (fun r => Qred (Float64.sort_key r)) (Float64.priority p) = [1 # 2; 1 # 2]
  /\ Float64.visited p = [0%nat]
  /\ Float64.allocated p = [1; 0].
Proof. vm_compute. repeat split. Qed.

(** ** Two runs *)

Lemma argsort_desc_two {pandas : Pandas} (k0 k1 : Q) :
  (k0 < k1)%Q -> argsort_desc [k0; k1] = [1; 0]%nat.
Proof.
  intros Hlt. pose proof (argsort_desc_perm [k0; k1]) as Hperm. cbn in Hperm.
  symmetry in Hperm. apply Permutation_length_2_inv in Hperm as [E|E]; [|exact E].
  exfalso.
  assert (k1 <= k0)%Q as Hle.
  { apply (argsort_desc_sorted [k0; k1] 0%nat 1%nat k0 k1); [|reflexivity|reflexivity].
    exists 0%nat, 1%nat. rewrite E. repeat split. lia. }
  lra.
Qed.

(** C1. Two eligible projects with total scores 51.7 and 22.4 and a request
    for 2^53 - 1 ads, the largest whole number the page lets through: the
    floored shares already sum to 2^53, the remainder is -1, the loop hands
    out nothing and the call returns 2^53 as the total, one more than was
    requested. *)
Theorem total_exceeds_the_request
        {pandas : Pandas} :
  let p := Float64.columns (Float64.run Sample.two_projects "North" (2 ^ 53 - 1)) in
  Float64.allocates Sample.two_projects "North"
  /\ Float64.run Sample.two_projects "North" (2 ^ 53 - 1) = Float64.Ok p
  /\ Float64.floors p = [6284375188530490; 2722824066210502]
  /\ Float64.remainder_ads p = -1
  /\ Float64.allocated p = [6284375188530490; 2722824066210502]
  /\ Float64.total_ads_allocated p = 2 ^ 53
  /\ Zsum (Float64.allocated p) <> 2 ^ 53 - 1.
Proof.
  cbv zeta. split; [repeat split; vm_compute; discriminate|].
  split; [vm_compute; reflexivity|].
  repeat split; try (vm_compute; reflexivity). vm_compute. discriminate.
Qed.

Lemma traverse_int64_in_range (l : list Z) :
  Forall (fun z => - 2 ^ 63 <= z < 2 ^ 63) l ->
  Float64.traverse Float64.int64 l = Float64.Ok l.
Proof.
  induction 1 as [|z l Hz _ IH]; [reflexivity|].
  cbn [Float64.traverse]. unfold Float64.int64 at 1, Float64.in_int64.
  replace (- 2 ^ 63 <=? z) with true by (symmetry; apply Z.leb_le; lia).
  replace (z <? 2 ^ 63) with true by (symmetry; apply Z.ltb_lt; lia).
  cbn. now rewrite IH.
Qed.

(** The pass ends when every computed share is finite and nothing comes
    near the bounds of int64. *)
Lemma project_pass_ends {pandas : Pandas} (scores : list Float64.float) (n : Z)
      (fl : list Z) :
  let calc := map (Float64.CalculatedAds (Float64.sum scores) n) scores in
  let prio := zip_with Float64.RemainderPriority calc fl in
  let sorted := argsort_desc (map Float64.sort_key prio) in
  let rounds := Z.to_nat (Z.min (n - Zsum fl) (Z.of_nat (length scores))) in
  let al := fold_left add_one (take rounds sorted) fl in
  Float64.traverse Float64.floor_astype_int calc = Float64.Ok fl ->
  - 2 ^ 61 <= n <= 2 ^ 61 -> - 2 ^ 61 <= Zsum fl <= 2 ^ 61 ->
  Z.of_nat (length scores) <= 2 ^ 61 ->
  Forall (fun z => - 2 ^ 62 <= z <= 2 ^ 62) fl ->
  Float64.project_pass scores n
  = Float64.Ok (Float64.mkPass calc fl (n - Zsum fl) prio sorted al (Zsum al)).
Proof.
  intros calc prio sorted rounds al Hfl Hn Hsum Hlen Hrange.
  assert (length fl = length scores) as Hlfl.
  { apply traverse_Ok, Forall2_length in Hfl. unfold calc in Hfl.
    rewrite length_map in Hfl. lia. }
  assert (NoDup (take rounds sorted)) as Hnd
      by (eapply sublist_NoDup; [apply argsort_desc_NoDup|apply sublist_take]).
  assert (Forall (fun i => (i < length fl)%nat) (take rounds sorted)) as Hbound.
  { apply Forall_take. pose proof (argsort_desc_bound (map Float64.sort_key prio)) as Hb.
    eapply List.Forall_impl; [|exact Hb]. intros i Hi.
    unfold prio, calc in Hi.
    rewrite length_map, length_zip_with, length_map in Hi. lia. }
  assert (Forall (fun z => - 2 ^ 63 <= z < 2 ^ 63) al) as Hal.
  { apply Forall_forall. intros a Ha. apply list_elem_of_lookup in Ha as [k Hk].
    assert (k < length fl)%nat as Hlt
        by (apply lookup_lt_Some in Hk; unfold al in Hk;
            now rewrite length_hand_out in Hk).
    destruct (lookup_lt_is_Some_2 fl k Hlt) as [f Hf].
    unfold al in Hk. rewrite (lookup_hand_out _ _ k f Hnd Hf) in Hk.
    apply (inj Some) in Hk. subst a.
    rewrite Forall_forall in Hrange.
    specialize (Hrange f (list_elem_of_lookup_2 _ _ _ Hf)).
    destruct (bool_decide _); lia. }
  assert (Zsum al = Zsum fl + Z.of_nat (length (take rounds sorted))) as Htot
      by (apply Zsum_hand_out, Hbound).
  assert (Z.of_nat (length (take rounds sorted)) <= Z.of_nat (length scores)) as Hr.
  { rewrite length_take. unfold sorted.
    rewrite length_argsort_desc, length_map. unfold prio, calc.
    rewrite length_zip_with, length_map. lia. }
  unfold Float64.project_pass. fold calc. rewrite Hfl. cbn [Float64.bind].
  assert (forall z, - 2 ^ 63 <= z < 2 ^ 63 -> Float64.int64 z = Float64.Ok z) as Hint.
  { intros z Hz. unfold Float64.int64, Float64.in_int64.
    replace (- 2 ^ 63 <=? z) with true by (symmetry; apply Z.leb_le; lia).
    replace (z <? 2 ^ 63) with true by (symmetry; apply Z.ltb_lt; lia).
    reflexivity. }
  rewrite (Hint (Zsum fl)) by lia. cbn [Float64.bind].
  rewrite (Hint n) by lia. cbn [Float64.bind].
  rewrite (Hint (n - Zsum fl)) by lia. cbn [Float64.bind].
  fold prio sorted rounds al.
  rewrite (traverse_int64_in_range al Hal). cbn [Float64.bind].
  rewrite (Hint (Zsum al)) by lia. reflexivity.
Qed.

(** C3, as stated, fails: two projects whose exact shares of 34 ads are 25.5
    and 8.5 have equal fractional parts, and the extra unit goes to the
    second one, whatever [sort_values] does with equal keys: the computed
    share of the first is the float64 just below 25.5. *)
Lemma equal_fractions_not_served_in_input_order :
  priority (total_scores (pandas := pandas_stable) Sample.equal_fractions "North") 34
  = [12800 # 25600; 12800 # 25600]
  /\ awards (pandas := pandas_stable) Sample.equal_fractions "North" 34 = [26; 8]
  /\ forall pandas : Pandas,
       exists p : Float64.Pass,
         Float64.run Sample.equal_fractions "North" 34 = Float64.Ok p
         /\ Float64.floors p = [25; 8]
         /\ Float64.remainder_ads p = 1
         /\ map (fun r => Qred (Float64.sort_key r)) (Float64.priority p)
            = [140737488355327 # 281474976710656; 1 # 2]
         /\ Float64.visited p = [1%nat]
         /\ Float64.allocated p = [25; 9].
Proof.
  split; [vm_compute; reflexivity|]. split; [vm_compute; reflexivity|].
  intros pandas.
  pose proof (project_pass_ends
                (Float64.total_scores Sample.equal_fractions "North") 34 [25; 8]) as H.
  cbv zeta in H.
  assert (forall z : Z, - 100 <= z <= 100 -> - 2 ^ 61 <= z <= 2 ^ 61 /\ - 2 ^ 62 <= z <= 2 ^ 62)
    as Hsmall by (intros z Hz; change (2 ^ 61) with 2305843009213693952;
                  change (2 ^ 62) with 4611686018427387904; lia).
  specialize (H ltac:(vm_compute; reflexivity)
                (proj1 (Hsmall 34 ltac:(lia)))
                (proj1 (Hsmall (Zsum [25; 8]) ltac:(cbn; lia)))
                (proj2 (proj1 (Hsmall (Z.of_nat (length (Float64.total_scores
                                                           Sample.equal_fractions "North")))
                                      ltac:(vm_compute; split; discriminate))))
                ltac:(repeat constructor; apply Hsmall; lia)).
  eexists. split; [exact H|].
  assert (map Float64.sort_key
              (zip_with Float64.RemainderPriority
                 (map (Float64.CalculatedAds
                         (Float64.sum (Float64.total_scores Sample.equal_fractions "North"))
                         34)
                      (Float64.total_scores Sample.equal_fractions "North"))
                 [25; 8])
          = [9007199254740928 # 18014398509481984; 4503599627370496 # 9007199254740992])
    as Hkeys by (vm_compute; reflexivity).
  cbn [Float64.floors Float64.remainder_ads Float64.priority Float64.allocated].
  unfold Float64.visited.
  cbn [Float64.floors Float64.remainder_ads Float64.sorted_indices].
  rewrite Hkeys, argsort_desc_two by reflexivity.
  repeat split.
Qed.

(** ** The rounding agrees with the floats of the kernel *)

Example rounding_agrees_with_the_kernel :
  forallb (fun '(x, y) => Kernel.same x (Kernel.value y))
    [(Float64.div (Float64.of_int 1) (Float64.of_int 3),
      PrimFloat.div (Kernel.of_int 1) (Kernel.of_int 3));
     (Float64.div (Float64.of_int 77) (Float64.of_int 10),
      PrimFloat.div (Kernel.of_int 77) (Kernel.of_int 10));
     (Float64.add (Float64.of_int (2 ^ 53)) (Float64.of_int 1),
      PrimFloat.add (Kernel.of_int (2 ^ 53)) (Kernel.of_int 1));
     (Float64.add (Float64.of_int (2 ^ 53 + 2)) (Float64.of_int 1),
      PrimFloat.add (Kernel.of_int (2 ^ 53 + 2)) (Kernel.of_int 1));
     (Float64.of_int (2 ^ 62 - 1), Kernel.of_int (2 ^ 62 - 1));
     (Float64.mul (Float64.of_int (2 ^ 62 - 1)) (Float64.of_int (2 ^ 62 - 1)),
      PrimFloat.mul (Kernel.of_int (2 ^ 62 - 1)) (Kernel.of_int (2 ^ 62 - 1)));
     (Float64.sub (Float64.div (Float64.of_int 1) (Float64.of_int 3))
                  (Float64.div (Float64.of_int 1) (Float64.of_int 7)),
      PrimFloat.sub (PrimFloat.div (Kernel.of_int 1) (Kernel.of_int 3))
                    (PrimFloat.div (Kernel.of_int 1) (Kernel.of_int 7)))]
  = true.
Proof. vm_compute. reflexivity. Qed.

(** The scores and the computed shares of the two runs above are those the
    floats of the kernel give. *)
Example shares_agree_with_the_kernel :
  let compare (computed : list Float64.float) (kernel : list PrimFloat.float) :=
    forallb (fun '(x, y) => Kernel.same x (Kernel.value y)) (combine computed kernel)
    && (length computed =? length kernel)%nat in
  let w1 := Kernel.TotalScore 1 1 77 38 0 in
  let w2 := Kernel.TotalScore 1 1 14 15 0 in
  let v1 := Kernel.TotalScore 1 1 2 13 0 in
  let v2 := Kernel.TotalScore 1 1 4 0 0 in
  compare (Float64.total_scores (pandas := pandas_stable) Sample.two_projects "North")
          [w1; w2]
  && compare (Float64.calculated
                (Float64.columns (Float64.run (pandas := pandas_stable)
                                              Sample.two_projects "North" (2 ^ 53 - 1))))
             (Kernel.CalculatedAds w1 w2 (2 ^ 53 - 1))
  && compare (Float64.total_scores (pandas := pandas_stable)
                                   Sample.equal_fractions "North")
             [v1; v2]
  && compare (Float64.calculated
                (Float64.columns (Float64.run (pandas := pandas_stable)
                                              Sample.equal_fractions "North" 34)))
             (Kernel.CalculatedAds v1 v2 34)
  = true.
Proof. vm_compute. reflexivity. Qed.

(** ** Awards and computed shares *)

(** X10. In a run of the project pass that ends, every computed share is
    finite and every award lies within one unit of it: computed share - 1 <
    award <= computed share + 1. *)
Theorem award_within_one_of_computed_share
        {pandas : Pandas} (projects_df : DataFrame) (selected_region : string)
        (num_ads_to_distribute : Z) (p : Float64.Pass) (k : nat) (a : Z)
        (c : Float64.float) :
  Float64.run projects_df selected_region num_ads_to_distribute = Float64.Ok p ->
  Float64.allocated p !! k = Some a ->
  Float64.calculated p !! k = Some c ->
  exists v : Q,
    c = Float64.Finite v /\ (v - 1 < inject_Z a)%Q /\ (inject_Z a <= v + 1)%Q.
Proof.
  intros Hrun Ha Hc. unfold Float64.run in Hrun.
  destruct (lookup_floors64 _ _ _ Hrun k c Hc) as (v & Ev & Hf).
  rewrite (lookup_allocated64 _ _ _ Hrun k _ Hf) in Ha. apply (inj Some) in Ha.
  exists v. split; [exact Ev|].
  pose proof (Qfloor_le v) as Hlo. pose proof (Qlt_floor v) as Hhi.
  rewrite inject_Z_plus in Hhi. change (inject_Z 1) with 1%Q in Hhi.
  subst a. destruct (bool_decide _).
  - rewrite inject_Z_plus. change (inject_Z 1) with 1%Q. split; lra.
  - split; lra.
Qed.

Lemma award_within_one_of_computed_share_witness :
  let p := Float64.columns (Float64.run (pandas := pandas_stable)
                                         Sample.equal_fractions "North" 34) in
  exists v : Q,
    nth 1 (Float64.calculated p) Float64.NaN = Float64.Finite v
    /\ (v - 1 < inject_Z 9)%Q /\ (inject_Z 9 <= v + 1)%Q.
Proof.
  apply (award_within_one_of_computed_share (pandas := pandas_stable)
           Sample.equal_fractions "North" 34
           (Float64.columns (Float64.run (pandas := pandas_stable)
                                         Sample.equal_fractions "North" 34)) 1 9).
  - vm_compute. reflexivity.
  - vm_compute. reflexivity.
  - vm_compute. reflexivity.
Defined.

(** ** When the total is the request *)

(** X25. In a run of the project pass that ends, the returned total is the
    sum of the awards, which is the sum of the floored shares plus the
    number of projects the remainder loop visits.  It is the requested
    quantity exactly when the remainder, the request minus the sum of the
    floored shares, is not negative and not above the number of eligible
    projects. *)
Theorem total_is_request_iff_remainder_in_range
        {pandas : Pandas} (projects_df : DataFrame) (selected_region : string)
        (num_ads_to_distribute : Z) (p : Float64.Pass) :
  Float64.run projects_df selected_region num_ads_to_distribute = Float64.Ok p ->
  let projects := Z.of_nat (length (Float64.total_scores projects_df selected_region)) in
  Float64.remainder_ads p = num_ads_to_distribute - Zsum (Float64.floors p)
  /\ Float64.total_ads_allocated p = Zsum (Float64.allocated p)
  /\ Float64.total_ads_allocated p
     = Zsum (Float64.floors p) + Z.of_nat (length (Float64.visited p))
  /\ (Float64.total_ads_allocated p = num_ads_to_distribute
      <-> 0 <= Float64.remainder_ads p <= projects).
Proof.
  intros Hrun projects. unfold Float64.run in Hrun.
  destruct (project_pass_Ok _ _ _ Hrun) as (_ & _ & Hrem & _ & _ & _ & Htot).
  pose proof (total64 _ _ _ Hrun) as Hsum.
  pose proof (length_visited _ _ _ Hrun) as Hlen.
  fold projects in Hsum, Hlen.
  split; [exact Hrem|]. split; [exact Htot|]. split; [rewrite Hsum, Hlen|]; lia.
Qed.

Lemma total_is_request_iff_remainder_in_range_witness :
  let p := Float64.columns (Float64.run (pandas := pandas_stable)
                                         Sample.equal_fractions "North" 34) in
  let projects :=
    Z.of_nat (length (Float64.total_scores (pandas := pandas_stable)
                                           Sample.equal_fractions "North")) in
  Float64.remainder_ads p = 34 - Zsum (Float64.floors p)
  /\ Float64.total_ads_allocated p = Zsum (Float64.allocated p)
  /\ Float64.total_ads_allocated p
     = Zsum (Float64.floors p) + Z.of_nat (length (Float64.visited p))
  /\ (Float64.total_ads_allocated p = 34 <-> 0 <= Float64.remainder_ads p <= projects).
Proof.
  apply (total_is_request_iff_remainder_in_range (pandas := pandas_stable)
           Sample.equal_fractions "North" 34).
  vm_compute. reflexivity.
Defined.

(** The floored shares are the floors of the numbers the computed shares
    denote. *)
Lemma floors_of_values (cs : list Float64.float) (fl : list Z) :
  Forall2 (fun c f => Float64.floor_astype_int c = Float64.Ok f) cs fl ->
  fl = map Qfloor (map Float64.value cs).
Proof.
  induction 1 as [|c f cs fl Hc _ IH]; [reflexivity|].
  destruct c as [v| |]; try discriminate.
  cbn in Hc. apply int64_Ok in Hc. cbn [map Float64.value]. now rewrite Hc, IH.
Qed.

(** X26. In a run of the project pass that ends, when the computed shares
    add up to a number within one unit of the requested quantity, the awards
    add up to the requested quantity, which is the total the call returns:
    the awards can only miss the request when rounding moves the sum of the
    shares by a whole unit. *)
Theorem awards_sum_to_request_when_shares_do
        {pandas : Pandas} (projects_df : DataFrame) (selected_region : string)
        (num_ads_to_distribute : Z) (p : Float64.Pass) :
  Float64.run projects_df selected_region num_ads_to_distribute = Float64.Ok p ->
  (inject_Z num_ads_to_distribute - 1
   < Qsum (map Float64.value (Float64.calculated p)))%Q ->
  (Qsum (map Float64.value (Float64.calculated p))
   < inject_Z num_ads_to_distribute + 1)%Q ->
  Zsum (Float64.allocated p) = num_ads_to_distribute
  /\ Float64.total_ads_allocated p = num_ads_to_distribute.
Proof.
  intros Hrun Hlo Hhi. unfold Float64.run in Hrun.
  destruct (project_pass_Ok _ _ _ Hrun) as (Hc & Hf & Hrem & _ & _ & _ & Htot).
  pose proof (total64 _ _ _ Hrun) as Hsum.
  pose proof (floors_of_values _ _ Hf) as Hfl.
  set (cs := map Float64.value (Float64.calculated p)) in *.
  destruct (floor_sum_bounds cs) as (Hfloor & Hceil & _).
  rewrite <- Hfl in Hfloor, Hceil.
  assert (length cs = length (Float64.total_scores projects_df selected_region)) as Hlen
      by (unfold cs; now rewrite length_map, Hc, length_map).
  rewrite Hlen in Hceil. clearbody cs.
  assert (Zsum (Float64.floors p) < num_ads_to_distribute + 1) as Hle.
  { rewrite Zlt_Qlt, inject_Z_plus. eapply Qle_lt_trans; [exact Hfloor|exact Hhi]. }
  assert (num_ads_to_distribute - 1
          < Zsum (Float64.floors p)
            + Z.of_nat (length (Float64.total_scores projects_df selected_region)))
    as Hge.
  { rewrite Zlt_Qlt. eapply Qlt_le_trans; [|exact Hceil].
    unfold Z.sub. rewrite inject_Z_plus. exact Hlo. }
  rewrite <- Htot. split; lia.
Qed.

Lemma awards_sum_to_request_when_shares_do_witness :
  let p := Float64.columns (Float64.run (pandas := pandas_stable)
                                         Sample.equal_fractions "North" 34) in
  Zsum (Float64.allocated p) = 34 /\ Float64.total_ads_allocated p = 34.
Proof.
  apply (awards_sum_to_request_when_shares_do (pandas := pandas_stable)
           Sample.equal_fractions "North" 34).
  - vm_compute. reflexivity.
  - vm_compute. reflexivity.
  - vm_compute. reflexivity.
Defined.
